(** * Credit ledger and redeem-code engine of src/database.py

    A shallow embedding of the storage functions of [database.py] (and of
    the registration block of [start_command] in [main.py]) over an
    explicit model of the three tables the ledger uses, for both storage
    engines the module switches between ([USING_SQLITE]). *)

From Stdlib Require Import ZArith Lia Ascii.
From stdpp Require Import base gmap list strings.

Local Open Scope string_scope.
Local Open Scope Z_scope.

(** ** Tables

    [users] and [redeem_codes] have a primary key and are maps from it;
    [redeem_logs] has a surrogate key only, so it is the list of its rows
    in insertion order, and its [UNIQUE(user_id, code)] constraint is
    enforced by the statements that insert into it.

    Clock readings ([datetime.now()]) are integers counting microseconds
    from [datetime.min]; the text columns that hold one ([created_date],
    [claimed_date], [joined_date], [last_active]) are modelled by that
    integer, since [isoformat]/[fromisoformat] round-trip it. *)

Inductive engine : Type := SQLite | Postgres.

Record user_row : Type := mk_user {
  username : option string;
  credits : Z;
  joined_date : Z;
  referrer_id : option Z;
  is_banned : Z;
  total_earned : Z;
  last_active : Z
}.

Record code_row : Type := mk_code {
  amount : Z;
  max_uses : Z;
  current_uses : Z;
  expiry_minutes : option Z;
  created_date : Z;
  is_active : Z
}.

Record log_row : Type := mk_log {
  log_user_id : Z;
  log_code : string;
  claimed_date : Z
}.

Record db : Type := mk_db {
  users : gmap Z user_row;
  redeem_codes : gmap string code_row;
  redeem_logs : list log_row
}.

Definition empty_db : db := mk_db ∅ ∅ [].

Definition with_users (f : gmap Z user_row -> gmap Z user_row) (d : db) : db :=
  mk_db (f (users d)) (redeem_codes d) (redeem_logs d).

Definition with_codes (f : gmap string code_row -> gmap string code_row) (d : db) : db :=
  mk_db (users d) (f (redeem_codes d)) (redeem_logs d).

Definition with_logs (f : list log_row -> list log_row) (d : db) : db :=
  mk_db (users d) (redeem_codes d) (f (redeem_logs d)).

(** ** Column ranges

    The numeric columns are declared [INTEGER]: a 64-bit integer under
    SQLite, a 32-bit one under PostgreSQL.  PostgreSQL refuses a sum that
    leaves the range with [integer out of range] and writes nothing; the
    statements of its branches that add to a balance carry that test
    below.  SQLite turns a sum that leaves 64 bits into a floating-point
    number, which the tables here do not hold: what is stated of the
    sums of the SQLite branches is stated where [fits SQLite] holds.
    The arguments of a statement are integers that fit the column of
    their parameter; either driver refuses others when it binds them,
    before the statement runs. *)

Definition int32 (x : Z) : bool := (-2147483648 <=? x) && (x <=? 2147483647).

Definition int64 (x : Z) : bool :=
  (-9223372036854775808 <=? x) && (x <=? 9223372036854775807).

Definition fits (eng : engine) (x : Z) : bool :=
  match eng with
  | SQLite => int64 x
  | Postgres => int32 x
  end.

(** ** SQL statements

    Each definition is the effect of one statement text of [database.py]
    on the tables.  A statement that can violate a constraint returns the
    engine's diagnostic on the left. *)

Module SQL.

(** [SELECT 1 FROM redeem_logs WHERE user_id = ? AND code = ?] *)
Definition log_matches (user_id : Z) (code : string) (l : log_row) : bool :=
  (log_user_id l =? user_id) && String.eqb (log_code l) code.

Definition select_log (user_id : Z) (code : string) (d : db) : bool :=
  existsb (log_matches user_id code) (redeem_logs d).

(** [SELECT amount, max_uses, current_uses, expiry_minutes, created_date,
    is_active FROM redeem_codes WHERE code = ?] *)
Definition select_code (code : string) (d : db) : option code_row :=
  redeem_codes d !! code.

(** [SELECT user_id FROM users WHERE user_id = ?] *)
Definition select_user_id (user_id : Z) (d : db) : option Z :=
  match users d !! user_id with
  | Some _ => Some user_id
  | None => None
  end.

(** [INSERT INTO users (...) VALUES (...)]: the primary key rejects a
    second row for the same id. *)
Definition insert_user (user_id : Z) (r : user_row) (d : db) : string + db :=
  match users d !! user_id with
  | Some _ => inl "unique violation: users.user_id"
  | None => inr (with_users (insert user_id r) d)
  end.

Definition add_credits (n : Z) (r : user_row) : user_row :=
  mk_user (username r) (credits r + n) (joined_date r) (referrer_id r)
          (is_banned r) (total_earned r) (last_active r).

Definition add_earned (n : Z) (r : user_row) : user_row :=
  mk_user (username r) (credits r) (joined_date r) (referrer_id r)
          (is_banned r) (total_earned r + n) (last_active r).

(** [UPDATE users SET credits = credits + ? WHERE user_id = ?] *)
Definition update_credits_only (n user_id : Z) (d : db) : db :=
  with_users (alter (add_credits n) user_id) d.

(** [UPDATE users SET total_earned = total_earned + ? WHERE user_id = ?] *)
Definition update_earned_only (n user_id : Z) (d : db) : db :=
  with_users (alter (add_earned n) user_id) d.

(** [UPDATE users SET credits = credits + ?, total_earned = total_earned + ?
    WHERE user_id = ?] *)
Definition update_credits_earned (n user_id : Z) (d : db) : db :=
  with_users (alter (fun r => add_earned n (add_credits n r)) user_id) d.

(** The two statements above under PostgreSQL: the sums are taken in
    32-bit arithmetic on the row the statement matches, and one that
    does not fit fails the statement. *)
Definition credits_in_range (n user_id : Z) (d : db) : bool :=
  match users d !! user_id with
  | Some r => int32 (credits r + n)
  | None => true
  end.

Definition earned_in_range (n user_id : Z) (d : db) : bool :=
  match users d !! user_id with
  | Some r => int32 (total_earned r + n)
  | None => true
  end.

Definition in_range (ok : db -> bool) (s : db -> db) (d : db) : string + db :=
  if ok d then inr (s d) else inl "integer out of range".

Definition pg_update_credits_only (n user_id : Z) : db -> string + db :=
  in_range (credits_in_range n user_id) (update_credits_only n user_id).

Definition pg_update_credits_earned (n user_id : Z) : db -> string + db :=
  in_range (fun d => credits_in_range n user_id d && earned_in_range n user_id d)
           (update_credits_earned n user_id).

(** [UPDATE users SET is_banned = ? WHERE user_id = ?] *)
Definition update_banned (status user_id : Z) (d : db) : db :=
  with_users (alter (fun r =>
    mk_user (username r) (credits r) (joined_date r) (referrer_id r)
            status (total_earned r) (last_active r)) user_id) d.

(** [UPDATE users SET credits = 0 WHERE user_id = ?] *)
Definition zero_credits (user_id : Z) (d : db) : db :=
  with_users (alter (fun r =>
    mk_user (username r) 0 (joined_date r) (referrer_id r)
            (is_banned r) (total_earned r) (last_active r)) user_id) d.

(** [DELETE FROM users WHERE user_id = ?] *)
Definition delete_user_row (user_id : Z) (d : db) : db :=
  with_users (delete user_id) d.

(** [DELETE FROM redeem_logs WHERE user_id = ?] *)
Definition delete_logs_of (user_id : Z) (d : db) : db :=
  with_logs (List.filter (fun l => negb (log_user_id l =? user_id))) d.

Definition clear_referrer (user_id : Z) (r : user_row) : user_row :=
  match referrer_id r with
  | Some p =>
      if p =? user_id
      then mk_user (username r) (credits r) (joined_date r) None
                   (is_banned r) (total_earned r) (last_active r)
      else r
  | None => r
  end.

(** [UPDATE users SET referrer_id = NULL WHERE referrer_id = ?] *)
Definition null_referrer (user_id : Z) (d : db) : db :=
  with_users (fmap (clear_referrer user_id)) d.

(** [INSERT OR REPLACE INTO redeem_codes (code, amount, max_uses,
    expiry_minutes, created_date, is_active) VALUES (?, ?, ?, ?, ?, 1)]:
    a conflicting row is deleted and the new row inserted, and the
    column the statement does not list, [current_uses], takes its
    [DEFAULT 0]. *)
Definition insert_or_replace_code (code : string) (amt uses : Z)
    (expiry : option Z) (now : Z) (d : db) : db :=
  with_codes (insert code (mk_code amt uses 0 expiry now 1)) d.

(** [INSERT INTO redeem_codes (...) VALUES ($1, $2, $3, $4, $5, 1)
    ON CONFLICT (code) DO UPDATE SET amount = EXCLUDED.amount,
    max_uses = ..., expiry_minutes = ..., created_date = ...,
    is_active = ...]: an existing row keeps its [current_uses]. *)
Definition upsert_code (code : string) (amt uses : Z)
    (expiry : option Z) (now : Z) (d : db) : db :=
  match redeem_codes d !! code with
  | Some r =>
      with_codes (insert code (mk_code amt uses (current_uses r) expiry now 1)) d
  | None =>
      with_codes (insert code (mk_code amt uses 0 expiry now 1)) d
  end.

(** [UPDATE redeem_codes SET current_uses = current_uses + 1 WHERE code = ?] *)
Definition bump_uses (code : string) (d : db) : db :=
  with_codes (alter (fun r =>
    mk_code (amount r) (max_uses r) (current_uses r + 1) (expiry_minutes r)
            (created_date r) (is_active r)) code) d.

(** [INSERT OR IGNORE INTO redeem_logs (user_id, code, claimed_date)
    VALUES (?, ?, ?)], and PostgreSQL's [ON CONFLICT DO NOTHING]: a row
    that would break [UNIQUE(user_id, code)] is not inserted. *)
Definition insert_log_ignore (user_id : Z) (code : string) (now : Z) (d : db) : db :=
  if select_log user_id code d then d
  else with_logs (fun ls => (ls ++ [mk_log user_id code now])%list) d.

(** [DELETE FROM redeem_codes WHERE code = ?] *)
Definition delete_code (code : string) (d : db) : db :=
  with_codes (delete code) d.

(** [UPDATE redeem_codes SET is_active = 0 WHERE code = ?] *)
Definition set_inactive (code : string) (d : db) : db :=
  with_codes (alter (fun r =>
    mk_code (amount r) (max_uses r) (current_uses r) (expiry_minutes r)
            (created_date r) 0) code) d.

(** [UPDATE users SET username = ? WHERE user_id = ?] *)
Definition set_username (name : option string) (user_id : Z) (d : db) : db :=
  with_users (alter (fun r =>
    mk_user name (credits r) (joined_date r) (referrer_id r)
            (is_banned r) (total_earned r) (last_active r)) user_id) d.

(** [UPDATE users SET last_active = ? WHERE user_id = ?] *)
Definition set_last_active (now user_id : Z) (d : db) : db :=
  with_users (alter (fun r =>
    mk_user (username r) (credits r) (joined_date r) (referrer_id r)
            (is_banned r) (total_earned r) now) user_id) d.

End SQL.

(** ** Connections, transactions and exceptions

    A connection sees [pending], the tables with its uncommitted writes;
    [durable] is what a commit has made permanent and what is left when
    the connection is closed.  [in_tx] tells whether a transaction is
    open.  Every awaited database call is numbered, in the order the
    function issues them, and a [fault] names the one call that the
    engine fails, with its diagnostic text: the call then raises and has
    no effect. *)

Record world : Type := mk_world {
  durable : db;
  pending : db;
  in_tx : bool;
  calls : nat
}.

Inductive outcome (A : Type) : Type :=
| Return (a : A)
| Raise (detail : string).
Arguments Return {A} a.
Arguments Raise {A} detail.

Definition fault : Type := option (nat * string).

Definition M (A : Type) : Type := fault -> world -> outcome A * world.

#[export] Instance M_ret : MRet M := fun A a _ w => (Return a, w).

#[export] Instance M_bind : MBind M := fun A B k m f w =>
  match m f w with
  | (Return a, w') => k a f w'
  | (Raise e, w') => (Raise e, w')
  end.

(** [try: body except Exception as e: handler] *)
Definition try_except {A} (body : M A) (handler : string -> M A) : M A :=
  fun f w =>
    match body f w with
    | (Return a, w') => (Return a, w')
    | (Raise e, w') => handler e f w'
    end.

Definition tick (w : world) : world :=
  mk_world (durable w) (pending w) (in_tx w) (S (calls w)).

Definition call {A} (body : world -> outcome A * world) : M A :=
  fun f w =>
    match f with
    | Some (k, msg) =>
        if (k =? calls w)%nat then (Raise msg, tick w) else body (tick w)
    | None => body (tick w)
    end.

Definition commit_world (w : world) : world :=
  mk_world (pending w) (pending w) false (calls w).

Definition rollback_world (w : world) : world :=
  mk_world (durable w) (durable w) false (calls w).

(** [async with aiosqlite.connect(...) as db:] and
    [async with pool.acquire() as conn:]: a fresh connection, closed on
    every way out of the block; what it has not committed is lost. *)
Definition with_connection {A} (body : M A) : M A :=
  fun f w =>
    let '(r, w') := body f (rollback_world w) in (r, rollback_world w').

(** *** aiosqlite (Python's [sqlite3] with its default transaction control) *)

(** [db.execute("SELECT ...")] followed by [fetchone]. *)
Definition sqlite_select {A} (q : db -> A) : M A :=
  call (fun w => (Return (q (pending w)), w)).

(** [db.execute] of an INSERT, UPDATE or DELETE: the module opens a
    transaction first when none is open. *)
Definition sqlite_execute_checked (s : db -> string + db) : M unit :=
  call (fun w =>
    match s (pending w) with
    | inr d => (Return tt, mk_world (durable w) d true (calls w))
    | inl e => (Raise e, mk_world (durable w) (pending w) true (calls w))
    end).

Definition sqlite_execute (s : db -> db) : M unit :=
  sqlite_execute_checked (fun d => inr (s d)).

(** [db.execute("BEGIN TRANSACTION")] *)
Definition sqlite_execute_begin : M unit :=
  call (fun w =>
    if in_tx w
    then (Raise "cannot start a transaction within a transaction", w)
    else (Return tt, mk_world (durable w) (pending w) true (calls w))).

(** [db.commit()]: commits when a transaction is open, else does nothing. *)
Definition sqlite_commit : M unit :=
  call (fun w => (Return tt, if in_tx w then commit_world w else w)).

(** [db.execute("COMMIT")] *)
Definition sqlite_execute_commit : M unit :=
  call (fun w =>
    if in_tx w then (Return tt, commit_world w)
    else (Raise "cannot commit - no transaction is active", w)).

(** [db.execute("ROLLBACK")] *)
Definition sqlite_execute_rollback : M unit :=
  call (fun w =>
    if in_tx w then (Return tt, rollback_world w)
    else (Raise "cannot rollback - no transaction is active", w)).

(** *** asyncpg *)

(** [conn.fetchrow] and [conn.fetchval] *)
Definition pg_fetch {A} (q : db -> A) : M A :=
  call (fun w => (Return (q (pending w)), w)).

(** [conn.execute]: inside [conn.transaction()] the write waits for the
    commit, outside it is committed at once. *)
Definition pg_execute_checked (s : db -> string + db) : M unit :=
  call (fun w =>
    match s (pending w) with
    | inr d =>
        if in_tx w then (Return tt, mk_world (durable w) d true (calls w))
        else (Return tt, mk_world d d false (calls w))
    | inl e => (Raise e, w)
    end).

Definition pg_execute (s : db -> db) : M unit :=
  pg_execute_checked (fun d => inr (s d)).

(** [async with conn.transaction():] begins, runs the block, and commits
    when the block ends normally; when the block (or the commit) raises,
    it rolls back and the exception goes on to the caller. *)
Definition pg_transaction {A} (body : M A) : M A :=
  fun f w =>
    match call (fun w0 => (Return tt, mk_world (durable w0) (pending w0) true (calls w0))) f w with
    | (Raise e, w1) => (Raise e, w1)
    | (Return _, w1) =>
        match body f w1 with
        | (Raise e, w2) => (Raise e, rollback_world w2)
        | (Return a, w2) =>
            match call (fun w0 => (Return tt, commit_world w0)) f w2 with
            | (Raise e, w3) => (Raise e, rollback_world w3)
            | (Return _, w3) => (Return a, w3)
            end
        end
    end.

(** Running a function of the module on the stored tables: its outcome
    and the tables it leaves behind. *)
Definition run {A} (m : M A) (f : fault) (st : db) : outcome A * db :=
  let '(r, w) := m f (mk_world st st false 0) in (r, durable w).

(** ** Python values *)

(** What [redeem_code_db] returns: the amount, or one of its strings. *)
Inductive pyval : Type :=
| PyInt (n : Z)
| PyStr (s : string).

(** Truth value of an optional integer ([None] and [0] are false). *)
Definition truthy (o : option Z) : bool :=
  match o with
  | Some n => negb (n =? 0)
  | None => false
  end.

Fixpoint for_each {A} (xs : list A) (body : A -> M unit) : M unit :=
  match xs with
  | [] => mret tt
  | x :: rest => body x;; for_each rest body
  end.

(** ** The functions of database.py

    [eng] is the module's [USING_SQLITE] switch; [now] is the reading of
    the clock the function takes ([redeem_code_db] reads it for the expiry
    test and again for [claimed_date]; both readings are [now]). *)

(** [get_user]: the row, or [None]. *)
Definition get_user (eng : engine) (user_id : Z) : M (option user_row) :=
  match eng with
  | SQLite => with_connection (sqlite_select (fun d => users d !! user_id))
  | Postgres => with_connection (pg_fetch (fun d => users d !! user_id))
  end.

Definition new_user (now : Z) (name : option string) (referrer : option Z) : user_row :=
  mk_user name 5 now referrer 0 0 now.

Definition add_user (eng : engine) (now user_id : Z) (name : option string)
    (referrer : option Z) : M unit :=
  match eng with
  | SQLite =>
      with_connection (
        row ← sqlite_select (SQL.select_user_id user_id);
        match row with
        | Some _ => mret tt
        | None =>
            sqlite_execute_checked (SQL.insert_user user_id (new_user now name referrer));;
            sqlite_commit
        end)
  | Postgres =>
      with_connection (
        exists_ ← pg_fetch (SQL.select_user_id user_id);
        if truthy exists_ then mret tt
        else pg_execute_checked (SQL.insert_user user_id (new_user now name referrer)))
  end.

Definition update_credits (eng : engine) (user_id amt : Z) : M unit :=
  match eng with
  | SQLite =>
      with_connection (
        (if amt >? 0
         then sqlite_execute (SQL.update_credits_earned amt user_id)
         else sqlite_execute (SQL.update_credits_only amt user_id));;
        sqlite_commit)
  | Postgres =>
      with_connection (
        if amt >? 0
        then pg_execute_checked (SQL.pg_update_credits_earned amt user_id)
        else pg_execute_checked (SQL.pg_update_credits_only amt user_id))
  end.

Definition set_ban_status (eng : engine) (user_id status : Z) : M unit :=
  match eng with
  | SQLite =>
      with_connection (sqlite_execute (SQL.update_banned status user_id);; sqlite_commit)
  | Postgres =>
      with_connection (pg_execute (SQL.update_banned status user_id))
  end.

Definition create_redeem_code (eng : engine) (now : Z) (code : string)
    (amt uses : Z) (expiry : option Z) : M unit :=
  match eng with
  | SQLite =>
      with_connection (
        sqlite_execute (SQL.insert_or_replace_code code amt uses expiry now);;
        sqlite_commit)
  | Postgres =>
      with_connection (pg_execute (SQL.upsert_code code amt uses expiry now))
  end.

(** [timedelta(minutes=1)], in microseconds. *)
Definition minute : Z := 60000000.

(** The expiry test of [redeem_code_db]:
    [expiry_minutes is not None and expiry_minutes > 0], and then
    [datetime.now() > created_dt + timedelta(minutes=expiry_minutes)]. *)
Definition expired (row : code_row) (now : Z) : bool :=
  match expiry_minutes row with
  | Some m =>
      if m >? 0 then now >? created_date row + m * minute else false
  | None => false
  end.

(** [datetime.max], 9999-12-31T23:59:59.999999, in microseconds from
    [datetime.min]. *)
Definition datetime_max : Z := 315537897599999999.

(** [expired] takes the sum in [Z].  Python builds it as a [datetime],
    and [created_dt + timedelta(...)] raises [OverflowError] when it
    passes [datetime.max]; the sum is built before the [try].  Whether
    the expiry test of a row can be evaluated at all: the duration is not
    tested, or the moment of expiry is a [datetime]. *)
Definition expiry_computable (row : code_row) : bool :=
  match expiry_minutes row with
  | Some m =>
      if m >? 0
      then (0 <=? created_date row) && (created_date row + m * minute <=? datetime_max)
      else true
  | None => true
  end.

Definition redeem_code_db (eng : engine) (now user_id : Z) (code : string) : M pyval :=
  match eng with
  | SQLite =>
      with_connection (
        claimed ← sqlite_select (SQL.select_log user_id code);
        if (claimed : bool) then mret (PyStr "already_claimed")
        else
          data ← sqlite_select (SQL.select_code code);
          match data with
          | None => mret (PyStr "invalid")
          | Some row =>
              if is_active row =? 0 then mret (PyStr "inactive")
              else if current_uses row >=? max_uses row then mret (PyStr "limit_reached")
              else if expired row now then mret (PyStr "expired")
              else
                try_except (
                  sqlite_execute_begin;;
                  sqlite_execute (SQL.bump_uses code);;
                  sqlite_execute (SQL.update_credits_only (amount row) user_id);;
                  sqlite_execute (SQL.update_earned_only (amount row) user_id);;
                  sqlite_execute (SQL.insert_log_ignore user_id code now);;
                  sqlite_commit;;
                  mret (PyInt (amount row)))
                (fun e =>
                  sqlite_execute_rollback;;
                  mret (PyStr (String.append "error: " e)))
          end)
  | Postgres =>
      with_connection (
        claimed ← pg_fetch (SQL.select_log user_id code);
        if (claimed : bool) then mret (PyStr "already_claimed")
        else
          data ← pg_fetch (SQL.select_code code);
          match data with
          | None => mret (PyStr "invalid")
          | Some row =>
              if is_active row =? 0 then mret (PyStr "inactive")
              else if current_uses row >=? max_uses row then mret (PyStr "limit_reached")
              else if expired row now then mret (PyStr "expired")
              else
                pg_transaction (
                  pg_execute (SQL.bump_uses code);;
                  pg_execute_checked (SQL.pg_update_credits_earned (amount row) user_id);;
                  pg_execute (SQL.insert_log_ignore user_id code now));;
                mret (PyInt (amount row))
          end)
  end.

Definition delete_redeem_code (eng : engine) (code : string) : M unit :=
  match eng with
  | SQLite => with_connection (sqlite_execute (SQL.delete_code code);; sqlite_commit)
  | Postgres => with_connection (pg_execute (SQL.delete_code code))
  end.

Definition deactivate_code (eng : engine) (code : string) : M unit :=
  match eng with
  | SQLite => with_connection (sqlite_execute (SQL.set_inactive code);; sqlite_commit)
  | Postgres => with_connection (pg_execute (SQL.set_inactive code))
  end.

Definition delete_user (eng : engine) (user_id : Z) : M unit :=
  match eng with
  | SQLite =>
      with_connection (
        sqlite_execute (SQL.delete_user_row user_id);;
        sqlite_execute (SQL.delete_logs_of user_id);;
        sqlite_execute (SQL.null_referrer user_id);;
        sqlite_commit)
  | Postgres =>
      with_connection (
        pg_transaction (
          pg_execute (SQL.delete_user_row user_id);;
          pg_execute (SQL.delete_logs_of user_id);;
          pg_execute (SQL.null_referrer user_id)))
  end.

Definition reset_user_credits (eng : engine) (user_id : Z) : M unit :=
  match eng with
  | SQLite => with_connection (sqlite_execute (SQL.zero_credits user_id);; sqlite_commit)
  | Postgres => with_connection (pg_execute (SQL.zero_credits user_id))
  end.

Definition update_username (eng : engine) (user_id : Z) (name : option string) : M unit :=
  match eng with
  | SQLite => with_connection (sqlite_execute (SQL.set_username name user_id);; sqlite_commit)
  | Postgres => with_connection (pg_execute (SQL.set_username name user_id))
  end.

Definition update_last_active (eng : engine) (now user_id : Z) : M unit :=
  match eng with
  | SQLite => with_connection (sqlite_execute (SQL.set_last_active now user_id);; sqlite_commit)
  | Postgres => with_connection (pg_execute (SQL.set_last_active now user_id))
  end.

Definition bulk_update_credits (eng : engine) (user_ids : list Z) (amt : Z) : M unit :=
  match eng with
  | SQLite =>
      with_connection (
        sqlite_execute_begin;;
        for_each user_ids (fun user_id =>
          if amt >? 0
          then sqlite_execute (SQL.update_credits_earned amt user_id)
          else sqlite_execute (SQL.update_credits_only amt user_id));;
        sqlite_execute_commit)
  | Postgres =>
      with_connection (
        pg_transaction (
          for_each user_ids (fun user_id =>
            if amt >? 0
            then pg_execute_checked (SQL.pg_update_credits_earned amt user_id)
            else pg_execute_checked (SQL.pg_update_credits_only amt user_id))))
  end.

(** ** The registration block of [start_command] (main.py)

    [ref_arg] is the integer parsed from a [ref_<id>] start argument, if
    there was one.  The notification sent to the referrer afterwards is
    wrapped in [try/except: pass] and touches no table. *)
Definition referral_bonus : Z := 3.

Definition start_command_register (eng : engine) (now user_id : Z)
    (name : option string) (ref_arg : option Z) : M unit :=
  existing_user ← get_user eng user_id;
  match existing_user with
  | Some _ => mret tt
  | None =>
      let referrer :=
        match ref_arg with
        | Some r => if r =? user_id then None else Some r
        | None => None
        end in
      add_user eng now user_id name referrer;;
      if truthy referrer then update_credits eng (default 0 referrer) referral_bonus
      else mret tt
  end.

(** ** Sequences of operations

    The mutating functions of the module as a type of requests, and the
    tables after serving one, or a list of them, with no storage fault.
    In a list the requests are served one after another: each runs to its
    end before the next begins.  The functions are coroutines and two
    calls can also overlap at their awaits; [overlapping_claims] below
    shows what two overlapping claims leave. *)

Inductive op : Type :=
| AddUser (now user_id : Z) (name : option string) (referrer : option Z)
| UpdateCredits (user_id amt : Z)
| SetBanStatus (user_id status : Z)
| CreateRedeemCode (now : Z) (code : string) (amt uses : Z) (expiry : option Z)
| RedeemCode (now user_id : Z) (code : string)
| DeleteRedeemCode (code : string)
| DeactivateCode (code : string)
| DeleteUser (user_id : Z)
| ResetUserCredits (user_id : Z)
| UpdateUsername (user_id : Z) (name : option string)
| UpdateLastActive (now user_id : Z)
| BulkUpdateCredits (user_ids : list Z) (amt : Z).

Definition step (eng : engine) (o : op) (st : db) : db :=
  match o with
  | AddUser now user_id name referrer =>
      snd (run (add_user eng now user_id name referrer) None st)
  | UpdateCredits user_id amt => snd (run (update_credits eng user_id amt) None st)
  | SetBanStatus user_id status => snd (run (set_ban_status eng user_id status) None st)
  | CreateRedeemCode now code amt uses expiry =>
      snd (run (create_redeem_code eng now code amt uses expiry) None st)
  | RedeemCode now user_id code => snd (run (redeem_code_db eng now user_id code) None st)
  | DeleteRedeemCode code => snd (run (delete_redeem_code eng code) None st)
  | DeactivateCode code => snd (run (deactivate_code eng code) None st)
  | DeleteUser user_id => snd (run (delete_user eng user_id) None st)
  | ResetUserCredits user_id => snd (run (reset_user_credits eng user_id) None st)
  | UpdateUsername user_id name => snd (run (update_username eng user_id name) None st)
  | UpdateLastActive now user_id => snd (run (update_last_active eng now user_id) None st)
  | BulkUpdateCredits user_ids amt => snd (run (bulk_update_credits eng user_ids amt) None st)
  end.

Fixpoint steps (eng : engine) (os : list op) (st : db) : db :=
  match os with
  | [] => st
  | o :: rest => steps eng rest (step eng o st)
  end.

(** The writes of a granted claim, as each engine issues them. *)
Definition grant (eng : engine) (now user_id : Z) (code : string) (amt : Z) (st : db) : db :=
  match eng with
  | SQLite =>
      SQL.insert_log_ignore user_id code now
        (SQL.update_earned_only amt user_id
           (SQL.update_credits_only amt user_id (SQL.bump_uses code st)))
  | Postgres =>
      SQL.insert_log_ignore user_id code now
        (SQL.update_credits_earned amt user_id (SQL.bump_uses code st))
  end.

(** The checks of [redeem_code_db] in the order it makes them, read off
    its two branches; [redeem_code_db_run] below proves that this is what
    a fault-free run returns and leaves when the engine accepts the sums
    of the grant. *)
Definition redeem_effect (eng : engine) (now user_id : Z) (code : string) (st : db)
    : pyval * db :=
  if SQL.select_log user_id code st then (PyStr "already_claimed", st)
  else match SQL.select_code code st with
       | None => (PyStr "invalid", st)
       | Some row =>
           if is_active row =? 0 then (PyStr "inactive", st)
           else if current_uses row >=? max_uses row then (PyStr "limit_reached", st)
           else if expired row now then (PyStr "expired", st)
           else (PyInt (amount row), grant eng now user_id code (amount row) st)
       end.

Definition credit_one (amt user_id : Z) (st : db) : db :=
  if amt >? 0 then SQL.update_credits_earned amt user_id st
  else SQL.update_credits_only amt user_id st.

Definition credit_all (amt : Z) (user_ids : list Z) (st : db) : db :=
  fold_left (fun s u => credit_one amt u s) user_ids st.

(** Whether the engine accepts the sums of an [update_credits] call, of
    the grant of a claim, and of every statement of a bulk credit: SQLite
    always does, PostgreSQL when they fit 32 bits. *)
Definition credit_accepted (eng : engine) (amt user_id : Z) (st : db) : bool :=
  match eng with
  | SQLite => true
  | Postgres =>
      if amt >? 0
      then SQL.credits_in_range amt user_id st && SQL.earned_in_range amt user_id st
      else SQL.credits_in_range amt user_id st
  end.

Definition grant_accepted (eng : engine) (amt user_id : Z) (st : db) : bool :=
  match eng with
  | SQLite => true
  | Postgres => SQL.credits_in_range amt user_id st && SQL.earned_in_range amt user_id st
  end.

Fixpoint credit_all_accepted (eng : engine) (amt : Z) (user_ids : list Z) (st : db) : bool :=
  match user_ids with
  | [] => true
  | u :: rest =>
      credit_accepted eng amt u st && credit_all_accepted eng amt rest (credit_one amt u st)
  end.

Definition accepted (eng : engine) (o : op) (st : db) : bool :=
  match o with
  | UpdateCredits user_id amt => credit_accepted eng amt user_id st
  | RedeemCode now user_id code =>
      match fst (redeem_effect eng now user_id code st) with
      | PyInt amt => grant_accepted eng amt user_id st
      | PyStr _ => true
      end
  | BulkUpdateCredits user_ids amt => credit_all_accepted eng amt user_ids st
  | _ => true
  end.

(** The tables a fault-free request leaves, in closed form, when the
    engine accepts its sums; [step_effect_eq] below proves that [step]
    computes exactly this then, and [step_refused] that a request whose
    sums are refused leaves the tables as they were. *)
Definition step_effect (eng : engine) (o : op) (st : db) : db :=
  match o with
  | AddUser now user_id name referrer =>
      match users st !! user_id with
      | Some _ => st
      | None => with_users (insert user_id (new_user now name referrer)) st
      end
  | UpdateCredits user_id amt => credit_one amt user_id st
  | SetBanStatus user_id status => SQL.update_banned status user_id st
  | CreateRedeemCode now code amt uses expiry =>
      match eng with
      | SQLite => SQL.insert_or_replace_code code amt uses expiry now st
      | Postgres => SQL.upsert_code code amt uses expiry now st
      end
  | RedeemCode now user_id code => snd (redeem_effect eng now user_id code st)
  | DeleteRedeemCode code => SQL.delete_code code st
  | DeactivateCode code => SQL.set_inactive code st
  | DeleteUser user_id =>
      SQL.null_referrer user_id (SQL.delete_logs_of user_id (SQL.delete_user_row user_id st))
  | ResetUserCredits user_id => SQL.zero_credits user_id st
  | UpdateUsername user_id name => SQL.set_username name user_id st
  | UpdateLastActive now user_id => SQL.set_last_active now user_id st
  | BulkUpdateCredits user_ids amt => credit_all amt user_ids st
  end.

(** The number of [redeem_logs] rows of an account for a code. *)
Definition claim_rows (user_id : Z) (code : string) (st : db) : nat :=
  length (List.filter (SQL.log_matches user_id code) (redeem_logs st)).

(** [current_uses <= max_uses] on every stored code. *)
Definition uses_bounded (st : db) : Prop :=
  forall code row, redeem_codes st !! code = Some row -> current_uses row <= max_uses row.

(** A request that keeps [uses_bounded]: a code is defined with a
    non-negative cap that is not below the uses it already has. *)
Definition cap_respected (o : op) (st : db) : Prop :=
  match o with
  | CreateRedeemCode _ code _ uses _ =>
      0 <= uses /\
      match redeem_codes st !! code with
      | Some row => current_uses row <= uses
      | None => True
      end
  | _ => True
  end.

Fixpoint caps_respected (eng : engine) (os : list op) (st : db) : Prop :=
  match os with
  | [] => True
  | o :: rest => cap_respected o st /\ caps_respected eng rest (step eng o st)
  end.

(** Requests that do not delete the account [user_id]. *)
Definition keeps_account (user_id : Z) (o : op) : Prop :=
  match o with
  | DeleteUser u => u <> user_id
  | _ => True
  end.

(** ** Ranges of the values a request writes

    The conditions under which the sums of a request are exact under
    either engine: the argument fits the column of its parameter and so
    does every sum the statements store. *)

(** An [update_credits] of [amt] on the row [row]. *)
Definition credit_fits (eng : engine) (amt : Z) (row : user_row) : bool :=
  fits eng amt && fits eng (credits row + amt) &&
  (if amt >? 0 then fits eng (total_earned row + amt) else true).

(** The grant of the code [row] to an account, [account] being its row
    when it has one. *)
Definition grant_fits (eng : engine) (account : option user_row) (row : code_row) : bool :=
  fits eng (current_uses row + 1) &&
  match account with
  | Some a => fits eng (credits a + amount row) && fits eng (total_earned a + amount row)
  | None => true
  end.

(** A series of [update_credits] calls on a row holding balance [c] and
    lifetime-earned counter [e]. *)
Fixpoint deltas_fit (eng : engine) (c e : Z) (ds : list Z) : bool :=
  match ds with
  | [] => true
  | d :: rest =>
      fits eng d && fits eng (c + d) && (if d >? 0 then fits eng (e + d) else true) &&
      deltas_fit eng (c + d) (if d >? 0 then e + d else e) rest
  end.

(** One credit of [amt] for each listed id, in order. *)
Fixpoint credits_fit (eng : engine) (amt : Z) (user_ids : list Z) (st : db) : bool :=
  match user_ids with
  | [] => true
  | u :: rest =>
      fits eng amt &&
      match users st !! u with
      | Some row => credit_fits eng amt row
      | None => true
      end &&
      credits_fit eng amt rest (credit_one amt u st)
  end.

(** A request whose integer arguments and sums fit 32 bits, and so the
    columns of both engines, and, for a claim, whose code has an expiry
    test that can be evaluated. *)
Definition request_in_range (o : op) (st : db) : bool :=
  match o with
  | UpdateCredits user_id amt =>
      int32 amt &&
      match users st !! user_id with
      | Some row => credit_fits Postgres amt row
      | None => true
      end
  | SetBanStatus _ status => int32 status
  | CreateRedeemCode _ _ amt uses expiry =>
      int32 amt && int32 uses &&
      match expiry with
      | Some m => int32 m
      | None => true
      end
  | RedeemCode _ user_id code =>
      match redeem_codes st !! code with
      | Some row => expiry_computable row && grant_fits Postgres (users st !! user_id) row
      | None => true
      end
  | BulkUpdateCredits user_ids amt => credits_fit Postgres amt user_ids st
  | _ => true
  end.

(** ** Sample tables

    One account, one code, and the tables after that account claimed the
    code once; [demo_claimed_reached] below shows that the module's
    functions produce them from the empty tables. *)

Definition demo_user : user_row := new_user 1000 (Some "alice") None.

Definition demo_code : code_row := mk_code 50 2 0 None 2000 1.

Definition demo_users : db := mk_db {[ 7 := demo_user ]} ∅ [].

Definition demo_codes : db :=
  mk_db {[ 7 := demo_user ]} {[ "WELCOME50" := demo_code ]} [].

Definition demo_claimed : db :=
  mk_db {[ 7 := mk_user (Some "alice") 55 1000 None 0 50 1000 ]}
        {[ "WELCOME50" := mk_code 50 2 1 None 2000 1 ]}
        [mk_log 7 "WELCOME50" 3000].

(** Two accounts and a code with one use left. *)
Definition one_use_left : db :=
  mk_db {[ 7 := demo_user; 8 := new_user 1500 (Some "bob") None ]}
        {[ "ONCE" := mk_code 10 1 0 None 2000 1 ]} [].

(** ** Further functions and notions

    The ban test and the redeem branch of the message handler of main.py,
    requests served under a storage fault, and the relation between a
    code's counter and its claim rows. *)

(** The tables a request leaves when the call [f] names fails. *)
Definition serve (eng : engine) (f : fault) (o : op) (st : db) : db :=
  match o with
  | AddUser now user_id name referrer =>
      snd (run (add_user eng now user_id name referrer) f st)
  | UpdateCredits user_id amt => snd (run (update_credits eng user_id amt) f st)
  | SetBanStatus user_id status => snd (run (set_ban_status eng user_id status) f st)
  | CreateRedeemCode now code amt uses expiry =>
      snd (run (create_redeem_code eng now code amt uses expiry) f st)
  | RedeemCode now user_id code => snd (run (redeem_code_db eng now user_id code) f st)
  | DeleteRedeemCode code => snd (run (delete_redeem_code eng code) f st)
  | DeactivateCode code => snd (run (deactivate_code eng code) f st)
  | DeleteUser user_id => snd (run (delete_user eng user_id) f st)
  | ResetUserCredits user_id => snd (run (reset_user_credits eng user_id) f st)
  | UpdateUsername user_id name => snd (run (update_username eng user_id name) f st)
  | UpdateLastActive now user_id => snd (run (update_last_active eng now user_id) f st)
  | BulkUpdateCredits user_ids amt => snd (run (bulk_update_credits eng user_ids amt) f st)
  end.


Definition calls_made {A} (m : M A) (st : db) : nat :=
  calls (snd (m None (mk_world st st false 0))).


(** [is_user_banned] (main.py): [user and user[5] == 1]. *)
Definition is_user_banned (eng : engine) (user_id : Z) : M bool :=
  user ← get_user eng user_id;
  mret (match user with
        | Some row => is_banned row =? 1
        | None => false
        end).

(** The sum of a list of deltas. *)
Definition total_of (ds : list Z) : Z := fold_right Z.add 0 ds.

(** The redeem branch of [handle_inputs] (main.py): the message it
    answers with, and the numbers the message shows. *)
Inductive redeem_reply : Type :=
| ReplyRedeemed (credits_added new_balance : Z)
| ReplyAlreadyClaimed
| ReplyInvalid
| ReplyInactive
| ReplyLimitReached
| ReplyExpired
| ReplyError.

Definition handle_redeem (eng : engine) (now user_id : Z) (code : string)
    : M (option redeem_reply) :=
  banned ← is_user_banned eng user_id;
  if (banned : bool) then mret None
  else
    result ← redeem_code_db eng now user_id code;
    match result with
    | PyInt n =>
        user_data ← get_user eng user_id;
        mret (Some (ReplyRedeemed n
                      match user_data with
                      | Some row => credits row + n
                      | None => n
                      end))
    | PyStr s =>
        mret (Some (if String.eqb s "already_claimed" then ReplyAlreadyClaimed
                    else if String.eqb s "invalid" then ReplyInvalid
                    else if String.eqb s "inactive" then ReplyInactive
                    else if String.eqb s "limit_reached" then ReplyLimitReached
                    else if String.eqb s "expired" then ReplyExpired
                    else ReplyError))
    end.

(** The number of claim rows that name a code. *)
Definition code_rows (code : string) (st : db) : nat :=
  length (List.filter (fun l => String.eqb (log_code l) code) (redeem_logs st)).

(** [current_uses] of every stored code is the number of its claim rows. *)
Definition uses_match (st : db) : Prop :=
  forall code row,
    redeem_codes st !! code = Some row -> current_uses row = Z.of_nat (code_rows code st).

(** Requests that keep [uses_match]: a code is defined only under a name
    no claim row carries, and an account is deleted only when it has no
    claim rows. *)
Definition history_kept (o : op) (st : db) : Prop :=
  match o with
  | CreateRedeemCode _ code _ _ _ => code_rows code st = 0%nat
  | DeleteUser user_id => forall l, In l (redeem_logs st) -> log_user_id l <> user_id
  | _ => True
  end.

Fixpoint histories_kept (eng : engine) (os : list op) (st : db) : Prop :=
  match os with
  | [] => True
  | o :: rest => history_kept o st /\ histories_kept eng rest (step eng o st)
  end.

(** ** [parse_time_string] (database.py)

    Text is ASCII text: [ascii_text] says of a string that it is.  On
    other text Python's [\d], [str.isdigit] and [int] know digits that
    the definitions below do not.  [search_unit u s] is [re.search] of
    the pattern [(\d+)u] in [s], returning group 1: the start positions
    are tried from the left, and at a start position the greedy [\d+]
    takes the whole run of digits there, which must be followed by [u]
    (giving the run back one digit at a time cannot help, as a digit is
    not [u]). *)

Definition is_digit (c : ascii) : bool :=
  (48 <=? nat_of_ascii c)%nat && (nat_of_ascii c <=? 57)%nat.

Fixpoint ascii_text (s : string) : bool :=
  match s with
  | EmptyString => true
  | String c rest => (nat_of_ascii c <? 128)%nat && ascii_text rest
  end.

Definition lower_char (c : ascii) : ascii :=
  if (65 <=? nat_of_ascii c)%nat && (nat_of_ascii c <=? 90)%nat
  then ascii_of_nat (nat_of_ascii c + 32)
  else c.

(** [str.lower()] *)
Fixpoint py_lower (s : string) : string :=
  match s with
  | EmptyString => EmptyString
  | String c rest => String (lower_char c) (py_lower rest)
  end.

Fixpoint all_digits (s : string) : bool :=
  match s with
  | EmptyString => true
  | String c rest => is_digit c && all_digits rest
  end.

(** [str.isdigit()]: at least one character, and all of them digits. *)
Definition py_isdigit (s : string) : bool :=
  match s with
  | EmptyString => false
  | String _ _ => all_digits s
  end.

Definition digit_value (c : ascii) : Z := Z.of_nat (nat_of_ascii c) - 48.

Fixpoint int_from (acc : Z) (s : string) : Z :=
  match s with
  | EmptyString => acc
  | String c rest => int_from (acc * 10 + digit_value c) rest
  end.

(** [int(s)] for a string of decimal digits. *)
Definition py_int (s : string) : Z := int_from 0 s.

(** The run of digits a string starts with, and what follows it. *)
Fixpoint span_digits (s : string) : string * string :=
  match s with
  | EmptyString => (EmptyString, EmptyString)
  | String c rest =>
      if is_digit c
      then let '(ds, tl) := span_digits rest in (String c ds, tl)
      else (EmptyString, s)
  end.

Fixpoint search_unit (u : ascii) (s : string) : option string :=
  match s with
  | EmptyString => None
  | String _ rest =>
      match span_digits s with
      | (String d ds, String x _) =>
          if Ascii.eqb x u then Some (String d ds) else search_unit u rest
      | _ => search_unit u rest
      end
  end.

Definition parse_time_string (time_str : string) : option Z :=
  if String.eqb time_str "" || String.eqb (py_lower time_str) "none" then None
  else
    let time_str := py_lower time_str in
    let hour_match := search_unit "h" time_str in
    let total_minutes :=
      match hour_match with
      | Some g => 0 + py_int g * 60
      | None => 0
      end in
    let minute_match := search_unit "m" time_str in
    let total_minutes :=
      match minute_match with
      | Some g => total_minutes + py_int g
      | None => total_minutes
      end in
    let total_minutes :=
      match hour_match, minute_match with
      | None, None => if py_isdigit time_str then py_int time_str else total_minutes
      | _, _ => total_minutes
      end in
    if total_minutes >? 0 then Some total_minutes else None.

(** [n] when it is positive, else [None]: the last line of the function. *)
Definition positive_or_none (n : Z) : option Z := if n >? 0 then Some n else None.

(** Whether a character occurs in a string. *)
Fixpoint occurs (u : ascii) (s : string) : bool :=
  match s with
  | EmptyString => false
  | String c rest => Ascii.eqb c u || occurs u rest
  end.

(** [SELECT code, claimed_date FROM redeem_logs WHERE user_id = ?].  The
    query has no [ORDER BY]: the engine returns the matching rows in an
    order of its choice, [row_order] (SQLite reads them off the index of
    [UNIQUE(user_id, code)]). *)
Definition select_history (row_order : list log_row -> list log_row)
    (user_id : Z) (d : db) : list (string * Z) :=
  map (fun l => (log_code l, claimed_date l))
      (row_order (List.filter (fun l => log_user_id l =? user_id) (redeem_logs d))).

Definition get_user_redeem_history (eng : engine)
    (row_order : list log_row -> list log_row) (user_id : Z) : M (list (string * Z)) :=
  match eng with
  | SQLite => with_connection (sqlite_select (select_history row_order user_id))
  | Postgres => with_connection (pg_fetch (select_history row_order user_id))
  end.

(** ** The credit charge of [process_api_call] (main.py)

    What the lookup handler does to the ledger.  [admin_level] is the
    truth value of [is_user_admin], [api_configured] that of
    [APIS.get(api_type)], [uid_lookup] says whether the lookup is one of
    the two whose input is reduced to its digits.  The exchange with the
    provider sits in a [try/except Exception] of its own and is followed
    by the charge whatever its outcome; the replies and files produced
    in between are taken to succeed.  After the charge the handler
    writes the audit row ([log_lookup], into [lookup_logs], a table
    apart from the three modelled) and stamps the account
    ([update_last_active], with the clock reading [now]); what it sends
    to the log channel afterwards sits in a [try/except] and touches no
    table. *)

(** [log_lookup] (database.py): one INSERT into [lookup_logs]. *)
Definition log_lookup (eng : engine) : M unit :=
  match eng with
  | SQLite => with_connection (sqlite_execute (fun d => d);; sqlite_commit)
  | Postgres => with_connection (pg_execute (fun d => d))
  end.

Definition raise {A} (detail : string) : M A := fun _ w => (Raise detail, w).

Inductive lookup_outcome : Type :=
| LookupIgnored
| LookupInsufficient
| LookupUnavailable
| LookupInvalidUid
| LookupServed.

(** [''.join(filter(str.isdigit, input_data))] *)
Fixpoint keep_digits (s : string) : string :=
  match s with
  | EmptyString => EmptyString
  | String c rest => if is_digit c then String c (keep_digits rest) else keep_digits rest
  end.

Definition process_api_call (eng : engine) (now user_id : Z)
    (admin_level api_configured uid_lookup : bool) (input_data : string)
    : M lookup_outcome :=
  banned ← is_user_banned eng user_id;
  if (banned : bool) then mret LookupIgnored
  else
    user ← get_user eng user_id;
    short ←
      (if admin_level then mret false
       else match user with
            | Some row => mret (credits row <? 1)
            | None => raise "'NoneType' object is not subscriptable"
            end);
    if (short : bool) then mret LookupInsufficient
    else if negb api_configured then mret LookupUnavailable
    else if uid_lookup && String.eqb (keep_digits input_data) "" then mret LookupInvalidUid
    else
      (if admin_level then mret tt else update_credits eng user_id (-1));;
      log_lookup eng;;
      update_last_active eng now user_id;;
      mret LookupServed.

(** ** Fault-free runs *)

(** The body of the loop of [bulk_update_credits], per engine. *)
Local Abbreviation sqlite_credit amt :=
  (fun user_id : Z =>
     if amt >? 0
     then sqlite_execute (SQL.update_credits_earned amt user_id)
     else sqlite_execute (SQL.update_credits_only amt user_id)).

Local Abbreviation pg_credit amt :=
  (fun user_id : Z =>
     if amt >? 0
     then pg_execute_checked (SQL.pg_update_credits_earned amt user_id)
     else pg_execute_checked (SQL.pg_update_credits_only amt user_id)).

Lemma credit_all_accepted_sqlite amt user_ids st :
  credit_all_accepted SQLite amt user_ids st = true.
Proof.
  revert st. induction user_ids as [|u rest IH]; intros st; [reflexivity|].
  cbn. apply IH.
Qed.

Lemma pg_credit_accepted amt u w :
  in_tx w = true ->
  credit_accepted Postgres amt u (pending w) = true ->
  pg_credit amt u None w
  = (Return tt, mk_world (durable w) (credit_one amt u (pending w)) true (S (calls w))).
Proof.
  unfold credit_accepted, credit_one, pg_execute_checked, call,
    SQL.pg_update_credits_earned, SQL.pg_update_credits_only, SQL.in_range.
  intros Htx Hok.
  destruct (amt >? 0); cbn [pending tick in_tx durable calls]; rewrite Hok, Htx; reflexivity.
Qed.

Lemma pg_credit_refused amt u w :
  credit_accepted Postgres amt u (pending w) = false ->
  pg_credit amt u None w = (Raise "integer out of range", tick w).
Proof.
  unfold credit_accepted, pg_execute_checked, call,
    SQL.pg_update_credits_earned, SQL.pg_update_credits_only, SQL.in_range.
  intros Hok.
  destruct (amt >? 0); cbn [pending tick in_tx durable calls]; rewrite Hok; reflexivity.
Qed.

Section FaultFree.

Variable eng : engine.

Lemma get_user_run user_id st :
  run (get_user eng user_id) None st = (Return (users st !! user_id), st).
Proof. destruct eng; reflexivity. Qed.

Lemma add_user_run now user_id name referrer st :
  users st !! user_id = None ->
  run (add_user eng now user_id name referrer) None st =
  (Return tt, with_users (insert user_id (new_user now name referrer)) st).
Proof.
  intros Hnone.
  destruct eng; unfold run, add_user, with_connection, mbind, M_bind,
    sqlite_select, sqlite_execute_checked, sqlite_commit, pg_fetch,
    pg_execute_checked, call, SQL.select_user_id, SQL.insert_user; cbn;
    rewrite Hnone; cbn; rewrite ?Hnone; reflexivity.
Qed.

Lemma update_credits_run user_id amt st :
  credit_accepted eng amt user_id st = true ->
  run (update_credits eng user_id amt) None st = (Return tt, credit_one amt user_id st).
Proof.
  unfold credit_one, credit_accepted.
  destruct eng; destruct (amt >? 0) eqn:E; intros Hok; unfold run, update_credits;
    rewrite E; try reflexivity;
    unfold with_connection, pg_execute_checked, call, SQL.pg_update_credits_earned,
      SQL.pg_update_credits_only, SQL.in_range;
    cbn [pending tick rollback_world durable in_tx calls];
    rewrite Hok; reflexivity.
Qed.

Lemma update_credits_refused user_id amt st :
  credit_accepted eng amt user_id st = false ->
  run (update_credits eng user_id amt) None st = (Raise "integer out of range", st).
Proof.
  unfold credit_accepted.
  destruct eng; [discriminate|].
  destruct (amt >? 0) eqn:E; intros Hok; unfold run, update_credits; rewrite E;
    unfold with_connection, pg_execute_checked, call, SQL.pg_update_credits_earned,
      SQL.pg_update_credits_only, SQL.in_range;
    cbn [pending tick rollback_world durable in_tx calls];
    rewrite Hok; reflexivity.
Qed.

Lemma set_ban_status_run user_id status st :
  run (set_ban_status eng user_id status) None st =
  (Return tt, SQL.update_banned status user_id st).
Proof. destruct eng; reflexivity. Qed.

Lemma redeem_code_db_run now user_id code st :
  accepted eng (RedeemCode now user_id code) st = true ->
  run (redeem_code_db eng now user_id code) None st =
  (Return (fst (redeem_effect eng now user_id code st)),
   snd (redeem_effect eng now user_id code st)).
Proof.
  unfold accepted, redeem_effect, grant_accepted.
  destruct eng; unfold run, redeem_code_db, with_connection, mbind, M_bind; cbn;
    destruct (SQL.select_log user_id code st) eqn:E1; cbn; try reflexivity;
    destruct (SQL.select_code code st) as [row|] eqn:E2; cbn; try reflexivity;
    destruct (is_active row =? 0) eqn:E3; cbn; try reflexivity;
    destruct (current_uses row >=? max_uses row) eqn:E4; cbn; try reflexivity;
    destruct (expired row now) eqn:E5; cbn; try reflexivity.
  unfold SQL.pg_update_credits_earned, SQL.in_range, SQL.credits_in_range,
    SQL.earned_in_range. cbn.
  intros Hok. rewrite Hok. reflexivity.
Qed.

Lemma redeem_code_db_refused now user_id code st :
  accepted eng (RedeemCode now user_id code) st = false ->
  run (redeem_code_db eng now user_id code) None st = (Raise "integer out of range", st).
Proof.
  unfold accepted, redeem_effect, grant_accepted.
  destruct eng; unfold run, redeem_code_db, with_connection, mbind, M_bind; cbn;
    destruct (SQL.select_log user_id code st) eqn:E1; cbn; try discriminate;
    destruct (SQL.select_code code st) as [row|] eqn:E2; cbn; try discriminate;
    destruct (is_active row =? 0) eqn:E3; cbn; try discriminate;
    destruct (current_uses row >=? max_uses row) eqn:E4; cbn; try discriminate;
    destruct (expired row now) eqn:E5; cbn; try discriminate.
  unfold SQL.pg_update_credits_earned, SQL.in_range, SQL.credits_in_range,
    SQL.earned_in_range. cbn.
  intros Hok. rewrite Hok. reflexivity.
Qed.

Lemma delete_redeem_code_run code st :
  run (delete_redeem_code eng code) None st = (Return tt, SQL.delete_code code st).
Proof. destruct eng; reflexivity. Qed.

Lemma deactivate_code_run code st :
  run (deactivate_code eng code) None st = (Return tt, SQL.set_inactive code st).
Proof. destruct eng; reflexivity. Qed.

Lemma delete_user_run user_id st :
  run (delete_user eng user_id) None st =
  (Return tt,
   SQL.null_referrer user_id (SQL.delete_logs_of user_id (SQL.delete_user_row user_id st))).
Proof. destruct eng; reflexivity. Qed.

Lemma reset_user_credits_run user_id st :
  run (reset_user_credits eng user_id) None st = (Return tt, SQL.zero_credits user_id st).
Proof. destruct eng; reflexivity. Qed.

Lemma update_username_run user_id name st :
  run (update_username eng user_id name) None st =
  (Return tt, SQL.set_username name user_id st).
Proof. destruct eng; reflexivity. Qed.

Lemma update_last_active_run now user_id st :
  run (update_last_active eng now user_id) None st =
  (Return tt, SQL.set_last_active now user_id st).
Proof. destruct eng; reflexivity. Qed.

Lemma add_user_existing now user_id name referrer st :
  is_Some (users st !! user_id) ->
  snd (run (add_user eng now user_id name referrer) None st) = st.
Proof.
  intros [row Hrow].
  destruct eng; unfold run, add_user, with_connection, mbind, M_bind,
    sqlite_select, sqlite_execute_checked, sqlite_commit, pg_fetch,
    pg_execute_checked, call, SQL.select_user_id, SQL.insert_user; cbn;
    rewrite Hrow; cbn; try reflexivity.
  destruct (user_id =? 0); cbn; rewrite ?Hrow; reflexivity.
Qed.

Lemma for_each_sqlite_credit amt user_ids w :
  in_tx w = true ->
  for_each user_ids (sqlite_credit amt) None w =
  (Return tt,
   mk_world (durable w) (credit_all amt user_ids (pending w)) true
            (calls w + length user_ids)%nat).
Proof.
  revert w. induction user_ids as [|u rest IH]; intros w Htx.
  - destruct w as [d p t c]; cbn in *. subst t. rewrite Nat.add_0_r. reflexivity.
  - cbn [for_each]. unfold mbind, M_bind.
    assert (Hhead :
      sqlite_credit amt u None w =
      (Return tt, mk_world (durable w) (credit_one amt u (pending w)) true (S (calls w)))).
    { unfold credit_one. destruct (amt >? 0); reflexivity. }
    rewrite Hhead. rewrite IH by reflexivity. cbn.
    rewrite Nat.add_succ_r. reflexivity.
Qed.

Lemma for_each_pg_credit amt user_ids w :
  in_tx w = true ->
  credit_all_accepted Postgres amt user_ids (pending w) = true ->
  for_each user_ids (pg_credit amt) None w =
  (Return tt,
   mk_world (durable w) (credit_all amt user_ids (pending w)) true
            (calls w + length user_ids)%nat).
Proof.
  revert w. induction user_ids as [|u rest IH]; intros w Htx Hok.
  - destruct w as [d p t c]; cbn in *. subst t. rewrite Nat.add_0_r. reflexivity.
  - cbn [credit_all_accepted] in Hok. apply andb_true_iff in Hok. destruct Hok as [Hu Hrest].
    cbn [for_each]. unfold mbind, M_bind.
    rewrite (pg_credit_accepted amt u w Htx Hu).
    rewrite IH by (try reflexivity; exact Hrest). cbn.
    rewrite Nat.add_succ_r. reflexivity.
Qed.

Lemma for_each_pg_refused amt user_ids w :
  in_tx w = true ->
  credit_all_accepted Postgres amt user_ids (pending w) = false ->
  exists w',
    for_each user_ids (pg_credit amt) None w = (Raise "integer out of range", w') /\
    durable w' = durable w.
Proof.
  revert w. induction user_ids as [|u rest IH]; intros w Htx Hok; [discriminate|].
  cbn [credit_all_accepted] in Hok. cbn [for_each]. unfold mbind, M_bind.
  destruct (credit_accepted Postgres amt u (pending w)) eqn:Hu.
  - rewrite (pg_credit_accepted amt u w Htx Hu).
    destruct (IH (mk_world (durable w) (credit_one amt u (pending w)) true (S (calls w)))
                 eq_refl Hok) as (w' & Hrun & Hd).
    exists w'. split; [exact Hrun | exact Hd].
  - rewrite (pg_credit_refused amt u w Hu). exists (tick w). split; reflexivity.
Qed.

Lemma bulk_update_credits_run user_ids amt st :
  credit_all_accepted eng amt user_ids st = true ->
  run (bulk_update_credits eng user_ids amt) None st =
  (Return tt, credit_all amt user_ids st).
Proof.
  intros Hok. destruct eng; unfold run, bulk_update_credits, with_connection.
  - unfold mbind at 1. unfold M_bind at 1. cbn.
    unfold mbind at 1. unfold M_bind at 1.
    rewrite for_each_sqlite_credit by reflexivity. reflexivity.
  - unfold pg_transaction. cbn.
    rewrite for_each_pg_credit by (try reflexivity; exact Hok). reflexivity.
Qed.

Lemma bulk_update_credits_refused user_ids amt st :
  credit_all_accepted eng amt user_ids st = false ->
  run (bulk_update_credits eng user_ids amt) None st = (Raise "integer out of range", st).
Proof.
  intros Hok. destruct eng; [rewrite credit_all_accepted_sqlite in Hok; discriminate|].
  unfold run, bulk_update_credits, with_connection, pg_transaction. cbn.
  destruct (for_each_pg_refused amt user_ids (mk_world st st true 1) eq_refl Hok)
    as (w' & Hrun & Hd).
  rewrite Hrun. cbn. cbn in Hd. rewrite Hd. reflexivity.
Qed.

Lemma step_effect_eq o st :
  accepted eng o st = true -> step eng o st = step_effect eng o st.
Proof.
  destruct o; cbn [step step_effect accepted]; intros Hok.
  - destruct (users st !! user_id) as [row|] eqn:Hrow.
    + apply add_user_existing. rewrite Hrow. eexists; reflexivity.
    + rewrite add_user_run by exact Hrow. reflexivity.
  - rewrite update_credits_run by exact Hok. reflexivity.
  - rewrite set_ban_status_run. reflexivity.
  - destruct eng; reflexivity.
  - rewrite redeem_code_db_run by exact Hok. reflexivity.
  - rewrite delete_redeem_code_run. reflexivity.
  - rewrite deactivate_code_run. reflexivity.
  - rewrite delete_user_run. reflexivity.
  - rewrite reset_user_credits_run. reflexivity.
  - rewrite update_username_run. reflexivity.
  - rewrite update_last_active_run. reflexivity.
  - rewrite bulk_update_credits_run by exact Hok. reflexivity.
Qed.

Lemma step_refused o st : accepted eng o st = false -> step eng o st = st.
Proof.
  destruct o; cbn [step accepted]; intros Hok; try discriminate.
  - rewrite update_credits_refused by exact Hok. reflexivity.
  - rewrite redeem_code_db_refused by exact Hok. reflexivity.
  - rewrite bulk_update_credits_refused by exact Hok. reflexivity.
Qed.

(** A fault-free request leaves the tables as they were or as its closed
    form says. *)
Lemma step_cases o st :
  step eng o st = st \/ step eng o st = step_effect eng o st.
Proof.
  destruct (accepted eng o st) eqn:Hok.
  - right. apply step_effect_eq, Hok.
  - left. apply step_refused, Hok.
Qed.

End FaultFree.

Lemma create_redeem_code_sqlite_run now code amt uses expiry st :
  run (create_redeem_code SQLite now code amt uses expiry) None st =
  (Return tt, SQL.insert_or_replace_code code amt uses expiry now st).
Proof. reflexivity. Qed.

Lemma create_redeem_code_pg_run now code amt uses expiry st :
  run (create_redeem_code Postgres now code amt uses expiry) None st =
  (Return tt, SQL.upsert_code code amt uses expiry now st).
Proof. reflexivity. Qed.

Lemma demo_claimed_reached eng :
  steps eng [AddUser 1000 7 (Some "alice") None;
             CreateRedeemCode 2000 "WELCOME50" 50 2 None;
             RedeemCode 3000 7 "WELCOME50"] empty_db = demo_claimed.
Proof. destruct eng; vm_compute; reflexivity. Qed.

(** What a claim can answer, and the tables it leaves in each case. *)
Lemma redeem_effect_cases eng now user_id code st :
  (snd (redeem_effect eng now user_id code st) = st /\
   forall amt, fst (redeem_effect eng now user_id code st) <> PyInt amt) \/
  (exists row,
     SQL.select_log user_id code st = false /\
     redeem_codes st !! code = Some row /\
     is_active row <> 0 /\
     current_uses row < max_uses row /\
     expired row now = false /\
     redeem_effect eng now user_id code st =
       (PyInt (amount row), grant eng now user_id code (amount row) st)).
Proof.
  unfold redeem_effect, SQL.select_code.
  destruct (SQL.select_log user_id code st); [left; split; [reflexivity | discriminate]|].
  destruct (redeem_codes st !! code) as [row|]; [|left; split; [reflexivity | discriminate]].
  destruct (is_active row =? 0) eqn:Ea; [left; split; [reflexivity | discriminate]|].
  destruct (current_uses row >=? max_uses row) eqn:Eu;
    [left; split; [reflexivity | discriminate]|].
  destruct (expired row now) eqn:Ee; [left; split; [reflexivity | discriminate]|].
  right. exists row. apply Z.eqb_neq in Ea.
  assert (current_uses row < max_uses row).
  { destruct (Z.geb_spec (current_uses row) (max_uses row)); [discriminate | lia]. }
  repeat (split; [reflexivity || assumption|]). reflexivity.
Qed.

Lemma accepted_answer eng now user_id code st s :
  fst (redeem_effect eng now user_id code st) = PyStr s ->
  accepted eng (RedeemCode now user_id code) st = true.
Proof. cbn [accepted]. intros ->. reflexivity. Qed.

(** An answer other than an amount involves no sum. *)
Lemma redeem_code_db_answer eng now user_id code st s :
  fst (redeem_effect eng now user_id code st) = PyStr s ->
  run (redeem_code_db eng now user_id code) None st = (Return (PyStr s), st).
Proof.
  intros Hs. rewrite redeem_code_db_run by (eapply accepted_answer, Hs). rewrite Hs.
  destruct (redeem_effect_cases eng now user_id code st)
    as [[Hsame _] | (row & _ & _ & _ & _ & _ & Heff)].
  - rewrite Hsame. reflexivity.
  - rewrite Heff in Hs. discriminate.
Qed.

Lemma redeem_code_db_answer_iff eng now user_id code st s :
  fst (run (redeem_code_db eng now user_id code) None st) = Return (PyStr s) <->
  fst (redeem_effect eng now user_id code st) = PyStr s.
Proof.
  split.
  - destruct (accepted eng (RedeemCode now user_id code) st) eqn:Hok.
    + rewrite redeem_code_db_run by exact Hok. cbn. congruence.
    + rewrite redeem_code_db_refused by exact Hok. discriminate.
  - intros Hs. rewrite (redeem_code_db_answer _ _ _ _ _ _ Hs). reflexivity.
Qed.

(** A claim that returns an amount has passed every check, the engine
    has accepted its sums, and the tables hold its writes. *)
Lemma redeem_code_db_amount eng now user_id code st amt st' :
  run (redeem_code_db eng now user_id code) None st = (Return (PyInt amt), st') ->
  exists row,
    SQL.select_log user_id code st = false /\
    redeem_codes st !! code = Some row /\
    is_active row <> 0 /\
    current_uses row < max_uses row /\
    expired row now = false /\
    grant_accepted eng (amount row) user_id st = true /\
    amt = amount row /\
    st' = grant eng now user_id code (amount row) st.
Proof.
  destruct (accepted eng (RedeemCode now user_id code) st) eqn:Hok.
  - rewrite redeem_code_db_run by exact Hok. intros Hrun.
    destruct (redeem_effect_cases eng now user_id code st)
      as [[_ Hno] | (row & Hlog & Hrow & Hact & Hlt & Hexp & Heff)].
    + exfalso. apply (Hno amt). congruence.
    + cbn [accepted] in Hok. rewrite Heff in Hrun, Hok. cbn [fst snd] in Hrun, Hok.
      injection Hrun as <- <-. exists row. repeat (split; [assumption|]).
      split; reflexivity.
  - rewrite redeem_code_db_refused by exact Hok. discriminate.
Qed.

(** A claim that passes every check and whose sums the engine accepts. *)
Lemma redeem_code_db_granted eng now user_id code st row :
  SQL.select_log user_id code st = false ->
  redeem_codes st !! code = Some row ->
  is_active row <> 0 ->
  current_uses row < max_uses row ->
  expired row now = false ->
  grant_accepted eng (amount row) user_id st = true ->
  run (redeem_code_db eng now user_id code) None st
  = (Return (PyInt (amount row)), grant eng now user_id code (amount row) st).
Proof.
  intros Hlog Hrow Hact Hlt Hexp Hok.
  assert (Heff : redeem_effect eng now user_id code st
                 = (PyInt (amount row), grant eng now user_id code (amount row) st)).
  { unfold redeem_effect, SQL.select_code. rewrite Hlog, Hrow.
    destruct (is_active row =? 0) eqn:Ea; [apply Z.eqb_eq in Ea; contradiction|].
    destruct (Z.geb_spec (current_uses row) (max_uses row)); [lia|].
    rewrite Hexp. reflexivity. }
  rewrite redeem_code_db_run; [rewrite Heff; reflexivity|].
  cbn [accepted]. rewrite Heff. exact Hok.
Qed.

Lemma grant_fits_accepted eng user_id row st :
  grant_fits eng (users st !! user_id) row = true ->
  grant_accepted eng (amount row) user_id st = true.
Proof.
  intros Hfits. destruct eng; [reflexivity|].
  unfold grant_fits in Hfits. apply andb_true_iff in Hfits. destruct Hfits as [_ Hfits].
  unfold grant_accepted, SQL.credits_in_range, SQL.earned_in_range.
  destruct (users st !! user_id); [exact Hfits | reflexivity].
Qed.

(** ** Account ledger *)

Lemma credit_one_codes amt user_id st :
  redeem_codes (credit_one amt user_id st) = redeem_codes st.
Proof. unfold credit_one. destruct (amt >? 0); reflexivity. Qed.

Lemma credit_one_logs amt user_id st :
  redeem_logs (credit_one amt user_id st) = redeem_logs st.
Proof. unfold credit_one. destruct (amt >? 0); reflexivity. Qed.

Lemma credit_one_other amt user_id other st :
  other <> user_id -> users (credit_one amt user_id st) !! other = users st !! other.
Proof.
  intros Hne. unfold credit_one.
  destruct (amt >? 0); cbn; apply lookup_alter_ne; congruence.
Qed.

Lemma credit_one_missing amt user_id st :
  users st !! user_id = None -> credit_one amt user_id st = st.
Proof.
  intros Hnone.
  unfold credit_one, SQL.update_credits_earned, SQL.update_credits_only, with_users.
  destruct st as [us cs ls]; cbn in *.
  destruct (amt >? 0); rewrite alter_id' by assumption; reflexivity.
Qed.

Lemma credit_one_row amt user_id st row :
  users st !! user_id = Some row ->
  users (credit_one amt user_id st) !! user_id =
  Some (mk_user (username row) (credits row + amt) (joined_date row) (referrer_id row)
                (is_banned row)
                (if amt >? 0 then total_earned row + amt else total_earned row)
                (last_active row)).
Proof.
  intros Hrow. unfold credit_one.
  destruct (amt >? 0); cbn; rewrite lookup_alter_eq, Hrow; reflexivity.
Qed.

Lemma credit_accepted_row eng amt user_id st row :
  users st !! user_id = Some row ->
  fits eng (credits row + amt) = true ->
  (0 < amt -> fits eng (total_earned row + amt) = true) ->
  credit_accepted eng amt user_id st = true.
Proof.
  intros Hrow Hc He. destruct eng; [reflexivity|].
  unfold credit_accepted, SQL.credits_in_range, SQL.earned_in_range. rewrite Hrow.
  destruct (Z.gtb_spec amt 0); [|exact Hc].
  cbn [fits] in Hc, He. rewrite Hc, He by lia. reflexivity.
Qed.

Lemma credit_accepted_missing eng amt user_id st :
  users st !! user_id = None -> credit_accepted eng amt user_id st = true.
Proof.
  intros Hnone. destruct eng; [reflexivity|].
  unfold credit_accepted, SQL.credits_in_range, SQL.earned_in_range. rewrite Hnone.
  destruct (amt >? 0); reflexivity.
Qed.

Lemma credit_fits_accepted eng amt user_id st row :
  users st !! user_id = Some row ->
  credit_fits eng amt row = true ->
  credit_accepted eng amt user_id st = true.
Proof.
  intros Hrow Hfits. unfold credit_fits in Hfits.
  apply andb_true_iff in Hfits. destruct Hfits as [Hfits He].
  apply andb_true_iff in Hfits. destruct Hfits as [_ Hc].
  apply (credit_accepted_row _ _ _ _ row Hrow Hc).
  intros Hpos. destruct (Z.gtb_spec amt 0); [exact He | lia].
Qed.

(** C5, as the code has it: on an existing account, when the delta and
    the sums it produces fit the engine's INTEGER column (32 bits under
    PostgreSQL, 64 under SQLite), [update_credits] with a positive delta
    adds it to both the balance and the lifetime-earned counter; with a
    delta that is zero or negative it adds it to the balance only (no
    floor), and the counter stays.  Nothing else of the row, no other
    account, no code and no claim row changes.  Both engines. *)
Theorem update_credits_spec eng user_id delta st row :
  users st !! user_id = Some row ->
  fits eng delta = true ->
  fits eng (credits row + delta) = true ->
  (0 < delta -> fits eng (total_earned row + delta) = true) ->
  exists st' row',
    run (update_credits eng user_id delta) None st = (Return tt, st') /\
    users st' !! user_id = Some row' /\
    credits row' = credits row + delta /\
    (0 < delta -> total_earned row' = total_earned row + delta) /\
    (delta <= 0 -> total_earned row' = total_earned row) /\
    username row' = username row /\
    joined_date row' = joined_date row /\
    referrer_id row' = referrer_id row /\
    is_banned row' = is_banned row /\
    last_active row' = last_active row /\
    (forall other, other <> user_id -> users st' !! other = users st !! other) /\
    redeem_codes st' = redeem_codes st /\
    redeem_logs st' = redeem_logs st.
Proof.
  intros Hrow _ Hc He.
  rewrite update_credits_run by (apply (credit_accepted_row _ _ _ _ row); assumption).
  eexists. eexists.
  split; [reflexivity|].
  split; [apply credit_one_row, Hrow|]. cbn.
  split; [reflexivity|].
  split. { intros Hpos. destruct (delta >? 0) eqn:E; [reflexivity | lia]. }
  split. { intros Hneg. destruct (delta >? 0) eqn:E; [lia | reflexivity]. }
  repeat (split; [reflexivity|]).
  split; [intros other Hne; apply credit_one_other, Hne|].
  split; [apply credit_one_codes | apply credit_one_logs].
Qed.

Lemma update_credits_spec_witness :
  users demo_users !! 7 = Some demo_user /\
  fits Postgres 4 = true /\
  fits Postgres (credits demo_user + 4) = true /\
  (0 < 4 -> fits Postgres (total_earned demo_user + 4) = true) /\
  exists st' row',
    run (update_credits Postgres 7 4) None demo_users = (Return tt, st') /\
    users st' !! 7 = Some row' /\
    credits row' = credits demo_user + 4 /\
    (0 < 4 -> total_earned row' = total_earned demo_user + 4) /\
    (4 <= 0 -> total_earned row' = total_earned demo_user) /\
    username row' = username demo_user /\
    joined_date row' = joined_date demo_user /\
    referrer_id row' = referrer_id demo_user /\
    is_banned row' = is_banned demo_user /\
    last_active row' = last_active demo_user /\
    (forall other, other <> 7 -> users st' !! other = users demo_users !! other) /\
    redeem_codes st' = redeem_codes demo_users /\
    redeem_logs st' = redeem_logs demo_users.
Proof.
  split; [reflexivity|]. split; [reflexivity|]. split; [reflexivity|].
  split; [intros _; reflexivity|].
  apply (update_credits_spec Postgres 7 4 demo_users demo_user);
    [reflexivity | reflexivity | reflexivity | intros _; reflexivity].
Defined.

(** C5, as stated, fails: the balance is a 32-bit column under
    PostgreSQL.  Account 7 holds 5 credits; crediting it 2147483647 makes
    the UPDATE fail with [integer out of range], and [update_credits]
    raises and leaves the row as it was. *)
Lemma update_credits_out_of_range :
  ~ (forall eng user_id delta st row,
       users st !! user_id = Some row ->
       exists st' row',
         run (update_credits eng user_id delta) None st = (Return tt, st') /\
         users st' !! user_id = Some row' /\
         credits row' = credits row + delta).
Proof.
  intros H.
  destruct (H Postgres 7 2147483647 demo_users demo_user eq_refl) as (st' & row' & Hrun & _).
  vm_compute in Hrun. discriminate.
Qed.

Example update_credits_out_of_range_run :
  run (update_credits Postgres 7 2147483647) None demo_users
  = (Raise "integer out of range", demo_users).
Proof. vm_compute. reflexivity. Qed.

(** No floor: a debit larger than the balance leaves it negative. *)
Example update_credits_overdraw :
  credits <$> users (snd (run (update_credits Postgres 7 (-8)) None demo_users)) !! 7
  = Some (-3).
Proof. vm_compute. reflexivity. Qed.

Lemma credit_one_absent amt user_id other st :
  users st !! other = None -> users (credit_one amt user_id st) !! other = None.
Proof.
  intros Hnone. destruct (decide (other = user_id)) as [->|Hne].
  - rewrite credit_one_missing by exact Hnone. exact Hnone.
  - rewrite credit_one_other by exact Hne. exact Hnone.
Qed.

Lemma credit_all_absent amt user_ids other st :
  users st !! other = None -> users (credit_all amt user_ids st) !! other = None.
Proof.
  unfold credit_all. revert st.
  induction user_ids as [|u rest IH]; intros st Hnone; cbn; [exact Hnone|].
  apply IH, credit_one_absent, Hnone.
Qed.

Lemma grant_absent eng now user_id code amt other st :
  users st !! other = None -> users (grant eng now user_id code amt st) !! other = None.
Proof.
  intros Hnone.
  destruct eng; unfold grant, SQL.insert_log_ignore, SQL.select_log; cbn;
    destruct (existsb (SQL.log_matches user_id code) (redeem_logs st)); cbn;
    rewrite ?lookup_alter, Hnone; repeat case_decide; subst; rewrite ?Hnone; reflexivity.
Qed.

(** A row that appears in [users] is the one [add_user] writes. *)
Lemma step_new_account eng o st user_id row :
  users st !! user_id = None ->
  users (step eng o st) !! user_id = Some row ->
  credits row = 5 /\ total_earned row = 0 /\ is_banned row = 0.
Proof.
  intros Hnone.
  destruct (step_cases eng o st) as [-> | ->]; [rewrite Hnone; discriminate|].
  destruct o; cbn [step_effect].
  - destruct (users st !! user_id0) eqn:Hu; [congruence|].
    cbn. rewrite lookup_insert. case_decide; [|congruence].
    intros Hrow. injection Hrow as <-. repeat split.
  - rewrite credit_one_absent by exact Hnone. discriminate.
  - cbn. rewrite lookup_alter, Hnone. case_decide; subst; rewrite ?Hnone; discriminate.
  - destruct eng; cbn; [congruence|].
    unfold SQL.upsert_code. destruct (redeem_codes st !! code); cbn; congruence.
  - destruct (redeem_effect_cases eng now user_id0 code st)
      as [[Hsame _] | (r & _ & _ & _ & _ & _ & Heff)].
    + rewrite Hsame. congruence.
    + rewrite Heff. cbn [snd]. rewrite grant_absent by exact Hnone. discriminate.
  - cbn. congruence.
  - cbn. congruence.
  - cbn. rewrite lookup_fmap, lookup_delete. case_decide; [discriminate|].
    rewrite Hnone. discriminate.
  - cbn. rewrite lookup_alter, Hnone. case_decide; subst; rewrite ?Hnone; discriminate.
  - cbn. rewrite lookup_alter, Hnone. case_decide; subst; rewrite ?Hnone; discriminate.
  - cbn. rewrite lookup_alter, Hnone. case_decide; subst; rewrite ?Hnone; discriminate.
  - rewrite credit_all_absent by exact Hnone. discriminate.
Qed.

(** C9: for an id that has no row, [add_user] inserts one holding 5
    credits, 0 lifetime-earned credits and a cleared ban flag; and
    whichever request makes a row appear for an id that had none, the row
    holds exactly these values.  Both engines. *)
Theorem add_user_initial_row eng :
  (forall now user_id name referrer st,
     users st !! user_id = None ->
     exists st' row,
       run (add_user eng now user_id name referrer) None st = (Return tt, st') /\
       users st' !! user_id = Some row /\
       credits row = 5 /\ total_earned row = 0 /\ is_banned row = 0) /\
  (forall o st user_id row,
     users st !! user_id = None ->
     users (step eng o st) !! user_id = Some row ->
     credits row = 5 /\ total_earned row = 0 /\ is_banned row = 0).
Proof.
  split.
  - intros now user_id name referrer st Hnone. rewrite add_user_run by exact Hnone.
    eexists. eexists. split; [reflexivity|].
    split; [cbn; apply lookup_insert_eq|]. repeat split.
  - intros o st user_id row. apply step_new_account.
Qed.

Lemma add_user_initial_row_witness :
  users empty_db !! 7 = None /\
  exists st' row,
    run (add_user Postgres 1000 7 (Some "alice") (Some 9)) None empty_db = (Return tt, st') /\
    users st' !! 7 = Some row /\
    credits row = 5 /\ total_earned row = 0 /\ is_banned row = 0.
Proof.
  split; [reflexivity|].
  apply (proj1 (add_user_initial_row Postgres) 1000 7 (Some "alice") (Some 9) empty_db).
  reflexivity.
Defined.



Lemma clear_referrer_fields user_id row :
  referrer_id (SQL.clear_referrer user_id row) =
    (if decide (referrer_id row = Some user_id) then None else referrer_id row) /\
  username (SQL.clear_referrer user_id row) = username row /\
  credits (SQL.clear_referrer user_id row) = credits row /\
  joined_date (SQL.clear_referrer user_id row) = joined_date row /\
  is_banned (SQL.clear_referrer user_id row) = is_banned row /\
  total_earned (SQL.clear_referrer user_id row) = total_earned row /\
  last_active (SQL.clear_referrer user_id row) = last_active row.
Proof.
  unfold SQL.clear_referrer.
  destruct (referrer_id row) as [p|] eqn:Hp.
  - destruct (p =? user_id) eqn:E; cbn; rewrite ?Hp.
    + apply Z.eqb_eq in E. subst p. rewrite decide_True by reflexivity. repeat split.
    + apply Z.eqb_neq in E. rewrite decide_False by congruence. repeat split.
  - rewrite Hp. rewrite decide_False by discriminate. repeat split.
Qed.

(** C8: [delete_user] removes the account's row and every claim row of
    the account and keeps the claim rows of the others; every other
    account stays, with [referrer_id] set to NULL when it was the deleted
    id and with all its other columns (balance and lifetime-earned
    counter among them) as they were; the codes are untouched.  Both
    engines. *)
Theorem delete_user_spec eng user_id st :
  exists st',
    run (delete_user eng user_id) None st = (Return tt, st') /\
    users st' !! user_id = None /\
    (forall l, In l (redeem_logs st') <-> In l (redeem_logs st) /\ log_user_id l <> user_id) /\
    (forall other, other <> user_id ->
       match users st !! other with
       | None => users st' !! other = None
       | Some row =>
           exists row',
             users st' !! other = Some row' /\
             referrer_id row' =
               (if decide (referrer_id row = Some user_id) then None else referrer_id row) /\
             username row' = username row /\
             credits row' = credits row /\
             joined_date row' = joined_date row /\
             is_banned row' = is_banned row /\
             total_earned row' = total_earned row /\
             last_active row' = last_active row
       end) /\
    redeem_codes st' = redeem_codes st.
Proof.
  rewrite delete_user_run. eexists. split; [reflexivity|].
  split. { cbn. rewrite lookup_fmap, lookup_delete_eq. reflexivity. }
  split.
  { intros l. cbn. rewrite filter_In. rewrite negb_true_iff, Z.eqb_neq. reflexivity. }
  split; [|reflexivity].
  intros other Hne. cbn.
  rewrite lookup_fmap, lookup_delete_ne by congruence.
  destruct (users st !! other) as [row|]; cbn; [|reflexivity].
  eexists. split; [reflexivity|]. apply clear_referrer_fields.
Qed.

(** ** Redeem codes: expiry *)

Lemma expired_iff row now :
  expired row now = true <->
  exists m, expiry_minutes row = Some m /\ 0 < m /\ created_date row + m * minute < now.
Proof.
  unfold expired. destruct (expiry_minutes row) as [m|].
  - destruct (m >? 0) eqn:Em.
    + rewrite Z.gtb_gt. split.
      * intros H. exists m. repeat split; lia.
      * intros (m' & Heq & _ & Hlt). injection Heq as <-. lia.
    + split; [discriminate|]. intros (m' & Heq & Hpos & _). injection Heq as <-. lia.
  - split; [discriminate|]. intros (m' & Heq & _). discriminate.
Qed.

Lemma redeem_expired_iff eng now user_id code st :
  fst (redeem_effect eng now user_id code st) = PyStr "expired" <->
  SQL.select_log user_id code st = false /\
  exists row,
    redeem_codes st !! code = Some row /\
    is_active row <> 0 /\
    current_uses row < max_uses row /\
    expired row now = true.
Proof.
  unfold redeem_effect, SQL.select_code.
  destruct (SQL.select_log user_id code st).
  { cbn. split; [discriminate | intros [? _]; discriminate]. }
  destruct (redeem_codes st !! code) as [row|].
  2:{ cbn. split; [discriminate | intros (_ & row & ? & _); discriminate]. }
  destruct (is_active row =? 0) eqn:Ea.
  { apply Z.eqb_eq in Ea. cbn. split; [discriminate|].
    intros (_ & row' & Heq & Hact & _). injection Heq as <-. contradiction. }
  apply Z.eqb_neq in Ea.
  destruct (current_uses row >=? max_uses row) eqn:Eu.
  { apply Z.geb_le in Eu. cbn. split; [discriminate|].
    intros (_ & row' & Heq & _ & Hlt & _). injection Heq as <-. lia. }
  assert (Hlt : current_uses row < max_uses row).
  { destruct (Z.geb_spec (current_uses row) (max_uses row)); [discriminate | lia]. }
  destruct (expired row now) eqn:Ee; cbn.
  - split; [|reflexivity]. intros _. split; [reflexivity|].
    exists row. repeat split; assumption.
  - split; [discriminate|].
    intros (_ & row' & Heq & _ & _ & Hexp). injection Heq as <-. congruence.
Qed.

(** C7: the expiry test of a claim holds exactly when the code has an
    expiry duration, the duration is positive, and the clock is past
    creation time plus the duration; a claim is answered ["expired"]
    exactly when it gets as far as that test (no claim row yet, code
    present, active and below its cap) and the test holds; and a code
    whose duration is absent, zero or negative is never answered
    ["expired"], whatever the clock reads.  Both engines. *)
Theorem expiry_rule :
  (forall row now,
     expired row now = true <->
     exists m, expiry_minutes row = Some m /\ 0 < m /\
               created_date row + m * minute < now) /\
  (forall eng now user_id code st,
     fst (run (redeem_code_db eng now user_id code) None st) = Return (PyStr "expired") <->
     SQL.select_log user_id code st = false /\
     exists row,
       redeem_codes st !! code = Some row /\
       is_active row <> 0 /\
       current_uses row < max_uses row /\
       exists m, expiry_minutes row = Some m /\ 0 < m /\
                 created_date row + m * minute < now) /\
  (forall eng now user_id code st row,
     redeem_codes st !! code = Some row ->
     expiry_minutes row = None \/ (exists m, expiry_minutes row = Some m /\ m <= 0) ->
     fst (run (redeem_code_db eng now user_id code) None st) <> Return (PyStr "expired")).
Proof.
  split; [exact expired_iff|]. split.
  - intros eng now user_id code st.
    split.
    + intros H. apply redeem_code_db_answer_iff, redeem_expired_iff in H.
      destruct H as (Hlog & row & Hrow & Ha & Hu & He).
      split; [exact Hlog|]. exists row. repeat (split; [assumption|]).
      apply expired_iff, He.
    + intros (Hlog & row & Hrow & Ha & Hu & He).
      apply redeem_code_db_answer_iff, redeem_expired_iff. split; [exact Hlog|].
      exists row. repeat (split; [assumption|]). apply expired_iff, He.
  - intros eng now user_id code st row Hrow Hdur.
    intros H. apply redeem_code_db_answer_iff, redeem_expired_iff in H.
    destruct H as (_ & row' & Hrow' & _ & _ & He).
    rewrite Hrow in Hrow'. injection Hrow' as <-.
    apply expired_iff in He. destruct He as (m & Hm & Hpos & _).
    destruct Hdur as [Hnone | (m' & Hm' & Hle)]; [congruence|].
    rewrite Hm in Hm'. injection Hm' as <-. lia.
Qed.

(** ** Redeem codes: definition and redefinition *)

Lemma create_redeem_code_logs eng now code amt uses expiry st :
  redeem_logs (snd (run (create_redeem_code eng now code amt uses expiry) None st))
  = redeem_logs st.
Proof.
  destruct eng; cbn; [reflexivity|].
  unfold SQL.upsert_code. destruct (redeem_codes st !! code); reflexivity.
Qed.

Lemma create_redeem_code_users eng now code amt uses expiry st :
  users (snd (run (create_redeem_code eng now code amt uses expiry) None st)) = users st.
Proof.
  destruct eng; cbn; [reflexivity|].
  unfold SQL.upsert_code. destruct (redeem_codes st !! code); reflexivity.
Qed.

(** Redefinition under PostgreSQL: the five listed columns are replaced
    and [current_uses] is kept. *)
Lemma create_redeem_code_pg_existing now code amt uses expiry st row :
  redeem_codes st !! code = Some row ->
  redeem_codes (snd (run (create_redeem_code Postgres now code amt uses expiry) None st))
    !! code = Some (mk_code amt uses (current_uses row) expiry now 1).
Proof.
  intros Hrow. cbn. unfold SQL.upsert_code. rewrite Hrow. cbn.
  apply lookup_insert_eq.
Qed.

(** Redefinition under SQLite: the row is replaced whole, and
    [current_uses] restarts at its default. *)
Lemma create_redeem_code_sqlite_existing now code amt uses expiry st :
  redeem_codes (snd (run (create_redeem_code SQLite now code amt uses expiry) None st))
    !! code = Some (mk_code amt uses 0 expiry now 1).
Proof. cbn. apply lookup_insert_eq. Qed.

(** C1: the failing input.  ["WELCOME50"] has been claimed once; it is
    then redefined.  Amount, cap, expiry, creation time and active flag
    are replaced and the claim rows stay under both engines, and
    PostgreSQL keeps [current_uses] at 1, but SQLite's
    [INSERT OR REPLACE] puts it back to 0. *)
Theorem create_redeem_code_sqlite_resets_uses :
  redeem_codes demo_claimed !! "WELCOME50" = Some (mk_code 50 2 1 None 2000 1) /\
  redeem_codes
    (snd (run (create_redeem_code Postgres 4000 "WELCOME50" 80 5 (Some 30)) None demo_claimed))
    !! "WELCOME50" = Some (mk_code 80 5 1 (Some 30) 4000 1) /\
  redeem_codes
    (snd (run (create_redeem_code SQLite 4000 "WELCOME50" 80 5 (Some 30)) None demo_claimed))
    !! "WELCOME50" = Some (mk_code 80 5 0 (Some 30) 4000 1) /\
  redeem_logs
    (snd (run (create_redeem_code SQLite 4000 "WELCOME50" 80 5 (Some 30)) None demo_claimed))
    = redeem_logs demo_claimed.
Proof.
  split; [reflexivity|].
  split; [apply (create_redeem_code_pg_existing _ _ _ _ _ _ (mk_code 50 2 1 None 2000 1));
          reflexivity|].
  split; [apply create_redeem_code_sqlite_existing|].
  apply create_redeem_code_logs.
Qed.

(** ** The two engines compared *)

Lemma alter_twice {K} `{Countable K} {A} (f g : A -> A) (k : K) (m : gmap K A) :
  alter f k (alter g k m) = alter (fun x => f (g x)) k m.
Proof.
  apply map_eq. intros j. destruct (decide (k = j)) as [->|Hne].
  - rewrite !lookup_alter_eq. destruct (m !! j); reflexivity.
  - rewrite !lookup_alter_ne by exact Hne. reflexivity.
Qed.

Lemma grant_engines now user_id code amt st :
  grant SQLite now user_id code amt st = grant Postgres now user_id code amt st.
Proof.
  unfold grant. f_equal.
  unfold SQL.update_earned_only, SQL.update_credits_only, SQL.update_credits_earned,
    with_users. cbn. f_equal. apply alter_twice.
Qed.

Lemma redeem_effect_engines now user_id code st :
  redeem_effect SQLite now user_id code st = redeem_effect Postgres now user_id code st.
Proof.
  unfold redeem_effect.
  destruct (SQL.select_log user_id code st); [reflexivity|].
  destruct (SQL.select_code code st) as [row|]; [|reflexivity].
  destruct (is_active row =? 0); [reflexivity|].
  destruct (current_uses row >=? max_uses row); [reflexivity|].
  destruct (expired row now); [reflexivity|].
  rewrite grant_engines. reflexivity.
Qed.

Lemma accepted_sqlite o st : accepted SQLite o st = true.
Proof.
  destruct o; cbn [accepted]; try reflexivity.
  - destruct (fst (redeem_effect SQLite now user_id code st)); reflexivity.
  - apply credit_all_accepted_sqlite.
Qed.

(** Fault-free claims whose sums fit PostgreSQL's columns agree: same
    answer, same tables. *)
Lemma redeem_code_db_engines now user_id code st :
  accepted Postgres (RedeemCode now user_id code) st = true ->
  run (redeem_code_db SQLite now user_id code) None st =
  run (redeem_code_db Postgres now user_id code) None st.
Proof.
  intros Hok.
  rewrite (redeem_code_db_run SQLite) by apply accepted_sqlite.
  rewrite (redeem_code_db_run Postgres) by exact Hok.
  rewrite redeem_effect_engines. reflexivity.
Qed.

(** Fault-free requests other than a code definition leave the same
    tables under both engines when their sums fit PostgreSQL's columns,
    and so does the definition of a code that does not exist yet. *)
Lemma step_engines o st :
  match o with
  | CreateRedeemCode _ code _ _ _ => redeem_codes st !! code = None
  | _ => True
  end ->
  accepted Postgres o st = true ->
  step SQLite o st = step Postgres o st.
Proof.
  intros Hfresh Hok.
  rewrite (step_effect_eq SQLite) by apply accepted_sqlite.
  rewrite (step_effect_eq Postgres) by exact Hok.
  destruct o; cbn [step_effect]; try reflexivity.
  - unfold SQL.upsert_code. rewrite Hfresh. reflexivity.
  - rewrite redeem_effect_engines. reflexivity.
Qed.

(** C2: the failing inputs.  Redefining the once-claimed ["WELCOME50"]
    leaves different tables under the two engines ([current_uses] 0
    under SQLite, 1 under PostgreSQL); and a claim whose first write
    fails returns the string ["error: ..."] under SQLite but raises
    under PostgreSQL. *)
Theorem engines_disagree :
  run (create_redeem_code SQLite 4000 "WELCOME50" 80 5 (Some 30)) None demo_claimed
  <> run (create_redeem_code Postgres 4000 "WELCOME50" 80 5 (Some 30)) None demo_claimed /\
  run (redeem_code_db SQLite 3000 7 "WELCOME50") (Some (3%nat, "disk I/O error")) demo_codes
  = (Return (PyStr "error: disk I/O error"), demo_codes) /\
  run (redeem_code_db Postgres 3000 7 "WELCOME50") (Some (3%nat, "disk I/O error")) demo_codes
  = (Raise "disk I/O error", demo_codes).
Proof.
  split.
  - intros Heq.
    apply (f_equal (fun p => current_uses <$> redeem_codes (snd p) !! "WELCOME50")) in Heq.
    vm_compute in Heq. discriminate.
  - split; vm_compute; reflexivity.
Qed.

(** ** Redeem codes: the usage cap *)

Lemma credit_all_codes amt user_ids st :
  redeem_codes (credit_all amt user_ids st) = redeem_codes st.
Proof.
  unfold credit_all. revert st.
  induction user_ids as [|u rest IH]; intros st; cbn; [reflexivity|].
  rewrite IH. apply credit_one_codes.
Qed.

Lemma credit_all_logs amt user_ids st :
  redeem_logs (credit_all amt user_ids st) = redeem_logs st.
Proof.
  unfold credit_all. revert st.
  induction user_ids as [|u rest IH]; intros st; cbn; [reflexivity|].
  rewrite IH. apply credit_one_logs.
Qed.

Lemma insert_log_ignore_codes user_id code now st :
  redeem_codes (SQL.insert_log_ignore user_id code now st) = redeem_codes st.
Proof. unfold SQL.insert_log_ignore. destruct (SQL.select_log user_id code st); reflexivity. Qed.

Lemma grant_codes eng now user_id code amt st :
  redeem_codes (grant eng now user_id code amt st) = redeem_codes (SQL.bump_uses code st).
Proof. destruct eng; unfold grant; rewrite insert_log_ignore_codes; reflexivity. Qed.

Lemma grant_logs eng now user_id code amt st :
  redeem_logs (grant eng now user_id code amt st) =
  redeem_logs (SQL.insert_log_ignore user_id code now st).
Proof.
  destruct eng; unfold grant, SQL.insert_log_ignore, SQL.select_log; cbn;
    destruct (existsb (SQL.log_matches user_id code) (redeem_logs st)); reflexivity.
Qed.

Lemma step_uses_bounded eng o st :
  uses_bounded st -> cap_respected o st -> uses_bounded (step eng o st).
Proof.
  intros Hinv Hcap. destruct (step_cases eng o st) as [-> | ->]; [exact Hinv|].
  destruct o; cbn [step_effect cap_respected] in *.
  - destruct (users st !! user_id); exact Hinv.
  - unfold uses_bounded. rewrite credit_one_codes. exact Hinv.
  - exact Hinv.
  - destruct Hcap as [Hpos Hold].
    intros c r Hl.
    assert (Hin : redeem_codes (match eng with
                   | SQLite => SQL.insert_or_replace_code code amt uses expiry now st
                   | Postgres => SQL.upsert_code code amt uses expiry now st
                   end) !! c = Some r) by exact Hl.
    clear Hl.
    destruct (decide (code = c)) as [->|Hne].
    + destruct eng; cbn in Hin.
      * rewrite lookup_insert_eq in Hin. injection Hin as <-. cbn. exact Hpos.
      * unfold SQL.upsert_code in Hin.
        destruct (redeem_codes st !! c) as [old|]; cbn in Hin;
          rewrite lookup_insert_eq in Hin; injection Hin as <-; cbn; assumption.
    + destruct eng; cbn in Hin.
      * rewrite lookup_insert_ne in Hin by exact Hne. exact (Hinv c r Hin).
      * unfold SQL.upsert_code in Hin.
        destruct (redeem_codes st !! code) as [old|]; cbn in Hin;
          rewrite lookup_insert_ne in Hin by exact Hne; exact (Hinv c r Hin).
  - destruct (redeem_effect_cases eng now user_id code st)
      as [[Hsame _] | (row & _ & Hrow & _ & Hlt & _ & Heff)].
    + rewrite Hsame. exact Hinv.
    + rewrite Heff. cbn [snd]. intros c r. rewrite grant_codes. cbn.
      rewrite lookup_alter. case_decide as Hc.
      * subst c. rewrite Hrow. cbn. intros Hr. injection Hr as <-. cbn. lia.
      * apply Hinv.
  - intros c r. cbn. rewrite lookup_delete. case_decide; [discriminate | apply Hinv].
  - intros c r. cbn. rewrite lookup_alter. case_decide as Hc; [|apply Hinv].
    subst c. destruct (redeem_codes st !! code) as [old|] eqn:Hold; cbn; [|discriminate].
    intros Hr. injection Hr as <-. cbn. exact (Hinv code old Hold).
  - exact Hinv.
  - exact Hinv.
  - exact Hinv.
  - exact Hinv.
  - unfold uses_bounded. rewrite credit_all_codes. exact Hinv.
Qed.

Lemma steps_uses_bounded eng os st :
  uses_bounded st -> caps_respected eng os st -> uses_bounded (steps eng os st).
Proof.
  revert st. induction os as [|o rest IH]; intros st Hinv Hcaps; cbn in *.
  - exact Hinv.
  - destruct Hcaps as [Hcap Hrest]. apply IH; [|exact Hrest].
    apply step_uses_bounded; assumption.
Qed.

Lemma uses_bounded_empty : uses_bounded empty_db.
Proof. intros c r H. cbn in H. rewrite lookup_empty in H. discriminate. Qed.

(** C3, as the code has it: starting from the empty tables, every
    sequence of requests served one after another, in which each code
    definition gives a non-negative cap that is not below the uses the
    code already has, leaves [current_uses <= max_uses] on every code.
    Served so, claims, deactivation, deletion and the account operations
    need no condition.  Both engines. *)
Theorem uses_bounded_reachable eng os :
  caps_respected eng os empty_db -> uses_bounded (steps eng os empty_db).
Proof. apply steps_uses_bounded, uses_bounded_empty. Qed.

(** C3, as stated, fails: under PostgreSQL a code with cap 2 is claimed
    by two accounts and then redefined with cap 1; the redefinition keeps
    [current_uses = 2] and stores [max_uses = 1]. *)
Lemma uses_bound_broken_by_redefinition :
  ~ (forall eng os, uses_bounded (steps eng os empty_db)).
Proof.
  intros H.
  specialize (H Postgres
    [CreateRedeemCode 2000 "WELCOME50" 50 2 None;
     RedeemCode 3000 7 "WELCOME50";
     RedeemCode 3500 8 "WELCOME50";
     CreateRedeemCode 4000 "WELCOME50" 50 1 None]
    "WELCOME50" (mk_code 50 1 2 None 4000 1)).
  cbn [max_uses current_uses] in H.
  assert (Hbad : 2 <= 1) by (apply H; vm_compute; reflexivity).
  lia.
Qed.

Lemma uses_bounded_reachable_witness :
  caps_respected Postgres
    [AddUser 1000 7 (Some "alice") None;
     CreateRedeemCode 2000 "WELCOME50" 50 2 None;
     RedeemCode 3000 7 "WELCOME50";
     CreateRedeemCode 4000 "WELCOME50" 80 5 (Some 30)] empty_db /\
  uses_bounded
    (steps Postgres
       [AddUser 1000 7 (Some "alice") None;
        CreateRedeemCode 2000 "WELCOME50" 50 2 None;
        RedeemCode 3000 7 "WELCOME50";
        CreateRedeemCode 4000 "WELCOME50" 80 5 (Some 30)] empty_db).
Proof.
  assert (Hcaps : caps_respected Postgres
    [AddUser 1000 7 (Some "alice") None;
     CreateRedeemCode 2000 "WELCOME50" 50 2 None;
     RedeemCode 3000 7 "WELCOME50";
     CreateRedeemCode 4000 "WELCOME50" 80 5 (Some 30)] empty_db).
  { vm_compute. repeat split; discriminate. }
  split; [exact Hcaps|].
  apply (uses_bounded_reachable Postgres _ Hcaps).
Defined.

(** Calls that overlap are outside the theorem.  A claim makes its reads
    (the claim-row test, the code row with its cap test) before it opens
    its transaction, and its UPDATE of [current_uses] carries no guard:
    when the reads of two claims both precede either transaction, each
    passes its checks on the same tables and both transactions are then
    applied.  With one use left, accounts 7 and 8 leave the code at
    [current_uses = 2] with [max_uses = 1]; and account 7 claiming twice
    at once is credited twice, its second INSERT being ignored, which
    leaves [current_uses = 2] with one claim row. *)
Example overlapping_claims eng :
  fst (redeem_effect eng 3000 7 "ONCE" one_use_left) = PyInt 10 /\
  fst (redeem_effect eng 3000 8 "ONCE" one_use_left) = PyInt 10 /\
  redeem_codes (grant eng 3001 8 "ONCE" 10 (grant eng 3000 7 "ONCE" 10 one_use_left)) !! "ONCE"
  = Some (mk_code 10 1 2 None 2000 1) /\
  redeem_codes (grant eng 3001 7 "ONCE" 10 (grant eng 3000 7 "ONCE" 10 one_use_left)) !! "ONCE"
  = Some (mk_code 10 1 2 None 2000 1) /\
  claim_rows 7 "ONCE" (grant eng 3001 7 "ONCE" 10 (grant eng 3000 7 "ONCE" 10 one_use_left))
  = 1%nat /\
  credits <$>
    users (grant eng 3001 7 "ONCE" 10 (grant eng 3000 7 "ONCE" 10 one_use_left)) !! 7
  = Some 25.
Proof. destruct eng; repeat split; vm_compute; reflexivity. Qed.

(** ** Redeem codes: one claim per account and code *)

Lemma log_matches_new user_id code u c now :
  SQL.log_matches user_id code (mk_log u c now) = true -> u = user_id /\ c = code.
Proof.
  unfold SQL.log_matches. cbn. rewrite andb_true_iff, Z.eqb_eq, String.eqb_eq. tauto.
Qed.

Lemma existsb_false_filter {A} (p : A -> bool) (l : list A) :
  existsb p l = false -> List.filter p l = [].
Proof.
  induction l as [|x l IH]; cbn; [reflexivity|].
  destruct (p x); cbn; [discriminate | exact IH].
Qed.

Lemma filter_filter_length {A} (p q : A -> bool) (l : list A) :
  (length (List.filter p (List.filter q l)) <= length (List.filter p l))%nat.
Proof.
  induction l as [|x l IH]; cbn; [lia|].
  destruct (q x), (p x) eqn:Ep; cbn; rewrite ?Ep; cbn; lia.
Qed.

Lemma claim_rows_insert user_id code u c now st :
  (claim_rows user_id code st <= 1)%nat ->
  (claim_rows user_id code (SQL.insert_log_ignore u c now st) <= 1)%nat.
Proof.
  intros Hle. unfold SQL.insert_log_ignore.
  destruct (SQL.select_log u c st) eqn:Esel; [exact Hle|].
  unfold claim_rows in *. cbn. rewrite List.filter_app, List.length_app. cbn.
  destruct (SQL.log_matches user_id code (mk_log u c now)) eqn:Em; cbn; [|lia].
  apply log_matches_new in Em. destruct Em as [-> ->].
  unfold SQL.select_log in Esel. rewrite (existsb_false_filter _ _ Esel). cbn. lia.
Qed.

Lemma step_claim_rows eng o st user_id code :
  (claim_rows user_id code st <= 1)%nat ->
  (claim_rows user_id code (step eng o st) <= 1)%nat.
Proof.
  intros Hle. destruct (step_cases eng o st) as [-> | ->]; [exact Hle|].
  destruct o; cbn [step_effect]; try exact Hle.
  - destruct (users st !! user_id0); exact Hle.
  - unfold claim_rows. rewrite credit_one_logs. exact Hle.
  - unfold claim_rows, SQL.upsert_code.
    destruct eng; [exact Hle|]. destruct (redeem_codes st !! code0); exact Hle.
  - destruct (redeem_effect_cases eng now user_id0 code0 st)
      as [[Hsame _] | (row & _ & _ & _ & _ & _ & Heff)].
    + rewrite Hsame. exact Hle.
    + rewrite Heff. cbn [snd]. unfold claim_rows. rewrite grant_logs.
      apply claim_rows_insert, Hle.
  - unfold claim_rows in *. cbn.
    etransitivity; [apply filter_filter_length | exact Hle].
  - unfold claim_rows. rewrite credit_all_logs. exact Hle.
Qed.

Lemma steps_claim_rows eng os st user_id code :
  (claim_rows user_id code st <= 1)%nat ->
  (claim_rows user_id code (steps eng os st) <= 1)%nat.
Proof.
  revert st. induction os as [|o rest IH]; intros st Hle; cbn; [exact Hle|].
  apply IH, step_claim_rows, Hle.
Qed.

Lemma select_log_insert user_id code now st :
  SQL.select_log user_id code (SQL.insert_log_ignore user_id code now st) = true.
Proof.
  unfold SQL.insert_log_ignore.
  destruct (SQL.select_log user_id code st) eqn:Esel; [exact Esel|].
  unfold SQL.select_log. cbn. rewrite existsb_app. cbn.
  unfold SQL.log_matches at 2. cbn. rewrite Z.eqb_refl, String.eqb_refl.
  cbn. apply orb_true_r.
Qed.

Lemma select_log_kept user_id code u c now st :
  SQL.select_log user_id code st = true ->
  SQL.select_log user_id code (SQL.insert_log_ignore u c now st) = true.
Proof.
  intros Hsel. unfold SQL.insert_log_ignore.
  destruct (SQL.select_log u c st); [exact Hsel|].
  unfold SQL.select_log in *. cbn. rewrite existsb_app, Hsel. reflexivity.
Qed.

Lemma select_log_after_delete user_id code other st :
  other <> user_id ->
  SQL.select_log user_id code st = true ->
  SQL.select_log user_id code
    (SQL.null_referrer other (SQL.delete_logs_of other (SQL.delete_user_row other st))) = true.
Proof.
  intros Hne. unfold SQL.select_log. cbn.
  rewrite !existsb_exists. intros (l & Hin & Hm).
  exists l. split; [|exact Hm]. apply filter_In. split; [exact Hin|].
  unfold SQL.log_matches in Hm. apply andb_true_iff in Hm. destruct Hm as [Hu _].
  apply Z.eqb_eq in Hu. apply negb_true_iff, Z.eqb_neq. congruence.
Qed.

Lemma step_select_log eng o st user_id code :
  keeps_account user_id o ->
  SQL.select_log user_id code st = true ->
  SQL.select_log user_id code (step eng o st) = true.
Proof.
  intros Hkeep Hsel. destruct (step_cases eng o st) as [-> | ->]; [exact Hsel|].
  destruct o; cbn [step_effect keeps_account] in *; try exact Hsel.
  - destruct (users st !! user_id0); exact Hsel.
  - unfold SQL.select_log. rewrite credit_one_logs. exact Hsel.
  - unfold SQL.select_log, SQL.upsert_code.
    destruct eng; [exact Hsel|]. destruct (redeem_codes st !! code0); exact Hsel.
  - destruct (redeem_effect_cases eng now user_id0 code0 st)
      as [[Hsame _] | (row & _ & _ & _ & _ & _ & Heff)].
    + rewrite Hsame. exact Hsel.
    + rewrite Heff. cbn [snd]. unfold SQL.select_log at 1. rewrite grant_logs.
      apply select_log_kept, Hsel.
  - apply select_log_after_delete; assumption.
  - unfold SQL.select_log. rewrite credit_all_logs. exact Hsel.
Qed.

Lemma steps_select_log eng os st user_id code :
  Forall (keeps_account user_id) os ->
  SQL.select_log user_id code st = true ->
  SQL.select_log user_id code (steps eng os st) = true.
Proof.
  revert st. induction os as [|o rest IH]; intros st Hall Hsel; cbn; [exact Hsel|].
  inversion Hall as [|? ? Hkeep Hrest]; subst.
  apply IH; [exact Hrest|]. apply step_select_log; assumption.
Qed.

Lemma redeem_granted_logged eng now user_id code st amt st' :
  run (redeem_code_db eng now user_id code) None st = (Return (PyInt amt), st') ->
  SQL.select_log user_id code st' = true.
Proof.
  intros Hrun.
  destruct (redeem_code_db_amount _ _ _ _ _ _ _ Hrun) as (row & _ & _ & _ & _ & _ & _ & _ & ->).
  unfold SQL.select_log at 1. rewrite grant_logs. apply select_log_insert.
Qed.

Lemma redeem_already_claimed eng now user_id code st :
  SQL.select_log user_id code st = true ->
  run (redeem_code_db eng now user_id code) None st
  = (Return (PyStr "already_claimed"), st).
Proof.
  intros Hsel. apply redeem_code_db_answer. unfold redeem_effect. rewrite Hsel. reflexivity.
Qed.

(** C4, as the code has it: in the tables reached from the empty ones by
    any sequence of requests served one after another there is at most
    one claim row for an account and a code; once a claim of account A
    for code C has returned an amount, the next claim of A for C returns
    ["already_claimed"] and leaves all tables (A's balance and
    lifetime-earned counter and C's [current_uses] among them) as they
    are; and so does every later one, whatever requests are served in
    between, for as long as none of them deletes account A.  Both
    engines. *)
Theorem claim_once eng :
  (forall os user_id code,
     (claim_rows user_id code (steps eng os empty_db) <= 1)%nat) /\
  (forall now user_id code st amt st',
     run (redeem_code_db eng now user_id code) None st = (Return (PyInt amt), st') ->
     (forall now',
        run (redeem_code_db eng now' user_id code) None st'
        = (Return (PyStr "already_claimed"), st')) /\
     (forall os now',
        Forall (keeps_account user_id) os ->
        run (redeem_code_db eng now' user_id code) None (steps eng os st')
        = (Return (PyStr "already_claimed"), steps eng os st'))).
Proof.
  split.
  - intros os user_id code. apply steps_claim_rows. cbn. lia.
  - intros now user_id code st amt st' Hrun.
    assert (Hlogged : SQL.select_log user_id code st' = true)
      by (eapply redeem_granted_logged, Hrun).
    split.
    + intros now'. apply redeem_already_claimed, Hlogged.
    + intros os now' Hall.
      apply redeem_already_claimed, steps_select_log; assumption.
Qed.

Lemma claim_once_witness :
  run (redeem_code_db SQLite 3000 7 "WELCOME50") None demo_codes
    = (Return (PyInt 50), demo_claimed) /\
  run (redeem_code_db SQLite 3001 7 "WELCOME50") None demo_claimed
    = (Return (PyStr "already_claimed"), demo_claimed) /\
  Forall (keeps_account 7)
    [UpdateCredits 7 (-20); DeleteUser 8; DeactivateCode "WELCOME50"] /\
  run (redeem_code_db SQLite 9000 7 "WELCOME50") None
      (steps SQLite [UpdateCredits 7 (-20); DeleteUser 8; DeactivateCode "WELCOME50"]
             demo_claimed)
  = (Return (PyStr "already_claimed"),
     steps SQLite [UpdateCredits 7 (-20); DeleteUser 8; DeactivateCode "WELCOME50"]
           demo_claimed).
Proof.
  assert (Hrun : run (redeem_code_db SQLite 3000 7 "WELCOME50") None demo_codes
                 = (Return (PyInt 50), demo_claimed)) by (vm_compute; reflexivity).
  assert (Hall : Forall (keeps_account 7)
            [UpdateCredits 7 (-20); DeleteUser 8; DeactivateCode "WELCOME50"]).
  { repeat constructor. cbn. lia. }
  destruct (proj2 (claim_once SQLite) 3000 7 "WELCOME50" demo_codes 50 demo_claimed Hrun)
    as [Hnext Hlater].
  split; [exact Hrun|]. split; [exact (Hnext 3001)|]. split; [exact Hall|].
  exact (Hlater _ 9000 Hall).
Defined.

(** C4, as stated, fails: [delete_user] deletes the claim rows of the
    account with it.  Account 7 claims ["WELCOME50"], is deleted and
    registers again; its next claim of the same code is not answered
    ["already_claimed"], it is granted a second time. *)
Lemma claim_again_after_delete_user :
  ~ (forall eng now user_id code st amt st',
       run (redeem_code_db eng now user_id code) None st = (Return (PyInt amt), st') ->
       forall os now',
         run (redeem_code_db eng now' user_id code) None (steps eng os st')
         = (Return (PyStr "already_claimed"), steps eng os st')).
Proof.
  intros H.
  assert (Hrun : run (redeem_code_db SQLite 3000 7 "WELCOME50") None demo_codes
                 = (Return (PyInt 50), demo_claimed)) by (vm_compute; reflexivity).
  specialize (H SQLite 3000 7 "WELCOME50" demo_codes 50 demo_claimed Hrun
                [DeleteUser 7; AddUser 5000 7 (Some "alice") None] 6000).
  vm_compute in H. discriminate.
Qed.

Example claim_again_after_delete_user_run eng :
  fst (run (redeem_code_db eng 6000 7 "WELCOME50") None
         (steps eng [DeleteUser 7; AddUser 5000 7 (Some "alice") None] demo_claimed))
  = Return (PyInt 50).
Proof. destruct eng; vm_compute; reflexivity. Qed.

(** ** Storage faults *)

Ltac unfold_engine :=
  unfold run, redeem_code_db, update_credits, with_connection, try_except, pg_transaction,
    mbind, M_bind, mret, M_ret, sqlite_select, sqlite_execute, sqlite_execute_checked,
    sqlite_execute_begin, sqlite_commit, sqlite_execute_rollback, pg_fetch, pg_execute,
    pg_execute_checked, call.


(** The range test of the grant under PostgreSQL, where a run gets to it. *)
Ltac split_range :=
  try match goal with
      | |- context [SQL.pg_update_credits_earned ?n ?u ?d] =>
          unfold SQL.pg_update_credits_earned, SQL.in_range;
          destruct (SQL.credits_in_range n u d && SQL.earned_in_range n u d); cbn
      end.

Lemma call_fault {A} (body : world -> outcome A * world) msg w :
  call body (Some (calls w, msg)) w = (Raise msg, tick w).
Proof. unfold call. rewrite Nat.eqb_refl. reflexivity. Qed.

Lemma call_pass {A} (body : world -> outcome A * world) k msg w :
  k <> calls w -> call body (Some (k, msg)) w = call body None w.
Proof.
  intros Hne. unfold call.
  destruct (Nat.eqb_spec k (calls w)); [contradiction | reflexivity].
Qed.

Lemma bind_run {A B} (m : M A) (k : A -> M B) f w :
  (m ≫= k) f w =
  match m f w with
  | (Return a, w') => k a f w'
  | (Raise e, w') => (Raise e, w')
  end.
Proof. reflexivity. Qed.




(** Under PostgreSQL the same failures, and a failing BEGIN, reach the
    caller as an exception: the one of the failed call, or, when the
    UPDATE of the balance has run before it and its sum does not fit,
    [integer out of range]. *)
Lemma redeem_pg_raises now user_id code st row k msg :
  SQL.select_log user_id code st = false ->
  redeem_codes st !! code = Some row ->
  is_active row <> 0 ->
  current_uses row < max_uses row ->
  expired row now = false ->
  (2 <= k <= 6)%nat ->
  exists detail,
    run (redeem_code_db Postgres now user_id code) (Some (k, msg)) st = (Raise detail, st).
Proof.
  intros Hlog Hrow Hact Hlt Hexp Hk.
  assert (Ea : (is_active row =? 0) = false) by (apply Z.eqb_neq; exact Hact).
  assert (Eu : (current_uses row >=? max_uses row) = false).
  { destruct (Z.geb_spec (current_uses row) (max_uses row)); [lia | reflexivity]. }
  destruct k as [|[|[|[|[|[|[|k]]]]]]]; try lia;
    unfold_engine; cbn; rewrite Hlog; cbn; unfold SQL.select_code; rewrite Hrow; cbn;
    rewrite Ea, Eu, Hexp; cbn; split_range; eexists; reflexivity.
Qed.


(** *** The loop of a bulk credit under a fault *)

Section Loop.

Variable body : Z -> M unit.

Hypothesis body_fault : forall u msg w, body u (Some (calls w, msg)) w = (Raise msg, tick w).

Hypothesis body_pass :
  forall u k msg w, k <> calls w -> body u (Some (k, msg)) w = body u None w.

Hypothesis body_run :
  forall u w, in_tx w = true ->
    calls (snd (body u None w)) = S (calls w) /\
    durable (snd (body u None w)) = durable w /\
    (fst (body u None w) = Return tt -> in_tx (snd (body u None w)) = true).

(** The fault-free loop keeps what is committed and counts its calls;
    a fault on one of its calls ends it with that exception, and a fault
    elsewhere does not touch it. *)
Lemma loop_fault user_ids k msg w :
  in_tx w = true ->
  durable (snd (for_each user_ids body None w)) = durable w /\
  (calls w <= calls (snd (for_each user_ids body None w)))%nat /\
  (fst (for_each user_ids body None w) = Return tt ->
   in_tx (snd (for_each user_ids body None w)) = true) /\
  ((calls w <= k < calls (snd (for_each user_ids body None w)))%nat ->
   exists w',
     for_each user_ids body (Some (k, msg)) w = (Raise msg, w') /\
     durable w' = durable w) /\
  ((k < calls w \/ calls (snd (for_each user_ids body None w)) <= k)%nat ->
   for_each user_ids body (Some (k, msg)) w = for_each user_ids body None w).
Proof.
  revert w. induction user_ids as [|u rest IH]; intros w Htx.
  - cbn. repeat split; try lia; auto.
  - cbn [for_each]. rewrite !bind_run.
    destruct (body_run u w Htx) as (Hc & Hd & Ht).
    destruct (body u None w) as [[[]|e] w1] eqn:Ebody; cbn [fst snd] in *.
    + specialize (Ht eq_refl).
      destruct (IH w1 Ht) as (IHd & IHc & IHt & IHraise & IHpass).
      split; [congruence|]. split; [lia|]. split; [exact IHt|]. split.
      * intros Hk. destruct (Nat.eq_dec k (calls w)) as [->|Hne].
        -- rewrite body_fault. exists (tick w). split; reflexivity.
        -- rewrite body_pass, Ebody by exact Hne.
           destruct IHraise as (w' & Hrun & Hdw); [lia|].
           exists w'. split; [exact Hrun | congruence].
      * intros Hk. rewrite body_pass, Ebody by lia. apply IHpass. lia.
    + split; [exact Hd|]. split; [lia|]. split; [discriminate|]. split.
      * intros Hk. assert (k = calls w) as -> by lia.
        rewrite body_fault. exists (tick w). split; reflexivity.
      * intros Hk. rewrite body_pass, Ebody by lia. reflexivity.
Qed.

End Loop.

Lemma sqlite_credit_fault amt u msg w :
  sqlite_credit amt u (Some (calls w, msg)) w = (Raise msg, tick w).
Proof. unfold sqlite_execute, sqlite_execute_checked. destruct (amt >? 0); apply call_fault. Qed.

Lemma sqlite_credit_pass amt u k msg w :
  k <> calls w -> sqlite_credit amt u (Some (k, msg)) w = sqlite_credit amt u None w.
Proof.
  intros Hne. unfold sqlite_execute, sqlite_execute_checked.
  destruct (amt >? 0); apply call_pass, Hne.
Qed.

Lemma sqlite_credit_run amt u w :
  in_tx w = true ->
  calls (snd (sqlite_credit amt u None w)) = S (calls w) /\
  durable (snd (sqlite_credit amt u None w)) = durable w /\
  (fst (sqlite_credit amt u None w) = Return tt ->
   in_tx (snd (sqlite_credit amt u None w)) = true).
Proof. intros _. destruct (amt >? 0); repeat split. Qed.

Lemma pg_credit_fault amt u msg w :
  pg_credit amt u (Some (calls w, msg)) w = (Raise msg, tick w).
Proof. unfold pg_execute_checked. destruct (amt >? 0); apply call_fault. Qed.

Lemma pg_credit_pass amt u k msg w :
  k <> calls w -> pg_credit amt u (Some (k, msg)) w = pg_credit amt u None w.
Proof.
  intros Hne. unfold pg_execute_checked. destruct (amt >? 0); apply call_pass, Hne.
Qed.

Lemma pg_credit_run amt u w :
  in_tx w = true ->
  calls (snd (pg_credit amt u None w)) = S (calls w) /\
  durable (snd (pg_credit amt u None w)) = durable w /\
  (fst (pg_credit amt u None w) = Return tt ->
   in_tx (snd (pg_credit amt u None w)) = true).
Proof.
  intros Htx. destruct (credit_accepted Postgres amt u (pending w)) eqn:Hok.
  - rewrite (pg_credit_accepted amt u w Htx Hok). repeat split.
  - rewrite (pg_credit_refused amt u w Hok). repeat split. discriminate.
Qed.

(** A failing call of a bulk credit reaches the caller as the exception,
    and nothing of the bulk is kept. *)
Lemma bulk_update_credits_raises eng user_ids amt k msg st :
  (k < calls_made (bulk_update_credits eng user_ids amt) st)%nat ->
  run (bulk_update_credits eng user_ids amt) (Some (k, msg)) st = (Raise msg, st).
Proof.
  unfold calls_made, run.
  destruct eng; unfold bulk_update_credits, with_connection.
  - rewrite !bind_run. unfold sqlite_execute_begin.
    destruct k as [|k]; [reflexivity|].
    cbn -[for_each sqlite_execute_commit].
    destruct (loop_fault (sqlite_credit amt) (sqlite_credit_fault amt) (sqlite_credit_pass amt)
                (sqlite_credit_run amt) user_ids (S k) msg (mk_world st st true 1) eq_refl)
      as (Hd & Hc & Ht & Hraise & Hpass).
    rewrite !bind_run.
    rewrite (for_each_sqlite_credit amt user_ids (mk_world st st true 1) eq_refl) in *.
    cbn [fst snd calls durable pending in_tx] in *.
    intros Hk.
    destruct (Nat.lt_ge_cases (S k) (1 + length user_ids)) as [Hin | Hout].
    + destruct Hraise as (w' & Hrun & Hdw); [lia|]. rewrite Hrun. cbn. rewrite Hdw. reflexivity.
    + rewrite Hpass by lia. unfold sqlite_execute_commit.
      cbn in Hk. assert (Hkk : k = length user_ids) by lia. subst k.
      unfold call. cbn. rewrite Nat.eqb_refl. reflexivity.
  - unfold pg_transaction.
    destruct k as [|k]; [reflexivity|].
    cbn -[for_each].
    destruct (loop_fault (pg_credit amt) (pg_credit_fault amt) (pg_credit_pass amt)
                (pg_credit_run amt) user_ids (S k) msg (mk_world st st true 1) eq_refl)
      as (Hd & Hc & Ht & Hraise & Hpass).
    destruct (for_each user_ids (pg_credit amt) None (mk_world st st true 1))
      as [[[]|e] w2] eqn:Eloop; cbn [fst snd calls durable pending in_tx] in *.
    + intros Hk.
      destruct (Nat.lt_ge_cases (S k) (calls w2)) as [Hin | Hout].
      * destruct Hraise as (w' & Hrun & Hdw); [lia|]. rewrite Hrun. cbn. rewrite Hdw.
        reflexivity.
      * rewrite Hpass by lia. cbn in Hk. assert (Hkk : calls w2 = S k) by lia.
        unfold call. cbn [calls]. rewrite Hkk, Nat.eqb_refl. cbn. rewrite Hd. reflexivity.
    + intros Hk. destruct Hraise as (w' & Hrun & Hdw); [cbn in Hk; lia|].
      rewrite Hrun. cbn. rewrite Hdw. reflexivity.
Qed.

Ltac unfold_calls :=
  unfold run, add_user, update_credits, set_ban_status, create_redeem_code, redeem_code_db,
    delete_redeem_code, deactivate_code, delete_user, reset_user_credits, update_username,
    update_last_active, get_user, with_connection, try_except, pg_transaction,
    mbind, M_bind, mret, M_ret, sqlite_select, sqlite_execute, sqlite_execute_checked,
    sqlite_execute_begin, sqlite_commit, sqlite_execute_rollback, pg_fetch, pg_execute,
    pg_execute_checked, call.







(** ** All or nothing *)

Ltac all_or_nothing := first [left; reflexivity | right; reflexivity].

Lemma redeem_all_or_nothing eng f now user_id code st :
  snd (run (redeem_code_db eng now user_id code) f st) = st \/
  snd (run (redeem_code_db eng now user_id code) f st)
  = snd (run (redeem_code_db eng now user_id code) None st).
Proof.
  destruct f as [[k msg]|]; [|right; reflexivity].
  destruct k as [|[|[|[|[|[|[|[|k]]]]]]]]; destruct eng; unfold_calls; cbn;
    try all_or_nothing;
    (destruct (SQL.select_log user_id code st) eqn:E1; cbn; [all_or_nothing|]);
    try all_or_nothing;
    (destruct (SQL.select_code code st) as [row|] eqn:E2; cbn; [|all_or_nothing]);
    (destruct (is_active row =? 0) eqn:E3; cbn; [all_or_nothing|]);
    (destruct (current_uses row >=? max_uses row) eqn:E4; cbn; [all_or_nothing|]);
    (destruct (expired row now) eqn:E5; cbn; [all_or_nothing|]);
    try all_or_nothing; split_range; all_or_nothing.
Qed.

Lemma delete_user_all_or_nothing eng f user_id st :
  snd (run (delete_user eng user_id) f st) = st \/
  snd (run (delete_user eng user_id) f st) = snd (run (delete_user eng user_id) None st).
Proof.
  destruct f as [[k msg]|]; [|right; reflexivity].
  destruct k as [|[|[|[|[|k]]]]]; destruct eng; unfold_calls; cbn; all_or_nothing.
Qed.

Lemma add_user_all_or_nothing eng f now user_id name referrer st :
  snd (run (add_user eng now user_id name referrer) f st) = st \/
  snd (run (add_user eng now user_id name referrer) f st)
  = snd (run (add_user eng now user_id name referrer) None st).
Proof.
  destruct f as [[k msg]|]; [|right; reflexivity].
  destruct k as [|[|[|k]]]; destruct eng; unfold_calls; cbn;
    unfold SQL.select_user_id, SQL.insert_user;
    destruct (users st !! user_id) as [row|] eqn:E; cbn; rewrite ?E; cbn;
    try all_or_nothing;
    destruct (user_id =? 0); cbn; rewrite ?E; cbn; all_or_nothing.
Qed.

(** A fault on a call that a bulk credit does not make changes nothing
    of its run. *)
Lemma bulk_update_credits_passes eng user_ids amt k msg st :
  (calls_made (bulk_update_credits eng user_ids amt) st <= k)%nat ->
  run (bulk_update_credits eng user_ids amt) (Some (k, msg)) st
  = run (bulk_update_credits eng user_ids amt) None st.
Proof.
  unfold calls_made, run.
  destruct eng; unfold bulk_update_credits, with_connection.
  - rewrite !bind_run. unfold sqlite_execute_begin.
    destruct k as [|k]; [cbn; intros Hk; exfalso; revert Hk;
      rewrite !bind_run, for_each_sqlite_credit by reflexivity; cbn; lia|].
    cbn -[for_each sqlite_execute_commit].
    destruct (loop_fault (sqlite_credit amt) (sqlite_credit_fault amt) (sqlite_credit_pass amt)
                (sqlite_credit_run amt) user_ids (S k) msg (mk_world st st true 1) eq_refl)
      as (Hd & Hc & Ht & Hraise & Hpass).
    rewrite !bind_run.
    rewrite (for_each_sqlite_credit amt user_ids (mk_world st st true 1) eq_refl) in *.
    cbn [fst snd calls durable pending in_tx] in *.
    intros Hk. cbn in Hk.
    rewrite Hpass by lia. unfold sqlite_execute_commit.
    rewrite call_pass by (cbn; lia). reflexivity.
  - unfold pg_transaction.
    destruct k as [|k].
    { cbn -[for_each]. intros Hk. exfalso. revert Hk.
      destruct (loop_fault (pg_credit amt) (pg_credit_fault amt) (pg_credit_pass amt)
                  (pg_credit_run amt) user_ids 0%nat msg (mk_world st st true 1) eq_refl)
        as (_ & Hc & _).
      destruct (for_each user_ids (pg_credit amt) None (mk_world st st true 1))
        as [[[]|e] w2]; cbn in *; lia. }
    cbn -[for_each].
    destruct (loop_fault (pg_credit amt) (pg_credit_fault amt) (pg_credit_pass amt)
                (pg_credit_run amt) user_ids (S k) msg (mk_world st st true 1) eq_refl)
      as (Hd & Hc & Ht & Hraise & Hpass).
    destruct (for_each user_ids (pg_credit amt) None (mk_world st st true 1))
      as [[[]|e] w2] eqn:Eloop; cbn [fst snd calls durable pending in_tx] in *.
    + intros Hk. cbn in Hk. rewrite Hpass by lia.
      destruct (calls w2) as [|c] eqn:Ec; [reflexivity|].
      destruct (Nat.eqb_spec k c); [lia | reflexivity].
    + intros Hk. cbn in Hk. rewrite Hpass by lia. reflexivity.
Qed.

Lemma bulk_all_or_nothing eng f user_ids amt st :
  snd (run (bulk_update_credits eng user_ids amt) f st) = st \/
  snd (run (bulk_update_credits eng user_ids amt) f st)
  = snd (run (bulk_update_credits eng user_ids amt) None st).
Proof.
  destruct f as [[k msg]|]; [|right; reflexivity].
  destruct (Nat.lt_ge_cases k (calls_made (bulk_update_credits eng user_ids amt) st))
    as [Hin | Hout].
  - left. rewrite bulk_update_credits_raises by exact Hin. reflexivity.
  - right. rewrite bulk_update_credits_passes by exact Hout. reflexivity.
Qed.


(** ** Claims: answers and effects *)

Ltac answer_case :=
  repeat split; try discriminate; intros;
  repeat match goal with
         | H : _ /\ _ |- _ => destruct H
         | H : exists _, _ |- _ => destruct H
         | H : Some _ = Some _ |- _ => injection H as <-
         | H : Return _ = Return _ |- _ => injection H as <-
         end;
  subst; try discriminate; try contradiction; try lia; try congruence;
  try (eexists; repeat split; (reflexivity || eassumption || lia)).

Ltac answer_checks eng now user_id code st :=
  rewrite redeem_code_db_answer_iff; unfold redeem_effect, SQL.select_code;
  destruct (SQL.select_log user_id code st) eqn:E1; cbn [fst]; [answer_case|];
  destruct (redeem_codes st !! code) as [row|] eqn:E2; cbn [fst]; [|answer_case];
  destruct (is_active row =? 0) eqn:E3; [apply Z.eqb_eq in E3 | apply Z.eqb_neq in E3];
    cbn [fst]; [answer_case|];
  destruct (Z.geb_spec (current_uses row) (max_uses row)) as [E4|E4]; cbn [fst];
    [answer_case|];
  destruct (expired row now) eqn:E5; cbn [fst]; answer_case.

(** X3: without a storage fault a claim is answered by the first check
    that fails, in this order: ["already_claimed"] exactly when the
    account has a claim row for the code (even if the code is gone,
    inactive, used up or expired); ["invalid"] exactly when it has none
    and the code does not exist; ["inactive"] exactly when the code
    exists with a zero active flag; ["limit_reached"] exactly when the
    code is active and [current_uses >= max_uses]; and, for a code whose
    moment of expiry is a [datetime] and whose grant fits the engine's
    columns, an amount exactly when all checks pass, the amount being the
    code's.  Both engines. *)
Theorem claim_answers eng now user_id code st :
  (fst (run (redeem_code_db eng now user_id code) None st)
     = Return (PyStr "already_claimed") <->
   SQL.select_log user_id code st = true) /\
  (fst (run (redeem_code_db eng now user_id code) None st) = Return (PyStr "invalid") <->
   SQL.select_log user_id code st = false /\ redeem_codes st !! code = None) /\
  (fst (run (redeem_code_db eng now user_id code) None st) = Return (PyStr "inactive") <->
   SQL.select_log user_id code st = false /\
   exists row, redeem_codes st !! code = Some row /\ is_active row = 0) /\
  (fst (run (redeem_code_db eng now user_id code) None st)
     = Return (PyStr "limit_reached") <->
   SQL.select_log user_id code st = false /\
   exists row, redeem_codes st !! code = Some row /\ is_active row <> 0 /\
               max_uses row <= current_uses row) /\
  (forall amt,
     (forall row,
        redeem_codes st !! code = Some row ->
        expiry_computable row = true /\ grant_fits eng (users st !! user_id) row = true) ->
     fst (run (redeem_code_db eng now user_id code) None st) = Return (PyInt amt) <->
     SQL.select_log user_id code st = false /\
     exists row, redeem_codes st !! code = Some row /\ is_active row <> 0 /\
                 current_uses row < max_uses row /\ expired row now = false /\
                 amt = amount row).
Proof.
  split; [answer_checks eng now user_id code st|].
  split; [answer_checks eng now user_id code st|].
  split; [answer_checks eng now user_id code st|].
  split; [answer_checks eng now user_id code st|].
  intros amt Hrange. split.
  - destruct (run (redeem_code_db eng now user_id code) None st) as [r st'] eqn:Hrun.
    cbn [fst]. intros ->.
    destruct (redeem_code_db_amount _ _ _ _ _ _ _ Hrun)
      as (row & Hlog & Hrow & Hact & Hlt & Hexp & _ & Hamt & _).
    split; [exact Hlog|]. exists row. repeat (split; [assumption|]). exact Hamt.
  - intros (Hlog & row & Hrow & Hact & Hlt & Hexp & ->).
    destruct (Hrange row Hrow) as [_ Hfits].
    rewrite (redeem_code_db_granted eng now user_id code st row) by
      (try assumption; apply grant_fits_accepted, Hfits).
    reflexivity.
Qed.

Lemma claim_answers_witness :
  (forall row,
     redeem_codes demo_codes !! "WELCOME50" = Some row ->
     expiry_computable row = true /\ grant_fits Postgres (users demo_codes !! 7) row = true) /\
  (fst (run (redeem_code_db Postgres 3000 7 "WELCOME50") None demo_codes) = Return (PyInt 50) <->
   SQL.select_log 7 "WELCOME50" demo_codes = false /\
   exists row, redeem_codes demo_codes !! "WELCOME50" = Some row /\ is_active row <> 0 /\
               current_uses row < max_uses row /\ expired row 3000 = false /\
               50 = amount row).
Proof.
  assert (Hrange : forall row,
    redeem_codes demo_codes !! "WELCOME50" = Some row ->
    expiry_computable row = true /\ grant_fits Postgres (users demo_codes !! 7) row = true).
  { intros row Hrow. vm_compute in Hrow. injection Hrow as <-. split; reflexivity. }
  split; [exact Hrange|].
  exact (proj2 (proj2 (proj2 (proj2 (claim_answers Postgres 3000 7 "WELCOME50" demo_codes))))
           50 Hrange).
Defined.

Lemma bump_uses_codes code st row :
  redeem_codes st !! code = Some row ->
  redeem_codes (SQL.bump_uses code st)
  = <[code := mk_code (amount row) (max_uses row) (current_uses row + 1)
                      (expiry_minutes row) (created_date row) (is_active row)]>
      (redeem_codes st).
Proof.
  intros Hrow. cbn. apply map_eq. intros c.
  rewrite lookup_alter, lookup_insert. case_decide; [|reflexivity].
  subst c. rewrite Hrow. reflexivity.
Qed.

Lemma grant_users eng now user_id code amt st :
  users (grant eng now user_id code amt st)
  = alter (fun r => SQL.add_earned amt (SQL.add_credits amt r)) user_id (users st).
Proof.
  destruct eng; unfold grant, SQL.insert_log_ignore, SQL.select_log; cbn;
    destruct (existsb (SQL.log_matches user_id code) (redeem_logs st)); cbn;
    rewrite ?alter_twice; reflexivity.
Qed.

Lemma redeem_granted_tables eng now user_id code st row :
  SQL.select_log user_id code st = false ->
  redeem_codes st !! code = Some row ->
  is_active row <> 0 ->
  current_uses row < max_uses row ->
  expired row now = false ->
  grant_accepted eng (amount row) user_id st = true ->
  exists st',
    run (redeem_code_db eng now user_id code) None st = (Return (PyInt (amount row)), st') /\
    redeem_codes st'
    = <[code := mk_code (amount row) (max_uses row) (current_uses row + 1)
                        (expiry_minutes row) (created_date row) (is_active row)]>
        (redeem_codes st) /\
    redeem_logs st' = (redeem_logs st ++ [mk_log user_id code now])%list /\
    users st' !! user_id
    = (fun r => mk_user (username r) (credits r + amount row) (joined_date r)
                        (referrer_id r) (is_banned r) (total_earned r + amount row)
                        (last_active r)) <$> users st !! user_id /\
    (forall other, other <> user_id -> users st' !! other = users st !! other).
Proof.
  intros Hlog Hrow Hact Hlt Hexp Hok.
  rewrite (redeem_code_db_granted eng now user_id code st row) by assumption.
  eexists. split; [reflexivity|].
  split; [rewrite grant_codes; apply bump_uses_codes, Hrow|].
  split. { rewrite grant_logs. unfold SQL.insert_log_ignore. rewrite Hlog. reflexivity. }
  rewrite grant_users. split.
  - rewrite lookup_alter_eq. destruct (users st !! user_id); reflexivity.
  - intros other Hne. apply lookup_alter_ne. congruence.
Qed.

(** X4: a claim that passes every check, for a code whose moment of
    expiry is a [datetime] and whose grant fits the engine's columns,
    returns the code's amount, adds one to the code's [current_uses] and
    changes nothing else of the codes, appends one claim row, and adds
    the amount to the balance and to the lifetime-earned counter of the
    claimant's row when there is one (whatever its sign); when the
    claimant has no account row the use is consumed and the claim
    recorded all the same, and nobody is credited.  Both engines. *)
Theorem redeem_granted_effect eng now user_id code st row :
  SQL.select_log user_id code st = false ->
  redeem_codes st !! code = Some row ->
  is_active row <> 0 ->
  current_uses row < max_uses row ->
  expiry_computable row = true ->
  expired row now = false ->
  grant_fits eng (users st !! user_id) row = true ->
  exists st',
    run (redeem_code_db eng now user_id code) None st = (Return (PyInt (amount row)), st') /\
    redeem_codes st'
    = <[code := mk_code (amount row) (max_uses row) (current_uses row + 1)
                        (expiry_minutes row) (created_date row) (is_active row)]>
        (redeem_codes st) /\
    redeem_logs st' = (redeem_logs st ++ [mk_log user_id code now])%list /\
    users st' !! user_id
    = (fun r => mk_user (username r) (credits r + amount row) (joined_date r)
                        (referrer_id r) (is_banned r) (total_earned r + amount row)
                        (last_active r)) <$> users st !! user_id /\
    (forall other, other <> user_id -> users st' !! other = users st !! other).
Proof.
  intros Hlog Hrow Hact Hlt _ Hexp Hfits.
  apply redeem_granted_tables; try assumption. apply grant_fits_accepted, Hfits.
Qed.

Lemma redeem_granted_effect_witness :
  SQL.select_log 7 "WELCOME50" demo_codes = false /\
  redeem_codes demo_codes !! "WELCOME50" = Some demo_code /\
  is_active demo_code <> 0 /\
  current_uses demo_code < max_uses demo_code /\
  expiry_computable demo_code = true /\
  expired demo_code 3000 = false /\
  grant_fits Postgres (users demo_codes !! 7) demo_code = true /\
  exists st',
    run (redeem_code_db Postgres 3000 7 "WELCOME50") None demo_codes
    = (Return (PyInt (amount demo_code)), st') /\
    redeem_codes st'
    = <["WELCOME50" := mk_code (amount demo_code) (max_uses demo_code)
                               (current_uses demo_code + 1) (expiry_minutes demo_code)
                               (created_date demo_code) (is_active demo_code)]>
        (redeem_codes demo_codes) /\
    redeem_logs st' = (redeem_logs demo_codes ++ [mk_log 7 "WELCOME50" 3000])%list /\
    users st' !! 7
    = (fun r => mk_user (username r) (credits r + amount demo_code) (joined_date r)
                        (referrer_id r) (is_banned r) (total_earned r + amount demo_code)
                        (last_active r)) <$> users demo_codes !! 7 /\
    (forall other, other <> 7 -> users st' !! other = users demo_codes !! other).
Proof.
  assert (H1 : SQL.select_log 7 "WELCOME50" demo_codes = false) by reflexivity.
  assert (H2 : redeem_codes demo_codes !! "WELCOME50" = Some demo_code) by reflexivity.
  assert (H3 : is_active demo_code <> 0) by (cbn; lia).
  assert (H4 : current_uses demo_code < max_uses demo_code) by (cbn; lia).
  assert (H5 : expiry_computable demo_code = true) by reflexivity.
  assert (H6 : expired demo_code 3000 = false) by reflexivity.
  assert (H7 : grant_fits Postgres (users demo_codes !! 7) demo_code = true) by reflexivity.
  repeat (split; [assumption|]).
  exact (redeem_granted_effect Postgres 3000 7 "WELCOME50" demo_codes demo_code
           H1 H2 H3 H4 H5 H6 H7).
Defined.



Lemma redeem_inactive eng now user_id code st row :
  SQL.select_log user_id code st = false ->
  redeem_codes st !! code = Some row ->
  is_active row = 0 ->
  run (redeem_code_db eng now user_id code) None st = (Return (PyStr "inactive"), st).
Proof.
  intros Hlog Hrow Hact. apply redeem_code_db_answer.
  unfold redeem_effect, SQL.select_code. rewrite Hlog, Hrow, Hact. reflexivity.
Qed.

Lemma redeem_invalid eng now user_id code st :
  SQL.select_log user_id code st = false ->
  redeem_codes st !! code = None ->
  run (redeem_code_db eng now user_id code) None st = (Return (PyStr "invalid"), st).
Proof.
  intros Hlog Hrow. apply redeem_code_db_answer.
  unfold redeem_effect, SQL.select_code. rewrite Hlog, Hrow. reflexivity.
Qed.



(** X6: after [deactivate_code] every account without a claim row is
    answered ["inactive"]; and since [create_redeem_code] always stores
    the active flag as 1, redefining the deactivated code (with a cap
    above its uses and no elapsed expiry, the arguments, the moment of
    expiry and the sums of the grant being in range) makes it claimable
    again: the claim is answered with the new amount.  Both engines. *)
Theorem deactivate_then_redefine eng code st row :
  redeem_codes st !! code = Some row ->
  (forall now user_id,
     SQL.select_log user_id code st = false ->
     run (redeem_code_db eng now user_id code) None (step eng (DeactivateCode code) st)
     = (Return (PyStr "inactive"), step eng (DeactivateCode code) st)) /\
  (forall now amt uses expiry now' user_id,
     SQL.select_log user_id code st = false ->
     0 < uses ->
     current_uses row < uses ->
     fits eng amt = true ->
     fits eng uses = true ->
     (forall m, expiry = Some m -> fits eng m = true) ->
     (forall m, expiry = Some m -> 0 < m ->
        0 <= now /\ now' <= now + m * minute /\ now + m * minute <= datetime_max) ->
     (forall account, users st !! user_id = Some account ->
        fits eng (credits account + amt) = true /\
        fits eng (total_earned account + amt) = true) ->
     fst (run (redeem_code_db eng now' user_id code) None
            (steps eng [DeactivateCode code; CreateRedeemCode now code amt uses expiry] st))
     = Return (PyInt amt)).
Proof.
  intros Hrow. split.
  - intros now user_id Hlog. rewrite step_effect_eq by reflexivity. cbn [step_effect].
    eapply redeem_inactive.
    + exact Hlog.
    + cbn. rewrite lookup_alter_eq, Hrow. reflexivity.
    + reflexivity.
  - intros now amt uses expiry now' user_id Hlog Hpos Hlt _ _ _ Hexp Hsum.
    cbn [steps]. rewrite !step_effect_eq by reflexivity. cbn [step_effect].
    assert (Hnot : forall cur, expired (mk_code amt uses cur expiry now 1) now' = false).
    { intros cur. destruct (expired _ now') eqn:E; [|reflexivity].
      apply expired_iff in E. cbn in E. destruct E as (m & Hm & Hmpos & Hpast).
      destruct (Hexp m Hm Hmpos) as (_ & Hle & _). lia. }
    assert (Hacc : forall st', users st' = users st ->
              grant_accepted eng amt user_id st' = true).
    { intros st' Hu. destruct eng; [reflexivity|].
      unfold grant_accepted, SQL.credits_in_range, SQL.earned_in_range. rewrite Hu.
      destruct (users st !! user_id) as [account|] eqn:Ha; [|reflexivity].
      destruct (Hsum account eq_refl) as [Hc He]. cbn [fits] in Hc, He.
      rewrite Hc, He. reflexivity. }
    destruct eng.
    + rewrite (redeem_code_db_granted SQLite now' user_id code _
                 (mk_code amt uses 0 expiry now 1));
        [reflexivity | exact Hlog | cbn; apply lookup_insert_eq | cbn; lia | cbn; lia
        | apply Hnot | apply Hacc; reflexivity].
    + assert (Hup : SQL.upsert_code code amt uses expiry now (SQL.set_inactive code st)
                    = with_codes (insert code
                        (mk_code amt uses (current_uses row) expiry now 1))
                        (SQL.set_inactive code st)).
      { unfold SQL.upsert_code. cbn. rewrite lookup_alter_eq, Hrow. reflexivity. }
      rewrite Hup.
      rewrite (redeem_code_db_granted Postgres now' user_id code _
                 (mk_code amt uses (current_uses row) expiry now 1));
        [reflexivity | exact Hlog | cbn; apply lookup_insert_eq | cbn; lia | cbn; lia
        | apply Hnot | apply Hacc; reflexivity].
Qed.

Lemma deactivate_then_redefine_witness :
  redeem_codes demo_claimed !! "WELCOME50" = Some (mk_code 50 2 1 None 2000 1) /\
  run (redeem_code_db Postgres 4000 8 "WELCOME50") None
      (step Postgres (DeactivateCode "WELCOME50") demo_claimed)
  = (Return (PyStr "inactive"), step Postgres (DeactivateCode "WELCOME50") demo_claimed) /\
  fst (run (redeem_code_db Postgres 6000 8 "WELCOME50") None
         (steps Postgres [DeactivateCode "WELCOME50";
                          CreateRedeemCode 5000 "WELCOME50" 80 5 (Some 30)] demo_claimed))
  = Return (PyInt 80).
Proof.
  assert (H : redeem_codes demo_claimed !! "WELCOME50" = Some (mk_code 50 2 1 None 2000 1))
    by reflexivity.
  destruct (deactivate_then_redefine Postgres "WELCOME50" demo_claimed _ H) as [Hoff Hon].
  split; [exact H|]. split.
  - apply Hoff. reflexivity.
  - apply Hon; [reflexivity | lia | cbn; lia | reflexivity | reflexivity | | |].
    + intros m Hm. injection Hm as <-. reflexivity.
    + intros m Hm Hpos. injection Hm as <-. unfold minute, datetime_max. lia.
    + intros account Ha. vm_compute in Ha. discriminate.
Defined.

(** X7: [delete_redeem_code] removes the code and leaves [redeem_logs]
    as it is.  Afterwards an account without a claim row for the code is
    answered ["invalid"]; and when a code is created again under the same
    name, the accounts that claimed the deleted one are still answered
    ["already_claimed"] and get nothing from the new one.  Both
    engines. *)
Theorem delete_code_keeps_claims eng code st :
  redeem_logs (step eng (DeleteRedeemCode code) st) = redeem_logs st /\
  (forall now user_id,
     SQL.select_log user_id code st = false ->
     run (redeem_code_db eng now user_id code) None (step eng (DeleteRedeemCode code) st)
     = (Return (PyStr "invalid"), step eng (DeleteRedeemCode code) st)) /\
  (forall now amt uses expiry now' user_id,
     SQL.select_log user_id code st = true ->
     run (redeem_code_db eng now' user_id code) None
       (steps eng [DeleteRedeemCode code; CreateRedeemCode now code amt uses expiry] st)
     = (Return (PyStr "already_claimed"),
        steps eng [DeleteRedeemCode code; CreateRedeemCode now code amt uses expiry] st)).
Proof.
  split; [rewrite step_effect_eq by reflexivity; reflexivity|]. split.
  - intros now user_id Hlog. rewrite step_effect_eq by reflexivity. cbn [step_effect].
    apply redeem_invalid; [exact Hlog | cbn; apply lookup_delete_eq].
  - intros now amt uses expiry now' user_id Hlog.
    apply redeem_already_claimed.
    apply steps_select_log; [repeat constructor | exact Hlog].
Qed.

(** ** The counter and the claim rows *)

Lemma filter_all {A} (p : A -> bool) (l : list A) :
  (forall x, In x l -> p x = true) -> List.filter p l = l.
Proof.
  induction l as [|x l IH]; intros H; cbn; [reflexivity|].
  rewrite (H x) by (left; reflexivity). f_equal. apply IH.
  intros y Hy. apply H. right. exact Hy.
Qed.

Lemma code_rows_logs c st st' :
  redeem_logs st' = redeem_logs st -> code_rows c st' = code_rows c st.
Proof. unfold code_rows. intros ->. reflexivity. Qed.

Lemma code_rows_append c user_id code now st st' :
  redeem_logs st' = (redeem_logs st ++ [mk_log user_id code now])%list ->
  code_rows c st' = (code_rows c st + (if String.eqb code c then 1 else 0))%nat.
Proof.
  unfold code_rows. intros ->. rewrite List.filter_app, List.length_app. cbn.
  destruct (String.eqb code c); reflexivity.
Qed.

Lemma step_uses_match eng o st :
  uses_match st -> history_kept o st -> uses_match (step eng o st).
Proof.
  intros Hinv Hkept. destruct (step_cases eng o st) as [-> | ->]; [exact Hinv|].
  destruct o; cbn [step_effect history_kept] in *.
  - destruct (users st !! user_id); exact Hinv.
  - intros c r. rewrite credit_one_codes.
    rewrite (code_rows_logs c st) by apply credit_one_logs. apply Hinv.
  - exact Hinv.
  - assert (Hnew : forall c r,
        redeem_codes (match eng with
          | SQLite => SQL.insert_or_replace_code code amt uses expiry now st
          | Postgres => SQL.upsert_code code amt uses expiry now st
          end) !! c = Some r ->
        (c = code /\ current_uses r = 0) \/ (c <> code /\ redeem_codes st !! c = Some r)).
    { intros c r. destruct (decide (code = c)) as [->|Hne].
      - intros Hl. left. split; [reflexivity|].
        destruct eng; cbn in Hl.
        + rewrite lookup_insert_eq in Hl. injection Hl as <-. reflexivity.
        + unfold SQL.upsert_code in Hl.
          destruct (redeem_codes st !! c) as [old|] eqn:Hold; cbn in Hl;
            rewrite lookup_insert_eq in Hl; injection Hl as <-; cbn; [|reflexivity].
          rewrite (Hinv c old Hold), Hkept. reflexivity.
      - intros Hl. right. split; [congruence|].
        destruct eng; cbn in Hl.
        + rewrite lookup_insert_ne in Hl by exact Hne. exact Hl.
        + unfold SQL.upsert_code in Hl.
          destruct (redeem_codes st !! code); cbn in Hl;
            rewrite lookup_insert_ne in Hl by exact Hne; exact Hl. }
    intros c r Hl.
    assert (Hlogs : code_rows c (match eng with
          | SQLite => SQL.insert_or_replace_code code amt uses expiry now st
          | Postgres => SQL.upsert_code code amt uses expiry now st
          end) = code_rows c st).
    { apply code_rows_logs. destruct eng; [reflexivity|].
      unfold SQL.upsert_code. destruct (redeem_codes st !! code); reflexivity. }
    rewrite Hlogs.
    destruct (Hnew c r Hl) as [[-> Hz] | [_ Hold]].
    + rewrite Hz, Hkept. reflexivity.
    + apply Hinv, Hold.
  - destruct (redeem_effect_cases eng now user_id code st)
      as [[Hsame _] | (row & Hlog & Hrow & _ & _ & _ & Heff)].
    + rewrite Hsame. exact Hinv.
    + rewrite Heff. cbn [snd]. intros c r.
      rewrite grant_codes.
      assert (Hlogs : redeem_logs (grant eng now user_id code (amount row) st)
                      = (redeem_logs st ++ [mk_log user_id code now])%list).
      { rewrite grant_logs. unfold SQL.insert_log_ignore. rewrite Hlog. reflexivity. }
      rewrite (code_rows_append c _ _ _ _ _ Hlogs).
      cbn. rewrite lookup_alter. case_decide as Hc.
      * subst c. rewrite Hrow. cbn. intros Hr. injection Hr as <-. cbn.
        rewrite String.eqb_refl, (Hinv code row Hrow). lia.
      * intros Hr. rewrite (Hinv c r Hr).
        destruct (String.eqb_spec code c); [contradiction | lia].
  - intros c r. cbn. rewrite lookup_delete. case_decide; [discriminate|]. apply Hinv.
  - intros c r. cbn. rewrite lookup_alter. case_decide as Hc; [|apply Hinv].
    subst c. destruct (redeem_codes st !! code) as [old|] eqn:Hold; cbn; [|discriminate].
    intros Hr. injection Hr as <-. cbn. exact (Hinv code old Hold).
  - intros c r Hl. cbn in Hl.
    assert (Hlogs : code_rows c
              (SQL.null_referrer user_id
                 (SQL.delete_logs_of user_id (SQL.delete_user_row user_id st)))
            = code_rows c st).
    { apply code_rows_logs. cbn. apply filter_all. intros l Hin.
      apply negb_true_iff, Z.eqb_neq, Hkept, Hin. }
    rewrite Hlogs. apply Hinv, Hl.
  - exact Hinv.
  - exact Hinv.
  - exact Hinv.
  - intros c r. rewrite credit_all_codes.
    rewrite (code_rows_logs c st) by apply credit_all_logs. apply Hinv.
Qed.

Lemma steps_uses_match eng os st :
  uses_match st -> histories_kept eng os st -> uses_match (steps eng os st).
Proof.
  revert st. induction os as [|o rest IH]; intros st Hinv Hk; cbn in *; [exact Hinv|].
  destruct Hk as [Hk Hrest]. apply IH; [|exact Hrest]. apply step_uses_match; assumption.
Qed.

(** X8: starting from the empty tables, as long as the requests are
    served one after another, codes are defined only under names that no
    claim row carries and accounts are deleted only when they have no
    claim rows, every stored code's [current_uses] equals the number of
    claim rows naming it.  Served so, claims, deactivation, code
    deletion and the account operations need no condition
    ([overlapping_claims] shows two claims of one account that overlap
    parting the two).  Both engines. *)
Theorem uses_match_reachable eng os :
  histories_kept eng os empty_db -> uses_match (steps eng os empty_db).
Proof.
  apply steps_uses_match. intros c r H. cbn in H. rewrite lookup_empty in H. discriminate.
Qed.

Lemma uses_match_reachable_witness :
  histories_kept SQLite
    [AddUser 1000 7 (Some "alice") None;
     CreateRedeemCode 2000 "WELCOME50" 50 2 None;
     RedeemCode 3000 7 "WELCOME50";
     RedeemCode 3500 8 "WELCOME50";
     DeleteUser 9] empty_db /\
  uses_match
    (steps SQLite
       [AddUser 1000 7 (Some "alice") None;
        CreateRedeemCode 2000 "WELCOME50" 50 2 None;
        RedeemCode 3000 7 "WELCOME50";
        RedeemCode 3500 8 "WELCOME50";
        DeleteUser 9] empty_db).
Proof.
  assert (Hk : histories_kept SQLite
    [AddUser 1000 7 (Some "alice") None;
     CreateRedeemCode 2000 "WELCOME50" 50 2 None;
     RedeemCode 3000 7 "WELCOME50";
     RedeemCode 3500 8 "WELCOME50";
     DeleteUser 9] empty_db).
  { cbn [histories_kept history_kept]. repeat split.
    intros l Hin. vm_compute in Hin. destruct Hin as [<-|[<-|[]]]; cbn; lia. }
  split; [exact Hk|]. apply (uses_match_reachable SQLite _ Hk).
Defined.

(** Without the conditions the count and the counter part: after the
    account that claimed is deleted, the code still counts its use. *)
Example uses_outlive_claim_rows :
  current_uses <$> redeem_codes (step SQLite (DeleteUser 7) demo_claimed) !! "WELCOME50"
    = Some 1 /\
  code_rows "WELCOME50" (step SQLite (DeleteUser 7) demo_claimed) = 0%nat.
Proof. split; vm_compute; reflexivity. Qed.

(** ** Accounts, registration and the redeem handler *)

(** X9: [add_user] for an id that already has a row changes no table.
    It returns normally under SQLite, and under PostgreSQL for every id
    but 0; for id 0 the PostgreSQL branch tests the fetched id itself
    for truth, takes the row for absent, runs the INSERT and ends in the
    raised unique violation, the tables still unchanged. *)
Theorem add_user_existing_account now user_id name referrer st row :
  users st !! user_id = Some row ->
  run (add_user SQLite now user_id name referrer) None st = (Return tt, st) /\
  (user_id <> 0 ->
   run (add_user Postgres now user_id name referrer) None st = (Return tt, st)) /\
  (user_id = 0 ->
   exists detail,
     run (add_user Postgres now user_id name referrer) None st = (Raise detail, st)).
Proof.
  intros Hrow. repeat split.
  - unfold_calls. cbn. unfold SQL.select_user_id. rewrite Hrow. reflexivity.
  - intros Hne. unfold_calls. cbn. unfold SQL.select_user_id. rewrite Hrow. cbn.
    destruct (user_id =? 0) eqn:E; [apply Z.eqb_eq in E; contradiction|]. reflexivity.
  - intros ->. eexists. unfold_calls. cbn. unfold SQL.select_user_id, SQL.insert_user.
    rewrite Hrow. cbn. rewrite Hrow. reflexivity.
Qed.

Lemma add_user_existing_account_witness :
  users demo_users !! 7 = Some demo_user /\
  run (add_user SQLite 9000 7 (Some "mallory") (Some 3)) None demo_users
    = (Return tt, demo_users) /\
  run (add_user Postgres 9000 7 (Some "mallory") (Some 3)) None demo_users
    = (Return tt, demo_users).
Proof.
  assert (H : users demo_users !! 7 = Some demo_user) by reflexivity.
  destruct (add_user_existing_account 9000 7 (Some "mallory") (Some 3) demo_users _ H)
    as (Hs & Hp & _).
  split; [exact H|]. split; [exact Hs|]. apply Hp. lia.
Defined.

(** X10: after any series of [update_credits] calls on an existing
    account (as the gift and removecredits commands issue them), each
    delta and each sum along the way fitting the engine's INTEGER
    column, the balance has changed by the sum of all deltas and the
    lifetime-earned counter by the sum of the positive ones only; the
    other columns are as before.  So a gift followed by the removal of
    the same amount restores the balance and keeps the counter raised,
    and the counter never goes down.  Both engines. *)
Theorem credits_accumulate eng user_id ds st row :
  users st !! user_id = Some row ->
  deltas_fit eng (credits row) (total_earned row) ds = true ->
  users (steps eng (map (UpdateCredits user_id) ds) st) !! user_id
  = Some (mk_user (username row) (credits row + total_of ds) (joined_date row) (referrer_id row)
                  (is_banned row)
                  (total_earned row + total_of (List.filter (fun d => d >? 0) ds))
                  (last_active row)).
Proof.
  revert st row. induction ds as [|d ds IH]; intros st row Hrow Hfit; cbn [map steps].
  - cbn. rewrite Hrow, !Z.add_0_r. destruct row; reflexivity.
  - cbn [deltas_fit] in Hfit.
    apply andb_true_iff in Hfit. destruct Hfit as [Hfit Hrest].
    apply andb_true_iff in Hfit. destruct Hfit as [Hfit He].
    apply andb_true_iff in Hfit. destruct Hfit as [_ Hc].
    rewrite step_effect_eq.
    2:{ cbn [accepted]. apply (credit_accepted_row _ _ _ _ row Hrow Hc).
        intros Hpos. destruct (Z.gtb_spec d 0); [exact He | lia]. }
    cbn [step_effect].
    rewrite (IH _ _ (credit_one_row d user_id st row Hrow)) by exact Hrest. cbn.
    destruct (d >? 0) eqn:E; cbn; unfold total_of; cbn; do 2 f_equal; lia.
Qed.

Lemma credits_accumulate_witness :
  users demo_users !! 7 = Some demo_user /\
  deltas_fit Postgres (credits demo_user) (total_earned demo_user) [10; -10; -8; 4] = true /\
  users (steps Postgres (map (UpdateCredits 7) [10; -10; -8; 4]) demo_users) !! 7
  = Some (mk_user (Some "alice") 1 1000 None 0 14 1000).
Proof.
  split; [reflexivity|]. split; [reflexivity|].
  exact (credits_accumulate Postgres 7 [10; -10; -8; 4] demo_users demo_user eq_refl eq_refl).
Defined.

(** X11: for an existing account, [is_user_banned] read after
    [set_ban_status] answers true exactly when the status written is 1.
    For an id with no account row the write changes nothing and the
    answer is false; and the ban is not remembered: once [add_user] has
    created the account, [is_user_banned] still answers false.  Both
    engines. *)
Theorem ban_status_round_trip eng user_id status st :
  (forall row,
     users st !! user_id = Some row ->
     run (set_ban_status eng user_id status;; is_user_banned eng user_id) None st
     = (Return (status =? 1), SQL.update_banned status user_id st)) /\
  (users st !! user_id = None ->
   run (set_ban_status eng user_id status;; is_user_banned eng user_id) None st
   = (Return false, st) /\
   forall now name referrer,
     fst (run (set_ban_status eng user_id status;;
               add_user eng now user_id name referrer;;
               is_user_banned eng user_id) None st)
     = Return false).
Proof.
  split.
  - intros row Hrow.
    assert (Hl : users (SQL.update_banned status user_id st) !! user_id
                 = Some (mk_user (username row) (credits row) (joined_date row)
                                 (referrer_id row) status (total_earned row)
                                 (last_active row))).
    { cbn. rewrite lookup_alter_eq, Hrow. reflexivity. }
    cbn in Hl.
    destruct eng; unfold is_user_banned; unfold_calls; cbn; rewrite Hl; reflexivity.
  - intros Hnone.
    assert (Hsame : SQL.update_banned status user_id st = st).
    { unfold SQL.update_banned, with_users. destruct st as [us cs ls]; cbn in *.
      rewrite alter_id' by exact Hnone. reflexivity. }
    assert (Hl : users (SQL.update_banned status user_id st) !! user_id = None)
      by (rewrite Hsame; exact Hnone).
    unfold SQL.update_banned, with_users in Hl. cbn in Hl.
    split.
    + destruct eng; unfold is_user_banned; unfold_calls; cbn; rewrite Hl, Hsame;
        reflexivity.
    + intros now name referrer.
      destruct eng; unfold is_user_banned; unfold_calls; cbn;
        unfold SQL.select_user_id, SQL.insert_user; cbn; rewrite Hl; cbn; rewrite ?Hl;
        cbn; rewrite lookup_insert_eq; reflexivity.
Qed.

(** X12: [reset_user_credits] sets the balance of the account's row to
    0 and leaves its lifetime-earned counter and every other column, all
    other accounts, the codes and the claim rows as they were; for an id
    with no row it changes nothing and creates none.  Both engines. *)
Theorem reset_user_credits_spec eng user_id st :
  exists st',
    run (reset_user_credits eng user_id) None st = (Return tt, st') /\
    users st' !! user_id
    = (fun r => mk_user (username r) 0 (joined_date r) (referrer_id r) (is_banned r)
                        (total_earned r) (last_active r)) <$> users st !! user_id /\
    (forall other, other <> user_id -> users st' !! other = users st !! other) /\
    redeem_codes st' = redeem_codes st /\
    redeem_logs st' = redeem_logs st.
Proof.
  rewrite reset_user_credits_run. eexists. split; [reflexivity|]. cbn.
  split; [apply lookup_alter_eq|]. split; [|split; reflexivity].
  intros other Hne. apply lookup_alter_ne. congruence.
Qed.

(** X13: a first start with a referral argument naming an existing
    account other than the new one (and other than id 0), whose balance
    and lifetime-earned counter have room for 3 more in the engine's
    INTEGER column, creates the new account with that referrer and adds
    3 to the referrer's balance and to its lifetime-earned counter; no
    other account, no code and no claim row changes.  Both engines. *)
Theorem referral_bonus_granted eng now user_id name r st rrow :
  users st !! user_id = None ->
  users st !! r = Some rrow ->
  r <> 0 ->
  fits eng (credits rrow + 3) = true ->
  fits eng (total_earned rrow + 3) = true ->
  exists st',
    run (start_command_register eng now user_id name (Some r)) None st = (Return tt, st') /\
    users st' !! user_id = Some (new_user now name (Some r)) /\
    users st' !! r
    = Some (mk_user (username rrow) (credits rrow + 3) (joined_date rrow) (referrer_id rrow)
                    (is_banned rrow) (total_earned rrow + 3) (last_active rrow)) /\
    (forall other, other <> user_id -> other <> r -> users st' !! other = users st !! other) /\
    redeem_codes st' = redeem_codes st /\
    redeem_logs st' = redeem_logs st.
Proof.
  intros Hnew Hr Hr0 Hc He.
  assert (Hne : r <> user_id) by congruence.
  assert (E1 : (r =? user_id) = false) by (apply Z.eqb_neq; exact Hne).
  assert (E0 : (r =? 0) = false) by (apply Z.eqb_neq; exact Hr0).
  exists (credit_one referral_bonus r
            (with_users (insert user_id (new_user now name (Some r))) st)).
  split.
  - unfold credit_one, referral_bonus. cbn.
    destruct eng.
    + unfold start_command_register; unfold_calls;
        unfold SQL.select_user_id, SQL.insert_user, referral_bonus; cbn;
        rewrite Hnew; cbn; rewrite ?Hnew; cbn; rewrite E1; cbn; rewrite ?Hnew; cbn;
        rewrite E0; cbn; reflexivity.
    + assert (Hpg : SQL.pg_update_credits_earned 3 r
                      (with_users (insert user_id (new_user now name (Some r))) st)
                    = inr (SQL.update_credits_earned 3 r
                             (with_users (insert user_id (new_user now name (Some r))) st))).
      { unfold SQL.pg_update_credits_earned, SQL.in_range, SQL.credits_in_range,
          SQL.earned_in_range. cbn [users with_users].
        rewrite lookup_insert_ne, Hr by congruence. cbn [fits] in Hc, He.
        rewrite Hc, He. reflexivity. }
      unfold start_command_register; unfold_calls;
        unfold SQL.select_user_id, SQL.insert_user, referral_bonus; cbn;
        rewrite Hnew; cbn; rewrite ?Hnew; cbn; rewrite E1; cbn; rewrite ?Hnew; cbn;
        rewrite E0; cbn; rewrite Hpg; reflexivity.
  - split.
    { rewrite credit_one_other by congruence. cbn. apply lookup_insert_eq. }
    split.
    { rewrite (credit_one_row referral_bonus r _ rrow).
      - reflexivity.
      - cbn. rewrite lookup_insert_ne by congruence. exact Hr. }
    split.
    { intros other H1 H2. rewrite credit_one_other by exact H2. cbn.
      apply lookup_insert_ne. congruence. }
    split; [rewrite credit_one_codes | rewrite credit_one_logs]; reflexivity.
Qed.

Lemma referral_bonus_granted_witness :
  users demo_users !! 8 = None /\
  users demo_users !! 7 = Some demo_user /\
  7 <> 0 /\
  fits Postgres (credits demo_user + 3) = true /\
  fits Postgres (total_earned demo_user + 3) = true /\
  exists st',
    run (start_command_register Postgres 5000 8 (Some "bob") (Some 7)) None demo_users
    = (Return tt, st') /\
    users st' !! 8 = Some (new_user 5000 (Some "bob") (Some 7)) /\
    users st' !! 7
    = Some (mk_user (username demo_user) (credits demo_user + 3) (joined_date demo_user)
                    (referrer_id demo_user) (is_banned demo_user)
                    (total_earned demo_user + 3) (last_active demo_user)) /\
    (forall other, other <> 8 -> other <> 7 ->
       users st' !! other = users demo_users !! other) /\
    redeem_codes st' = redeem_codes demo_users /\
    redeem_logs st' = redeem_logs demo_users.
Proof.
  assert (H1 : users demo_users !! 8 = None) by reflexivity.
  assert (H2 : users demo_users !! 7 = Some demo_user) by reflexivity.
  assert (H3 : 7 <> 0) by lia.
  assert (H4 : fits Postgres (credits demo_user + 3) = true) by reflexivity.
  assert (H5 : fits Postgres (total_earned demo_user + 3) = true) by reflexivity.
  repeat (split; [assumption|]).
  exact (referral_bonus_granted Postgres 5000 8 (Some "bob") 7 demo_users demo_user
           H1 H2 H3 H4 H5).
Defined.

Lemma start_registered eng now user_id name ref_arg st row :
  users st !! user_id = Some row ->
  run (start_command_register eng now user_id name ref_arg) None st = (Return tt, st).
Proof.
  intros Hrow. destruct eng; unfold start_command_register; unfold_calls; cbn;
    rewrite Hrow; reflexivity.
Qed.



(** X15: a first start whose referral argument is the new account's own
    id creates the account with no referrer, exactly as a start without
    argument does; and one whose argument is 0 stores referrer 0 but
    credits nobody, because the bonus is guarded by the truth value of
    the referrer id.  Both engines. *)
Theorem no_bonus_registrations eng now user_id name st :
  users st !! user_id = None ->
  run (start_command_register eng now user_id name (Some user_id)) None st
  = (Return tt, with_users (insert user_id (new_user now name None)) st) /\
  run (start_command_register eng now user_id name None) None st
  = (Return tt, with_users (insert user_id (new_user now name None)) st) /\
  (user_id <> 0 ->
   run (start_command_register eng now user_id name (Some 0)) None st
   = (Return tt, with_users (insert user_id (new_user now name (Some 0))) st)).
Proof.
  intros Hnew. repeat split.
  - destruct eng; unfold start_command_register; unfold_calls;
      unfold SQL.select_user_id, SQL.insert_user; cbn; rewrite Hnew; cbn;
      rewrite Z.eqb_refl; cbn; rewrite ?Hnew; cbn; rewrite ?Hnew; reflexivity.
  - destruct eng; unfold start_command_register; unfold_calls;
      unfold SQL.select_user_id, SQL.insert_user; cbn; rewrite Hnew; cbn;
      rewrite ?Hnew; cbn; rewrite ?Hnew; reflexivity.
  - intros Hne.
    destruct user_id as [|p|p]; [contradiction| |];
      destruct eng; unfold start_command_register; unfold_calls;
      unfold SQL.select_user_id, SQL.insert_user; cbn; rewrite Hnew; cbn;
      rewrite ?Hnew; cbn; rewrite ?Hnew; reflexivity.
Qed.

Lemma no_bonus_registrations_witness :
  users demo_users !! 8 = None /\
  run (start_command_register SQLite 5000 8 (Some "bob") (Some 8)) None demo_users
  = (Return tt, with_users (insert 8 (new_user 5000 (Some "bob") None)) demo_users) /\
  run (start_command_register SQLite 5000 8 (Some "bob") (Some 0)) None demo_users
  = (Return tt, with_users (insert 8 (new_user 5000 (Some "bob") (Some 0))) demo_users).
Proof.
  assert (H : users demo_users !! 8 = None) by reflexivity.
  destruct (no_bonus_registrations SQLite 5000 8 (Some "bob") demo_users H)
    as (Hself & _ & Hzero).
  split; [exact H|]. split; [exact Hself|]. apply Hzero. lia.
Defined.

(** X16: when the write that credits the referrer (or, under SQLite,
    its commit) fails, the registration block ends in the raised
    exception with the new account already stored and the referrer not
    credited; and every later start of that account, being a start of a
    registered account, writes nothing: the bonus is never made up.
    Both engines. *)
Theorem bonus_lost_on_failure eng k detail now user_id name r st rrow :
  users st !! user_id = None ->
  users st !! r = Some rrow ->
  r <> 0 ->
  match eng with
  | SQLite => k = 4%nat \/ k = 5%nat
  | Postgres => k = 3%nat
  end ->
  run (start_command_register eng now user_id name (Some r)) (Some (k, detail)) st
  = (Raise detail, with_users (insert user_id (new_user now name (Some r))) st) /\
  forall now' name' ref_arg,
    run (start_command_register eng now' user_id name' ref_arg) None
        (with_users (insert user_id (new_user now name (Some r))) st)
    = (Return tt, with_users (insert user_id (new_user now name (Some r))) st).
Proof.
  intros Hnew Hr Hr0 Hk.
  assert (Hne : r <> user_id) by congruence.
  assert (E1 : (r =? user_id) = false) by (apply Z.eqb_neq; exact Hne).
  assert (E0 : (r =? 0) = false) by (apply Z.eqb_neq; exact Hr0).
  split.
  - destruct eng; [destruct Hk as [-> | ->] | subst k];
      unfold start_command_register; unfold_calls;
      unfold SQL.select_user_id, SQL.insert_user, referral_bonus; cbn;
      rewrite Hnew; cbn; rewrite ?Hnew; cbn; rewrite E1; cbn; rewrite ?Hnew; cbn;
      rewrite E0; cbn; reflexivity.
  - intros now' name' ref_arg.
    apply (start_registered _ _ _ _ _ _ (new_user now name (Some r))).
    cbn. apply lookup_insert_eq.
Qed.

Lemma bonus_lost_on_failure_witness :
  users demo_users !! 8 = None /\
  users demo_users !! 7 = Some demo_user /\
  7 <> 0 /\
  run (start_command_register Postgres 5000 8 (Some "bob") (Some 7))
      (Some (3%nat, "connection lost")) demo_users
  = (Raise "connection lost",
     with_users (insert 8 (new_user 5000 (Some "bob") (Some 7))) demo_users) /\
  run (start_command_register Postgres 6000 8 (Some "bob") (Some 7)) None
      (with_users (insert 8 (new_user 5000 (Some "bob") (Some 7))) demo_users)
  = (Return tt, with_users (insert 8 (new_user 5000 (Some "bob") (Some 7))) demo_users).
Proof.
  assert (H1 : users demo_users !! 8 = None) by reflexivity.
  assert (H2 : users demo_users !! 7 = Some demo_user) by reflexivity.
  assert (H3 : 7 <> 0) by lia.
  destruct (bonus_lost_on_failure Postgres 3 "connection lost" 5000 8 (Some "bob") 7
              demo_users demo_user H1 H2 H3 eq_refl) as [Hraise Hlater].
  repeat (split; [assumption|]). apply Hlater.
Defined.

Lemma pg_grant_accepted amt user_id code st :
  grant_accepted Postgres amt user_id st = true ->
  SQL.pg_update_credits_earned amt user_id (SQL.bump_uses code st)
  = inr (SQL.update_credits_earned amt user_id (SQL.bump_uses code st)).
Proof.
  unfold grant_accepted, SQL.pg_update_credits_earned, SQL.in_range, SQL.credits_in_range,
    SQL.earned_in_range. cbn [users SQL.bump_uses with_codes].
  intros ->. reflexivity.
Qed.

(** X17: when an account that is not banned redeems a code and the claim
    is granted (every check passes, the moment of expiry is a
    [datetime] and the grant fits the engine's columns), the handler
    reads the balance back after the claim and adds the amount to it
    again: the message shows the balance before the claim plus twice the
    amount, while the stored balance is the balance before the claim
    plus the amount.  Both engines. *)
Theorem redeem_reply_counts_grant_twice eng now user_id code st row account :
  users st !! user_id = Some account ->
  is_banned account <> 1 ->
  SQL.select_log user_id code st = false ->
  redeem_codes st !! code = Some row ->
  is_active row <> 0 ->
  current_uses row < max_uses row ->
  expiry_computable row = true ->
  expired row now = false ->
  grant_fits eng (Some account) row = true ->
  exists st',
    run (handle_redeem eng now user_id code) None st
    = (Return (Some (ReplyRedeemed (amount row) (credits account + amount row + amount row))),
       st') /\
    credits <$> users st' !! user_id = Some (credits account + amount row).
Proof.
  intros Hacc Hban Hlog Hrow Hact Hlt _ Hexp Hfits.
  assert (Eb : (is_banned account =? 1) = false) by (apply Z.eqb_neq; exact Hban).
  assert (Ea : (is_active row =? 0) = false) by (apply Z.eqb_neq; exact Hact).
  assert (Eu : (current_uses row >=? max_uses row) = false).
  { destruct (Z.geb_spec (current_uses row) (max_uses row)); [lia | reflexivity]. }
  assert (Hok : grant_accepted eng (amount row) user_id st = true).
  { apply grant_fits_accepted. rewrite Hacc. exact Hfits. }
  exists (grant eng now user_id code (amount row) st).
  assert (Hl : users (grant eng now user_id code (amount row) st) !! user_id
               = Some (SQL.add_earned (amount row) (SQL.add_credits (amount row) account))).
  { rewrite grant_users, lookup_alter_eq, Hacc. reflexivity. }
  split; [|rewrite Hl; reflexivity].
  destruct eng; unfold handle_redeem, is_user_banned; unfold_calls; cbn;
    rewrite Hacc; cbn; rewrite Eb; cbn; rewrite Hlog; cbn;
    unfold SQL.select_code; rewrite Hrow; cbn; rewrite Ea, Eu, Hexp; cbn;
    rewrite ?(pg_grant_accepted _ _ code _ Hok); cbn;
    unfold grant in Hl; cbn in Hl; rewrite Hl; reflexivity.
Qed.

Lemma redeem_reply_counts_grant_twice_witness :
  users demo_codes !! 7 = Some demo_user /\
  is_banned demo_user <> 1 /\
  SQL.select_log 7 "WELCOME50" demo_codes = false /\
  redeem_codes demo_codes !! "WELCOME50" = Some demo_code /\
  is_active demo_code <> 0 /\
  current_uses demo_code < max_uses demo_code /\
  expiry_computable demo_code = true /\
  expired demo_code 3000 = false /\
  grant_fits Postgres (Some demo_user) demo_code = true /\
  exists st',
    run (handle_redeem Postgres 3000 7 "WELCOME50") None demo_codes
    = (Return (Some (ReplyRedeemed (amount demo_code)
                       (credits demo_user + amount demo_code + amount demo_code))), st') /\
    credits <$> users st' !! 7 = Some (credits demo_user + amount demo_code).
Proof.
  assert (H0 : users demo_codes !! 7 = Some demo_user) by reflexivity.
  assert (Hb : is_banned demo_user <> 1) by (cbn; lia).
  assert (H1 : SQL.select_log 7 "WELCOME50" demo_codes = false) by reflexivity.
  assert (H2 : redeem_codes demo_codes !! "WELCOME50" = Some demo_code) by reflexivity.
  assert (H3 : is_active demo_code <> 0) by (cbn; lia).
  assert (H4 : current_uses demo_code < max_uses demo_code) by (cbn; lia).
  assert (H5 : expiry_computable demo_code = true) by reflexivity.
  assert (H6 : expired demo_code 3000 = false) by reflexivity.
  assert (H7 : grant_fits Postgres (Some demo_user) demo_code = true) by reflexivity.
  repeat (split; [assumption|]).
  exact (redeem_reply_counts_grant_twice Postgres 3000 7 "WELCOME50" demo_codes demo_code
           demo_user H0 Hb H1 H2 H3 H4 H5 H6 H7).
Defined.

(** X18: a message from an account whose ban flag is 1 is dropped before
    the code is looked at: the handler answers nothing and no table
    changes, whatever the code.  Both engines. *)
Theorem banned_account_cannot_redeem eng now user_id code st account :
  users st !! user_id = Some account ->
  is_banned account = 1 ->
  run (handle_redeem eng now user_id code) None st = (Return None, st).
Proof.
  intros Hacc Hban.
  destruct eng; unfold handle_redeem, is_user_banned; unfold_calls; cbn;
    rewrite Hacc; cbn; rewrite Hban; reflexivity.
Qed.

Lemma banned_account_cannot_redeem_witness :
  users (with_users (alter (fun r => mk_user (username r) (credits r) (joined_date r)
                                      (referrer_id r) 1 (total_earned r) (last_active r)) 7)
           demo_codes) !! 7
  = Some (mk_user (Some "alice") 5 1000 None 1 0 1000) /\
  is_banned (mk_user (Some "alice") 5 1000 None 1 0 1000) = 1 /\
  run (handle_redeem Postgres 3000 7 "WELCOME50") None
      (with_users (alter (fun r => mk_user (username r) (credits r) (joined_date r)
                                     (referrer_id r) 1 (total_earned r) (last_active r)) 7)
         demo_codes)
  = (Return None,
     with_users (alter (fun r => mk_user (username r) (credits r) (joined_date r)
                                    (referrer_id r) 1 (total_earned r) (last_active r)) 7)
       demo_codes).
Proof.
  assert (H : users (with_users (alter (fun r => mk_user (username r) (credits r)
                       (joined_date r) (referrer_id r) 1 (total_earned r) (last_active r)) 7)
                       demo_codes) !! 7
              = Some (mk_user (Some "alice") 5 1000 None 1 0 1000)) by reflexivity.
  split; [exact H|]. split; [reflexivity|].
  exact (banned_account_cannot_redeem Postgres 3000 7 "WELCOME50" _ _ H eq_refl).
Defined.

(** ** Every request is all or nothing *)

Ltac single_write f eng :=
  destruct f as [[[|[|?]] ?]|]; destruct eng; unfold_calls; cbn; all_or_nothing.

(** X1: whichever single database call fails while a request is served,
    under either engine, the tables are left either exactly as they were
    or exactly as the fault-free request leaves them; no function of the
    ledger leaves part of its writes behind. *)
Theorem serve_all_or_nothing eng f o st :
  serve eng f o st = st \/ serve eng f o st = step eng o st.
Proof.
  destruct o; cbn [serve step].
  - apply add_user_all_or_nothing.
  - unfold update_credits. destruct (amt >? 0); single_write f eng.
  - single_write f eng.
  - single_write f eng.
  - apply redeem_all_or_nothing.
  - single_write f eng.
  - single_write f eng.
  - apply delete_user_all_or_nothing.
  - single_write f eng.
  - single_write f eng.
  - single_write f eng.
  - apply bulk_all_or_nothing.
Qed.

(** ** Bulk credit *)

Lemma credits_fit_accepted eng amt user_ids st :
  credits_fit eng amt user_ids st = true -> credit_all_accepted eng amt user_ids st = true.
Proof.
  revert st. induction user_ids as [|u rest IH]; intros st Hfit; [reflexivity|].
  cbn [credits_fit] in Hfit. cbn [credit_all_accepted].
  apply andb_true_iff in Hfit. destruct Hfit as [Hfit Hrest].
  apply andb_true_iff in Hfit. destruct Hfit as [_ Hu].
  rewrite (IH _ Hrest), andb_true_r.
  destruct (users st !! u) as [row|] eqn:Hrow.
  - apply (credit_fits_accepted _ _ _ _ row Hrow Hu).
  - apply credit_accepted_missing, Hrow.
Qed.

Lemma steps_update_credits eng amt user_ids st :
  credit_all_accepted eng amt user_ids st = true ->
  steps eng (map (fun u => UpdateCredits u amt) user_ids) st = credit_all amt user_ids st.
Proof.
  unfold credit_all. revert st.
  induction user_ids as [|u rest IH]; intros st Hok; cbn [map steps fold_left];
    [reflexivity|].
  cbn [credit_all_accepted] in Hok. apply andb_true_iff in Hok. destruct Hok as [Hu Hrest].
  rewrite step_effect_eq by exact Hu. cbn [step_effect]. apply IH, Hrest.
Qed.

Lemma credit_all_row amt user_ids u st row :
  users st !! u = Some row ->
  users (credit_all amt user_ids st) !! u
  = Some (mk_user (username row)
                  (credits row + Z.of_nat (count_occ Z.eq_dec user_ids u) * amt)
                  (joined_date row) (referrer_id row) (is_banned row)
                  (if amt >? 0
                   then total_earned row + Z.of_nat (count_occ Z.eq_dec user_ids u) * amt
                   else total_earned row)
                  (last_active row)).
Proof.
  unfold credit_all. revert st row.
  induction user_ids as [|x rest IH]; intros st row Hrow; cbn [fold_left count_occ].
  - rewrite Hrow. cbn. rewrite !Z.add_0_r. destruct row, (amt >? 0); reflexivity.
  - destruct (Z.eq_dec x u) as [->|Hne].
    + rewrite (IH _ _ (credit_one_row amt u st row Hrow)). cbn.
      rewrite Nat2Z.inj_succ, Z.mul_succ_l.
      destruct (amt >? 0); do 2 f_equal; lia.
    + apply IH. rewrite credit_one_other by congruence. exact Hrow.
Qed.

(** X2: without a fault, when the amount and every sum along the way
    fit the engine's INTEGER column, [bulk_update_credits] leaves what
    one [update_credits] call per listed id, in order, leaves: an account
    listed n times is credited n times the amount (and its
    lifetime-earned counter as well when the amount is positive), ids
    without a row are skipped without a row being created, an empty list
    changes nothing, and codes and claim rows are untouched.  Both
    engines. *)
Theorem bulk_update_credits_spec eng user_ids amt st :
  credits_fit eng amt user_ids st = true ->
  run (bulk_update_credits eng user_ids amt) None st
  = (Return tt, steps eng (map (fun u => UpdateCredits u amt) user_ids) st) /\
  (forall u row,
     users st !! u = Some row ->
     users (snd (run (bulk_update_credits eng user_ids amt) None st)) !! u
     = Some (mk_user (username row)
                     (credits row + Z.of_nat (count_occ Z.eq_dec user_ids u) * amt)
                     (joined_date row) (referrer_id row) (is_banned row)
                     (if amt >? 0
                      then total_earned row + Z.of_nat (count_occ Z.eq_dec user_ids u) * amt
                      else total_earned row)
                     (last_active row))) /\
  (forall u,
     users st !! u = None ->
     users (snd (run (bulk_update_credits eng user_ids amt) None st)) !! u = None) /\
  redeem_codes (snd (run (bulk_update_credits eng user_ids amt) None st)) = redeem_codes st /\
  redeem_logs (snd (run (bulk_update_credits eng user_ids amt) None st)) = redeem_logs st.
Proof.
  intros Hfit. pose proof (credits_fit_accepted _ _ _ _ Hfit) as Hok.
  rewrite bulk_update_credits_run, steps_update_credits by exact Hok. cbn [snd].
  split; [reflexivity|].
  split; [intros u row; apply credit_all_row|].
  split; [intros u; apply credit_all_absent|].
  split; [apply credit_all_codes | apply credit_all_logs].
Qed.

Lemma bulk_update_credits_spec_witness :
  credits_fit Postgres 4 [7; 9; 7] demo_users = true /\
  run (bulk_update_credits Postgres [7; 9; 7] 4) None demo_users
  = (Return tt, steps Postgres (map (fun u => UpdateCredits u 4) [7; 9; 7]) demo_users) /\
  users (snd (run (bulk_update_credits Postgres [7; 9; 7] 4) None demo_users)) !! 7
  = Some (mk_user (Some "alice") 13 1000 None 0 8 1000) /\
  users (snd (run (bulk_update_credits Postgres [7; 9; 7] 4) None demo_users)) !! 9 = None.
Proof.
  assert (Hfit : credits_fit Postgres 4 [7; 9; 7] demo_users = true) by reflexivity.
  destruct (bulk_update_credits_spec Postgres [7; 9; 7] 4 demo_users Hfit)
    as (Hrun & Hrow & Hnone & _).
  split; [exact Hfit|]. split; [exact Hrun|]. split.
  - exact (Hrow 7 demo_user eq_refl).
  - exact (Hnone 9 eq_refl).
Defined.

(** Outside that range the two part under PostgreSQL: the bulk credit is
    one transaction, so a sum that does not fit undoes the credits made
    before it, while separate [update_credits] calls keep theirs. *)
Example bulk_refused_whole :
  run (bulk_update_credits Postgres [8; 7] 2147483647) None
      (with_users (insert 8 (mk_user (Some "bob") 0 1000 None 0 0 1000)) demo_users)
  = (Raise "integer out of range",
     with_users (insert 8 (mk_user (Some "bob") 0 1000 None 0 0 1000)) demo_users) /\
  credits <$>
    users (steps Postgres [UpdateCredits 8 2147483647; UpdateCredits 7 2147483647]
             (with_users (insert 8 (mk_user (Some "bob") 0 1000 None 0 0 1000)) demo_users))
    !! 8 = Some 2147483647.
Proof. split; vm_compute; reflexivity. Qed.

(** ** Durations *)

(** The examples of the docstring. *)
Example parse_docstring :
  parse_time_string "30m" = Some 30 /\
  parse_time_string "2h" = Some 120 /\
  parse_time_string "1h30m" = Some 90 /\
  parse_time_string "24h" = Some 1440.
Proof. repeat split; vm_compute; reflexivity. Qed.


Lemma append_nil_l (t : string) : EmptyString ++ t = t.
Proof. reflexivity. Qed.

Lemma append_cons c (s t : string) : String c s ++ t = String c (s ++ t).
Proof. reflexivity. Qed.

Lemma lower_char_idem c : lower_char (lower_char c) = lower_char c.
Proof. destruct c as [[] [] [] [] [] [] [] []]; reflexivity. Qed.

Lemma lower_char_digit c : is_digit c = true -> lower_char c = c.
Proof. destruct c as [[] [] [] [] [] [] [] []]; cbn; intros H; (reflexivity || discriminate). Qed.

Lemma py_lower_idem s : py_lower (py_lower s) = py_lower s.
Proof. induction s as [|c s IH]; cbn; [reflexivity|]. rewrite lower_char_idem, IH. reflexivity. Qed.

Lemma py_lower_app s t : py_lower (s ++ t) = py_lower s ++ py_lower t.
Proof.
  induction s as [|c s IH]; [reflexivity|].
  change (String (lower_char c) (py_lower (s ++ t))
          = String (lower_char c) (py_lower s ++ py_lower t)).
  rewrite IH. reflexivity.
Qed.

Lemma py_lower_digits d : all_digits d = true -> py_lower d = d.
Proof.
  induction d as [|c d IH]; cbn; [reflexivity|].
  intros H. apply andb_true_iff in H. destruct H as [Hc Hd].
  rewrite lower_char_digit, IH by assumption. reflexivity.
Qed.

Lemma span_digits_app d c rest :
  all_digits d = true -> is_digit c = false ->
  span_digits (d ++ String c rest) = (d, String c rest).
Proof.
  intros Hd Hc. induction d as [|x d IH].
  - rewrite append_nil_l. cbn. rewrite Hc. reflexivity.
  - cbn in Hd. apply andb_true_iff in Hd. destruct Hd as [Hx Hd].
    rewrite append_cons. cbn. rewrite Hx, (IH Hd). reflexivity.
Qed.

Lemma span_digits_all d : all_digits d = true -> span_digits d = (d, EmptyString).
Proof.
  induction d as [|x d IH]; cbn; [reflexivity|].
  intros Hd. apply andb_true_iff in Hd. destruct Hd as [Hx Hd].
  rewrite Hx, (IH Hd). reflexivity.
Qed.

Lemma search_unit_hit u d rest :
  all_digits d = true -> d <> EmptyString -> is_digit u = false ->
  search_unit u (d ++ String u rest) = Some d.
Proof.
  intros Hd Hne Hu. destruct d as [|x d]; [contradiction|].
  change (search_unit u (String x d ++ String u rest))
    with (match span_digits (String x d ++ String u rest) with
          | (String d0 ds, String y _) =>
              if Ascii.eqb y u then Some (String d0 ds)
              else search_unit u (d ++ String u rest)
          | _ => search_unit u (d ++ String u rest)
          end).
  rewrite (span_digits_app _ _ _ Hd Hu), Ascii.eqb_refl. reflexivity.
Qed.

Lemma search_unit_skip u d c rest :
  all_digits d = true -> is_digit c = false -> Ascii.eqb c u = false ->
  search_unit u (d ++ String c rest) = search_unit u rest.
Proof.
  intros Hd Hc Hcu. induction d as [|x d IH].
  - rewrite append_nil_l. cbn. rewrite Hc. reflexivity.
  - pose proof Hd as Hd'. cbn in Hd'. apply andb_true_iff in Hd'. destruct Hd' as [Hx Hd'].
    change (search_unit u (String x d ++ String c rest))
      with (match span_digits (String x d ++ String c rest) with
            | (String d0 ds, String y _) =>
                if Ascii.eqb y u then Some (String d0 ds)
                else search_unit u (d ++ String c rest)
            | _ => search_unit u (d ++ String c rest)
            end).
    rewrite (span_digits_app _ _ _ Hd Hc), Hcu. apply IH, Hd'.
Qed.

Lemma search_unit_digits u d : all_digits d = true -> search_unit u d = None.
Proof.
  induction d as [|x d IH]; [reflexivity|].
  intros Hd. pose proof Hd as Hd'. cbn in Hd'. apply andb_true_iff in Hd'.
  destruct Hd' as [Hx Hd'].
  change (search_unit u (String x d))
    with (match span_digits (String x d) with
          | (String d0 ds, String y _) =>
              if Ascii.eqb y u then Some (String d0 ds) else search_unit u d
          | _ => search_unit u d
          end).
  rewrite (span_digits_all _ Hd). apply IH, Hd'.
Qed.

Lemma search_unit_absent u s : occurs u s = false -> search_unit u s = None.
Proof.
  induction s as [|c s IH]; [reflexivity|].
  intros Hocc. pose proof Hocc as Hocc'. cbn in Hocc'. apply orb_false_iff in Hocc'.
  destruct Hocc' as [Hc Hs].
  change (search_unit u (String c s))
    with (match span_digits (String c s) with
          | (String d0 ds, String y _) =>
              if Ascii.eqb y u then Some (String d0 ds) else search_unit u s
          | _ => search_unit u s
          end).
  destruct (span_digits (String c s)) as [[|d0 ds] [|y tl]] eqn:Espan; try (apply IH, Hs).
  destruct (Ascii.eqb y u) eqn:Ey; [|apply IH, Hs].
  exfalso.
  assert (Hin : forall t ds' tl', span_digits t = (ds', tl') ->
            occurs u t = false -> occurs u tl' = false).
  { clear. induction t as [|c t IHt]; cbn; intros ds' tl' Hsp Ho.
    - injection Hsp as <- <-. reflexivity.
    - apply orb_false_iff in Ho. destruct Ho as [Hc Ht].
      destruct (is_digit c).
      + destruct (span_digits t) as [ds0 tl0] eqn:E. injection Hsp as <- <-.
        eapply IHt; [reflexivity | exact Ht].
      + injection Hsp as <- <-. cbn. rewrite Hc, Ht. reflexivity. }
  specialize (Hin _ _ _ Espan Hocc). cbn in Hin. rewrite Ey in Hin. discriminate.
Qed.

Lemma digits_not_special d :
  all_digits d = true -> d <> EmptyString ->
  forall t, String.eqb (d ++ t) "" = false /\ String.eqb (d ++ t) "none" = false.
Proof.
  intros Hd Hne t. destruct d as [|c d]; [contradiction|].
  cbn in Hd. apply andb_true_iff in Hd. destruct Hd as [Hc _].
  rewrite append_cons. split; [reflexivity|].
  cbn. destruct (Ascii.eqb_spec c "n") as [->|]; [discriminate | reflexivity].
Qed.

Lemma parse_lowered s :
  String.eqb s "" = false ->
  String.eqb s "none" = false ->
  py_lower s = s ->
  parse_time_string s =
  positive_or_none
    (match search_unit "h" s, search_unit "m" s with
     | Some gh, Some gm => 0 + py_int gh * 60 + py_int gm
     | Some gh, None => 0 + py_int gh * 60
     | None, Some gm => 0 + py_int gm
     | None, None => if py_isdigit s then py_int s else 0
     end).
Proof.
  intros H1 H2 Hl. unfold parse_time_string, positive_or_none.
  rewrite Hl, H1, H2. cbn [orb].
  destruct (search_unit "h" s), (search_unit "m" s); reflexivity.
Qed.

Lemma py_isdigit_digits d : all_digits d = true -> d <> EmptyString -> py_isdigit d = true.
Proof. intros Hd Hne. destruct d; [contradiction | exact Hd]. Qed.

(** X19: for non-empty digit strings H and M, [parse_time_string] reads
    "<H>h<M>m" and "<M>m<H>h" alike as 60 * H + M minutes, "<H>h" as
    60 * H, and "<M>m" and the bare "<M>" as M, returning [None] instead
    of a total that is not positive. *)
Theorem parse_time_formats dh dm :
  all_digits dh = true -> dh <> EmptyString ->
  all_digits dm = true -> dm <> EmptyString ->
  parse_time_string (dh ++ "h" ++ dm ++ "m") = positive_or_none (py_int dh * 60 + py_int dm) /\
  parse_time_string (dm ++ "m" ++ dh ++ "h") = positive_or_none (py_int dh * 60 + py_int dm) /\
  parse_time_string (dh ++ "h") = positive_or_none (py_int dh * 60) /\
  parse_time_string (dm ++ "m") = positive_or_none (py_int dm) /\
  parse_time_string dm = positive_or_none (py_int dm).
Proof.
  intros Hh Hhne Hm Hmne.
  assert (Hlh : py_lower dh = dh) by (apply py_lower_digits, Hh).
  assert (Hlm : py_lower dm = dm) by (apply py_lower_digits, Hm).
  repeat split.
  - destruct (digits_not_special dh Hh Hhne ("h" ++ dm ++ "m")) as [E1 E2].
    rewrite parse_lowered; [|exact E1 | exact E2|].
    2:{ rewrite !py_lower_app, Hlh, Hlm. reflexivity. }
    change (dh ++ "h" ++ dm ++ "m") with (dh ++ String "h" (dm ++ String "m" "")).
    rewrite (search_unit_hit "h" dh _ Hh Hhne eq_refl).
    rewrite (search_unit_skip "m" dh "h" _ Hh eq_refl eq_refl).
    rewrite (search_unit_hit "m" dm _ Hm Hmne eq_refl). reflexivity.
  - destruct (digits_not_special dm Hm Hmne ("m" ++ dh ++ "h")) as [E1 E2].
    rewrite parse_lowered; [|exact E1 | exact E2|].
    2:{ rewrite !py_lower_app, Hlh, Hlm. reflexivity. }
    change (dm ++ "m" ++ dh ++ "h") with (dm ++ String "m" (dh ++ String "h" "")).
    rewrite (search_unit_skip "h" dm "m" _ Hm eq_refl eq_refl).
    rewrite (search_unit_hit "h" dh _ Hh Hhne eq_refl).
    rewrite (search_unit_hit "m" dm _ Hm Hmne eq_refl). reflexivity.
  - destruct (digits_not_special dh Hh Hhne "h") as [E1 E2].
    rewrite parse_lowered; [|exact E1 | exact E2|].
    2:{ rewrite !py_lower_app, Hlh. reflexivity. }
    change (dh ++ "h") with (dh ++ String "h" "").
    rewrite (search_unit_hit "h" dh _ Hh Hhne eq_refl).
    rewrite (search_unit_skip "m" dh "h" _ Hh eq_refl eq_refl). reflexivity.
  - destruct (digits_not_special dm Hm Hmne "m") as [E1 E2].
    rewrite parse_lowered; [|exact E1 | exact E2|].
    2:{ rewrite !py_lower_app, Hlm. reflexivity. }
    change (dm ++ "m") with (dm ++ String "m" "").
    rewrite (search_unit_skip "h" dm "m" _ Hm eq_refl eq_refl).
    rewrite (search_unit_hit "m" dm _ Hm Hmne eq_refl). reflexivity.
  - assert (Hnil : dm ++ "" = dm).
    { clear. induction dm as [|c d IH]; [reflexivity|]. rewrite append_cons, IH. reflexivity. }
    destruct (digits_not_special dm Hm Hmne "") as [E1 E2]. rewrite Hnil in E1, E2.
    rewrite parse_lowered; [|exact E1 | exact E2 | exact Hlm].
    rewrite !(search_unit_digits _ dm Hm), (py_isdigit_digits dm Hm Hmne). reflexivity.
Qed.

Lemma parse_time_formats_witness :
  all_digits "01" = true /\ "01" <> EmptyString /\
  all_digits "30" = true /\ "30" <> EmptyString /\
  parse_time_string "01h30m" = Some 90 /\
  parse_time_string "30m01h" = Some 90 /\
  parse_time_string "01h" = Some 60 /\
  parse_time_string "30m" = Some 30 /\
  parse_time_string "30" = Some 30.
Proof.
  assert (H1 : all_digits "01" = true) by reflexivity.
  assert (H2 : "01" <> EmptyString) by discriminate.
  assert (H3 : all_digits "30" = true) by reflexivity.
  assert (H4 : "30" <> EmptyString) by discriminate.
  repeat (split; [assumption|]).
  exact (parse_time_formats "01" "30" H1 H2 H3 H4).
Defined.

(** X20: in "<H>h<M>", digits that follow the hours without an "m" are
    dropped, not read as minutes: the result is 60 * H (so "1h30" is one
    hour). *)
Theorem parse_time_bare_digits_after_hours dh dm :
  all_digits dh = true -> dh <> EmptyString ->
  all_digits dm = true ->
  parse_time_string (dh ++ "h" ++ dm) = positive_or_none (py_int dh * 60).
Proof.
  intros Hh Hhne Hm.
  destruct (digits_not_special dh Hh Hhne ("h" ++ dm)) as [E1 E2].
  rewrite parse_lowered; [|exact E1 | exact E2|].
  2:{ rewrite !py_lower_app, (py_lower_digits dh Hh), (py_lower_digits dm Hm). reflexivity. }
  change (dh ++ "h" ++ dm) with (dh ++ String "h" dm).
  rewrite (search_unit_hit "h" dh _ Hh Hhne eq_refl).
  rewrite (search_unit_skip "m" dh "h" _ Hh eq_refl eq_refl).
  rewrite (search_unit_digits "m" dm Hm). reflexivity.
Qed.

Lemma parse_time_bare_digits_after_hours_witness :
  all_digits "1" = true /\ "1" <> EmptyString /\ all_digits "30" = true /\
  parse_time_string "1h30" = Some 60.
Proof.
  assert (H1 : all_digits "1" = true) by reflexivity.
  assert (H2 : "1" <> EmptyString) by discriminate.
  assert (H3 : all_digits "30" = true) by reflexivity.
  repeat (split; [assumption|]).
  exact (parse_time_bare_digits_after_hours "1" "30" H1 H2 H3).
Defined.

(** X21: [parse_time_string] never returns zero or a negative number;
    its result depends on the text only up to letter case; the empty
    text and "none" in any case give [None]; and so does every ASCII
    text that contains neither "h" nor "m" (in either case) and is not a
    string of digits. *)
Theorem parse_time_rejects :
  (forall s n, parse_time_string s = Some n -> 0 < n) /\
  (forall s, parse_time_string (py_lower s) = parse_time_string s) /\
  parse_time_string "" = None /\
  (forall s, py_lower s = "none" -> parse_time_string s = None) /\
  (forall s,
     ascii_text s = true ->
     occurs "h" (py_lower s) = false ->
     occurs "m" (py_lower s) = false ->
     py_isdigit (py_lower s) = false ->
     parse_time_string s = None).
Proof.
  split.
  { intros s n. unfold parse_time_string.
    destruct (_ || _); [discriminate|].
    match goal with |- (if ?t >? 0 then _ else _) = _ -> _ =>
      destruct (Z.gtb_spec t 0) as [Hpos|Hneg]; [|discriminate] end.
    intros Hsome. injection Hsome as <-. lia. }
  split.
  { intros s. unfold parse_time_string. rewrite py_lower_idem.
    destruct s; reflexivity. }
  split; [reflexivity|]. split.
  { intros s Hs. unfold parse_time_string. rewrite Hs.
    change (String.eqb "none" "none") with true. rewrite orb_true_r. reflexivity. }
  intros s _ Hh Hm Hd. unfold parse_time_string.
  destruct (_ || _); [reflexivity|].
  rewrite (search_unit_absent _ _ Hh), (search_unit_absent _ _ Hm), Hd. reflexivity.
Qed.

Lemma parse_time_rejects_witness :
  ascii_text "1.5 days" = true /\
  occurs "h" (py_lower "1.5 days") = false /\
  occurs "m" (py_lower "1.5 days") = false /\
  py_isdigit (py_lower "1.5 days") = false /\
  parse_time_string "1.5 days" = None.
Proof.
  assert (H1 : ascii_text "1.5 days" = true) by reflexivity.
  assert (H2 : occurs "h" (py_lower "1.5 days") = false) by reflexivity.
  assert (H3 : occurs "m" (py_lower "1.5 days") = false) by reflexivity.
  assert (H4 : py_isdigit (py_lower "1.5 days") = false) by reflexivity.
  repeat (split; [assumption|]).
  exact (proj2 (proj2 (proj2 (proj2 parse_time_rejects))) "1.5 days" H1 H2 H3 H4).
Defined.

(** ** Claim history *)

Lemma get_user_redeem_history_run eng row_order user_id st :
  run (get_user_redeem_history eng row_order user_id) None st
  = (Return (select_history row_order user_id st), st).
Proof. destruct eng; reflexivity. Qed.

Lemma history_count_listed user_id code st :
  count_occ Stdlib.Strings.String.string_dec
    (map fst (select_history (fun ls => ls) user_id st)) code
  = claim_rows user_id code st.
Proof.
  unfold select_history, claim_rows. induction (redeem_logs st) as [|l ls IH]; [reflexivity|].
  cbn [List.filter]. unfold SQL.log_matches at 1.
  destruct (log_user_id l =? user_id); cbn [andb map fst count_occ List.filter length].
  - destruct (Stdlib.Strings.String.string_dec (log_code l) code) as [->|Hne].
    + rewrite String.eqb_refl. cbn. rewrite IH. reflexivity.
    + destruct (String.eqb_spec (log_code l) code); [contradiction|]. exact IH.
  - exact IH.
Qed.

(** Whatever order the engine returns the rows in, the history holds the
    same entries. *)
Lemma select_history_order row_order user_id st :
  (forall ls, Permutation (row_order ls) ls) ->
  Permutation (select_history row_order user_id st)
              (select_history (fun ls => ls) user_id st).
Proof. intros Hperm. unfold select_history. apply Permutation_map, Hperm. Qed.

Lemma history_count row_order user_id code st :
  (forall ls, Permutation (row_order ls) ls) ->
  count_occ Stdlib.Strings.String.string_dec
    (map fst (select_history row_order user_id st)) code
  = claim_rows user_id code st.
Proof.
  intros Hperm. rewrite <- history_count_listed.
  apply Permutation_count_occ, Permutation_map, select_history_order, Hperm.
Qed.

(** X22: whatever order the engine returns the rows of the history
    query in: in the tables reached from the empty ones by any sequence
    of requests served one after another, the redeem history of an
    account names every code at most once; a granted claim adds the
    claimed code with its time to the claimant's history and changes
    nothing else of it; and after [delete_user] the history of the
    deleted id is empty.  Both engines. *)
Theorem redeem_history_spec eng row_order :
  (forall ls, Permutation (row_order ls) ls) ->
  (forall os user_id,
     exists h,
       run (get_user_redeem_history eng row_order user_id) None (steps eng os empty_db)
       = (Return h, steps eng os empty_db) /\
       List.NoDup (map fst h)) /\
  (forall now user_id code st amt st',
     run (redeem_code_db eng now user_id code) None st = (Return (PyInt amt), st') ->
     exists h h',
       run (get_user_redeem_history eng row_order user_id) None st = (Return h, st) /\
       run (get_user_redeem_history eng row_order user_id) None st' = (Return h', st') /\
       Permutation h' ((code, now) :: h)) /\
  (forall user_id st,
     run (get_user_redeem_history eng row_order user_id) None (step eng (DeleteUser user_id) st)
     = (Return [], step eng (DeleteUser user_id) st)).
Proof.
  intros Hperm. split; [|split].
  - intros os user_id. rewrite get_user_redeem_history_run. eexists. split; [reflexivity|].
    apply (NoDup_count_occ Stdlib.Strings.String.string_dec). intros c.
    rewrite history_count by exact Hperm.
    apply steps_claim_rows. cbn. lia.
  - intros now user_id code st amt st' Hrun.
    rewrite !get_user_redeem_history_run. eexists. eexists.
    split; [reflexivity|]. split; [reflexivity|].
    destruct (redeem_code_db_amount _ _ _ _ _ _ _ Hrun)
      as (row & Hlog & _ & _ & _ & _ & _ & _ & ->).
    rewrite (select_history_order row_order user_id st Hperm).
    rewrite (select_history_order row_order user_id _ Hperm).
    unfold select_history. rewrite grant_logs. unfold SQL.insert_log_ignore.
    rewrite Hlog. cbn [redeem_logs with_logs].
    rewrite List.filter_app, List.map_app. cbn. rewrite Z.eqb_refl. cbn.
    symmetry. apply Permutation_cons_append.
  - intros user_id st. rewrite get_user_redeem_history_run. f_equal. f_equal.
    rewrite step_effect_eq by reflexivity. cbn [step_effect]. unfold select_history. cbn.
    assert (Hnone : List.filter (fun l => log_user_id l =? user_id)
                      (List.filter (fun l => negb (log_user_id l =? user_id)) (redeem_logs st))
                    = []).
    { induction (redeem_logs st) as [|l ls IH]; [reflexivity|].
      cbn. destruct (log_user_id l =? user_id) eqn:E; cbn; [exact IH|].
      rewrite E. exact IH. }
    rewrite Hnone.
    rewrite (Permutation_nil (Permutation_sym (Hperm []))). reflexivity.
Qed.

Lemma redeem_history_spec_witness :
  (forall ls : list log_row, Permutation (rev ls) ls) /\
  run (get_user_redeem_history SQLite (@rev log_row) 7) None
      (step SQLite (DeleteUser 7) demo_claimed)
  = (Return [], step SQLite (DeleteUser 7) demo_claimed).
Proof.
  assert (Hperm : forall ls : list log_row, Permutation (rev ls) ls).
  { intros ls. symmetry. apply Permutation_rev. }
  split; [exact Hperm|].
  exact (proj2 (proj2 (redeem_history_spec SQLite (@rev log_row) Hperm)) 7 demo_claimed).
Defined.

(** ** The engines, fault-free *)

Lemma request_in_range_accepted o st :
  request_in_range o st = true -> accepted Postgres o st = true.
Proof.
  destruct o; cbn [request_in_range accepted]; intros Hin; try reflexivity.
  - apply andb_true_iff in Hin. destruct Hin as [_ Hin].
    destruct (users st !! user_id) as [row|] eqn:Hrow.
    + apply (credit_fits_accepted _ _ _ _ row Hrow Hin).
    + apply credit_accepted_missing, Hrow.
  - destruct (redeem_effect_cases Postgres now user_id code st)
      as [[_ Hno] | (row & _ & Hrow & _ & _ & _ & Heff)].
    + destruct (fst (redeem_effect Postgres now user_id code st)) as [amt|];
        [exfalso; apply (Hno amt); reflexivity | reflexivity].
    + rewrite Heff. cbn [fst]. rewrite Hrow in Hin.
      apply andb_true_iff in Hin. destruct Hin as [_ Hin].
      apply grant_fits_accepted, Hin.
  - apply credits_fit_accepted, Hin.
Qed.

(** X23: without a storage fault the two engines leave the same tables
    for every request whose integer arguments and sums fit 32 bits (and,
    for a claim, whose code has a moment of expiry that is a
    [datetime]), save a [create_redeem_code] for a code that already
    exists; and such a claim gets the same answer under both. *)
Theorem engines_agree_fault_free o st :
  match o with
  | CreateRedeemCode _ code _ _ _ => redeem_codes st !! code = None
  | _ => True
  end ->
  request_in_range o st = true ->
  step SQLite o st = step Postgres o st /\
  forall now user_id code,
    o = RedeemCode now user_id code ->
    run (redeem_code_db SQLite now user_id code) None st
    = run (redeem_code_db Postgres now user_id code) None st.
Proof.
  intros Hfresh Hin. pose proof (request_in_range_accepted _ _ Hin) as Hok.
  split; [apply step_engines; assumption|].
  intros now user_id code ->. apply redeem_code_db_engines, Hok.
Qed.

Lemma engines_agree_fault_free_witness :
  request_in_range (RedeemCode 4000 8 "WELCOME50") demo_claimed = true /\
  step SQLite (RedeemCode 4000 8 "WELCOME50") demo_claimed
  = step Postgres (RedeemCode 4000 8 "WELCOME50") demo_claimed /\
  run (redeem_code_db SQLite 4000 8 "WELCOME50") None demo_claimed
  = run (redeem_code_db Postgres 4000 8 "WELCOME50") None demo_claimed.
Proof.
  assert (H : request_in_range (RedeemCode 4000 8 "WELCOME50") demo_claimed = true)
    by reflexivity.
  destruct (engines_agree_fault_free (RedeemCode 4000 8 "WELCOME50") demo_claimed I H)
    as [Hstep Hclaim].
  split; [exact H|]. split; [exact Hstep | apply Hclaim; reflexivity].
Defined.

(** ** The lookup charge *)

(** X24: a lookup that is served costs an account that is not an admin
    exactly one credit (the balance less one fitting the engine's
    column), leaves its lifetime-earned counter alone and stamps its
    [last_active] with the time of the lookup, whether or not the
    provider answered, and touches no other account; it is served only
    from a balance of at least 1, so the balance it leaves is not
    negative; an account with a balance below 1 is told so and charged
    nothing; an admin is never charged: its lookup leaves the tables as
    they were, or, when it is served, with the stamp on its row alone;
    and for an id that is neither admin nor registered the handler ends
    in the exception raised by indexing [None].  Both engines. *)
Theorem lookup_charge eng now user_id input_data st :
  (forall row,
     users st !! user_id = Some row ->
     is_banned row <> 1 ->
     1 <= credits row ->
     fits eng (credits row - 1) = true ->
     forall uid_lookup,
     (uid_lookup = true -> keep_digits input_data <> EmptyString) ->
     exists st',
       run (process_api_call eng now user_id false true uid_lookup input_data) None st
       = (Return LookupServed, st') /\
       users st' !! user_id
       = Some (mk_user (username row) (credits row - 1) (joined_date row) (referrer_id row)
                       (is_banned row) (total_earned row) now) /\
       (forall other, other <> user_id -> users st' !! other = users st !! other) /\
       0 <= credits row - 1) /\
  (forall row,
     users st !! user_id = Some row ->
     is_banned row <> 1 ->
     credits row < 1 ->
     forall api_configured uid_lookup,
       run (process_api_call eng now user_id false api_configured uid_lookup input_data) None st
       = (Return LookupInsufficient, st)) /\
  (forall api_configured uid_lookup,
     exists outcome st',
       run (process_api_call eng now user_id true api_configured uid_lookup input_data) None st
       = (Return outcome, st') /\
       (st' = st \/ st' = SQL.set_last_active now user_id st) /\
       (outcome <> LookupServed -> st' = st)) /\
  (users st !! user_id = None ->
   forall api_configured uid_lookup,
   exists detail,
     run (process_api_call eng now user_id false api_configured uid_lookup input_data) None st
     = (Raise detail, st)).
Proof.
  split; [|split; [|split]].
  - intros row Hrow Hban Hbal Hfit uid_lookup Hin.
    assert (Eb : (is_banned row =? 1) = false) by (apply Z.eqb_neq; exact Hban).
    assert (Ec : (credits row <? 1) = false) by (apply Z.ltb_ge; exact Hbal).
    assert (Ei : uid_lookup && String.eqb (keep_digits input_data) "" = false).
    { destruct uid_lookup; [|reflexivity]. specialize (Hin eq_refl).
      destruct (keep_digits input_data); [contradiction | reflexivity]. }
    exists (SQL.set_last_active now user_id (SQL.update_credits_only (-1) user_id st)).
    split; [|split; [|split]].
    + destruct eng.
      * unfold process_api_call, is_user_banned, raise, log_lookup; unfold_calls; cbn;
          rewrite Hrow; cbn; rewrite Eb; cbn; rewrite Hrow; cbn; rewrite Ec; cbn;
          rewrite Ei; cbn; reflexivity.
      * assert (Hpg : SQL.pg_update_credits_only (-1) user_id st
                      = inr (SQL.update_credits_only (-1) user_id st)).
        { unfold SQL.pg_update_credits_only, SQL.in_range, SQL.credits_in_range.
          rewrite Hrow. cbn [fits] in Hfit.
          replace (credits row + -1) with (credits row - 1) by lia.
          rewrite Hfit. reflexivity. }
        unfold process_api_call, is_user_banned, raise, log_lookup; unfold_calls; cbn;
          rewrite Hrow; cbn; rewrite Eb; cbn; rewrite Hrow; cbn; rewrite Ec; cbn;
          rewrite Ei; cbn; rewrite Hpg; cbn; reflexivity.
    + cbn. rewrite !lookup_alter_eq, Hrow. cbn. do 2 f_equal.
    + intros other Hne. cbn. rewrite !lookup_alter_ne by congruence. reflexivity.
    + lia.
  - intros row Hrow Hban Hbal api_configured uid_lookup.
    assert (Eb : (is_banned row =? 1) = false) by (apply Z.eqb_neq; exact Hban).
    assert (Ec : (credits row <? 1) = true) by (apply Z.ltb_lt; exact Hbal).
    destruct eng; unfold process_api_call, is_user_banned, raise, log_lookup; unfold_calls;
      cbn; rewrite Hrow; cbn; rewrite Eb; cbn; rewrite Hrow; cbn; rewrite Ec; reflexivity.
  - intros api_configured uid_lookup.
    assert (Hbanned :
      (exists row, users st !! user_id = Some row /\ (is_banned row =? 1) = true) \/
      (match users st !! user_id with
       | Some row => is_banned row =? 1
       | None => false
       end = false)).
    { destruct (users st !! user_id) as [row|]; [|right; reflexivity].
      destruct (is_banned row =? 1) eqn:E; [left; exists row; split; [reflexivity | exact E]
                                           |right; reflexivity]. }
    destruct Hbanned as [(row & Hrow & Eb) | Eb].
    + exists LookupIgnored, st. split; [|split; [left; reflexivity | reflexivity]].
      destruct eng; unfold process_api_call, is_user_banned, raise, log_lookup; unfold_calls;
        cbn; rewrite Hrow; cbn; rewrite Eb; reflexivity.
    + exists (if negb api_configured then LookupUnavailable
              else if uid_lookup && String.eqb (keep_digits input_data) ""
                   then LookupInvalidUid else LookupServed).
      exists (if negb api_configured then st
              else if uid_lookup && String.eqb (keep_digits input_data) ""
                   then st else SQL.set_last_active now user_id st).
      split; [|split].
      * destruct eng; unfold process_api_call, is_user_banned, raise, log_lookup;
          unfold_calls; cbn;
          rewrite Eb; cbn; destruct api_configured; cbn; try reflexivity;
          destruct (uid_lookup && String.eqb (keep_digits input_data) ""); reflexivity.
      * destruct api_configured; cbn; [|left; reflexivity].
        destruct (uid_lookup && String.eqb (keep_digits input_data) "");
          [left | right]; reflexivity.
      * destruct api_configured; cbn; [|reflexivity].
        destruct (uid_lookup && String.eqb (keep_digits input_data) "");
          [reflexivity | contradiction].
  - intros Hnone api_configured uid_lookup. eexists.
    destruct eng; unfold process_api_call, is_user_banned, raise, log_lookup; unfold_calls;
      cbn; rewrite Hnone; cbn; rewrite Hnone; reflexivity.
Qed.

Lemma lookup_charge_witness :
  users demo_users !! 7 = Some demo_user /\
  is_banned demo_user <> 1 /\
  1 <= credits demo_user /\
  fits Postgres (credits demo_user - 1) = true /\
  exists st',
    run (process_api_call Postgres 8000 7 false true false "9876543210") None demo_users
    = (Return LookupServed, st') /\
    users st' !! 7 = Some (mk_user (Some "alice") 4 1000 None 0 0 8000).
Proof.
  assert (H1 : users demo_users !! 7 = Some demo_user) by reflexivity.
  assert (H2 : is_banned demo_user <> 1) by (cbn; lia).
  assert (H3 : 1 <= credits demo_user) by (cbn; lia).
  assert (H4 : fits Postgres (credits demo_user - 1) = true) by reflexivity.
  repeat (split; [assumption|]).
  destruct (proj1 (lookup_charge Postgres 8000 7 "9876543210" demo_users)
              demo_user H1 H2 H3 H4 false) as (st' & Hrun & Hrow & _).
  { discriminate. }
  exists st'. split; [exact Hrun | exact Hrow].
Defined.
